(** * cellule.js: the automaton engine of [src/renderer.js]

    A shallow embedding of the [Renderer] class: the two generation
    buffers with their precomputed neighbourhoods, the per-cell cursor
    ([currentCell], [currentId]) that the user callbacks read through, the
    pixel raster the draw calls write into, and the interval timer that
    drives [onRender].

    Conventions.
    - JS numbers that the engine uses as sizes, coordinates and indices are
      integers, modelled as [Z], of any sign; the limits of the platform on
      the length of an array and the size of a canvas (2^31 and above) are
      not modelled.
    - The state of a cell is [null] ([None]) or any other JS value, a
      member of the type [St]; [undefined], which a callback without a
      [return] produces, is such a member.  The engine tells the states
      apart nowhere but in the JSON round trip of [cloneCell].  For the
      missing field of an object and the missing element of an array,
      which the source tests with [== null] and [!= undefined], [None] is
      both [null] and [undefined].
    - An exception is the [Throw] outcome of the [result] monad; what the
      object was when the exception left it is not kept.  The loops that
      run user callbacks take fuel and are shown to return with enough of
      it.
    - The DOM is reduced to what the engine does to it: the elements a
      canvas can be mounted under, where it was mounted, what was last put
      on it, and the interval timers.
    - A cell object [this.cells[b][i]] is created once by [createAutomaton]
      and only its fields are assigned afterwards, so the reference to it is
      modelled by the pair [Ref b i] and the heap by [cells]. *)

From Stdlib Require Import ZArith Lia String.
From stdpp Require Import base option list list_numbers strings.

Local Open Scope Z_scope.

(** ** Outcomes *)

Inductive error : Type :=
| SetupOnly            (* 'This function can only be called in the setup function.' *)
| LoopOnly             (* 'This function can only be called in loop function.' *)
| LoopOrConstructOnly  (* 'This function can only be called in loop or construct function.' *)
| TypeError            (* a property read or written on null or undefined *)
| RangeError           (* 'Invalid array length': [new Array(n)] with n < 0 *)
| IndexSizeError       (* [getImageData] on a rectangle of width or height 0 *)
| JsonError            (* what [JSON.stringify] or [JSON.parse] throws *)
| UserError.           (* an exception that a callback throws by itself *)

Inductive result (A : Type) : Type :=
| Ok (a : A)
| Throw (e : error)
| OutOfFuel.

Arguments Ok {A} a.
Arguments Throw {A} e.
Arguments OutOfFuel {A}.

#[global] Instance result_ret : MRet result := fun A a => Ok a.
#[global] Instance result_bind : MBind result := fun A B f m =>
  match m with
  | Ok a => f a
  | Throw e => Throw e
  | OutOfFuel => OutOfFuel
  end.

Definition is_Ok {A} (m : result A) : Prop := exists a, m = Ok a.
Definition throws {A} (m : result A) : Prop := exists e, m = Throw e.

(** ** Arrays *)

(** [a[i]] on an ordinary array: [undefined] outside the array. *)
Definition arr_get {A} (a : list A) (i : Z) : option A :=
  if decide (0 <= i) then a !! Z.to_nat i else None.

(** [a[i] = f(a[i])] for an index known to the caller to be inside [a]. *)
Definition arr_alter {A} (f : A -> A) (a : list A) (i : Z) : list A :=
  if decide (0 <= i) then alter f (Z.to_nat i) a else a.

(** Storing a number into a [Uint8ClampedArray]: the value is clamped to
    [0, 255]; an absent field ([undefined], hence NaN) is stored as 0. *)
Definition toUint8Clamp (n : option Z) : Z :=
  match n with
  | Some z => Z.max 0 (Z.min 255 z)
  | None => 0
  end.

(** [data[p] = n] on a typed array: ignored when [p] is not a valid index
    (in particular when [p] is NaN, modelled as [None]). *)
Definition ta_set (data : list Z) (p : option Z) (n : option Z) : list Z :=
  match p with
  | Some q => if decide (0 <= q) then <[Z.to_nat q := toUint8Clamp n]> data else data
  | None => data
  end.

(** ** Colours, cell objects, the renderer *)

(** A colour object; each of the six fields may be missing. *)
Record color : Type := Color {
  col_h : option Z; col_s : option Z; col_v : option Z;
  col_r : option Z; col_g : option Z; col_b : option Z
}.

Definition ColorRGB (r g b : Z) : color := Color None None None (Some r) (Some g) (Some b).
Definition ColorHSV (h s v : Z) : color := Color (Some h) (Some s) (Some v) None None None.

(** The object [this.cells[ref_buf][ref_idx]]. *)
Record ref : Type := Ref { ref_buf : Z; ref_idx : Z }.

#[global] Instance ref_eq_dec : EqDecision ref.
Proof. solve_decision. Defined.

(** The part of the host page the renderer acts on: the active interval
    timers (handle, delay in ms), the next free handle, the ids of the
    elements of the document, whether [document.body] exists, where the
    canvas was mounted and what was last put on it. *)
Record Browser : Type := {
  timers : list (Z * Z);
  nextHandle : Z;
  elements : list string;
  has_body : bool;
  mounted : option (option string);
  screen : list Z
}.

(** A page with a body and no element that has an id. *)
Definition Browser_new : Browser :=
  {| timers := []; nextHandle := 1; elements := []; has_body := true;
     mounted := None; screen := [] |}.

Definition setInterval (ms : Z) (B : Browser) : Z * Browser :=
  (nextHandle B,
   {| timers := timers B ++ [(nextHandle B, ms)]; nextHandle := nextHandle B + 1;
      elements := elements B; has_body := has_body B;
      mounted := mounted B; screen := screen B |}).

Definition clearInterval (hd : option Z) (B : Browser) : Browser :=
  {| timers := filter (fun t => Some (fst t) <> hd) (timers B); nextHandle := nextHandle B;
     elements := elements B; has_body := has_body B;
     mounted := mounted B; screen := screen B |}.

(** [document.getElementById(id)], or [document.body] for [None], is not
    null. *)
Definition has_parent (parent : option string) (B : Browser) : bool :=
  match parent with
  | Some id => bool_decide (id ∈ elements B)
  | None => has_body B
  end.

(** [parent.appendChild(canvas)]: a TypeError when [parent] is null. *)
Definition appendCanvas (parent : option string) (B : Browser) : result Browser :=
  if has_parent parent B
  then Ok {| timers := timers B; nextHandle := nextHandle B;
             elements := elements B; has_body := has_body B;
             mounted := Some parent; screen := screen B |}
  else Throw TypeError.

(** [canvas.width = v] read back: the attribute holds a non-negative
    number, and a negative [v] leaves it at its default. *)
Definition canvas_dim (dflt v : Z) : Z := if decide (v < 0) then dflt else v.

Definition putImageData (data : list Z) (B : Browser) : Browser :=
  {| timers := timers B; nextHandle := nextHandle B;
     elements := elements B; has_body := has_body B;
     mounted := mounted B; screen := data |}.

(** ** User callbacks

    One run of a callback, as the engine sees it: the callback returns, or
    throws an exception of its own, or calls the API and goes on with the
    value the engine answered.  An engine error ends the callback and
    propagates to whoever called [start] or [onRender].  A callback that
    does not terminate is not modelled. *)

Inductive script (E : Type -> Type) (A : Type) : Type :=
| Return (a : A)
| Raise
| Call {X : Type} (e : E X) (k : X -> script E A).

Arguments Return {E A} a.
Arguments Raise {E A}.
Arguments Call {E A X} e k.

(** A callback is a JS function: what it does depends on the API and on
    whatever else it can read, its own variables, [Math.random()], the
    clock.  All of that is its world, of type [W]: a callback takes the
    world as it finds it to a run that ends with the value returned and
    the world as it leaves it. *)
Definition callback (W : Type) (E : Type -> Type) (A : Type) : Type :=
  W -> script E (A * W).

(** ** What the engine takes from outside *)

(** [util.hsvToRgb] of [src/util.js]. *)
Class Util : Type := hsvToRgb : color -> color.

(** The round trip [JSON.parse(JSON.stringify(x))] on a state that is not
    null: [None] where it throws ([undefined], a function or a symbol make
    [JSON.parse] throw a SyntaxError, a BigInt or a cyclic object make
    [JSON.stringify] throw a TypeError), [Some None] where it gives null
    (NaN, an infinity). *)
Class Codec (St : Type) : Type := jsonClone : St -> option (option St).

Section Engine.

(** [St] is the opaque state a cell holds: any non-null JS value.  [W] is
    the world of the callbacks. *)
Context (St W : Type) {codec : Codec St} {util : Util}.

(** A JS value a callback returns or reads: a state, or null. *)
Definition value : Type := option St.

(** [{cell, neighborhood, pos}] *)
Record slot : Type := Slot {
  cell : value;
  neighborhood : option (list (option ref));
  pos : option (list Z)
}.

Definition blank : slot := Slot None None None.

Record Renderer : Type := {
  fps : Z;
  step : Z;
  currentCell : option ref;
  currentId : option Z;
  width : Z;
  height : Z;
  cellSize : Z;
  canvas : option (Z * Z);
  parentId : option string;
  interval : option Z;
  setupDone : bool;
  image : list Z;
  cells : list (list slot);
  browser : Browser;
  world : W
}.

(** [constructor(global)] on a page [B], the world of the callbacks being
    [w]. *)
Definition Renderer_new (w : W) (B : Browser) : Renderer :=
  {| fps := 30; step := 0; currentCell := None; currentId := Some (-1);
     width := 100; height := 100; cellSize := 1; canvas := None;
     parentId := None; interval := None; setupDone := false;
     image := []; cells := []; browser := B; world := w |}.

Definition set_fps (x : Z) (R : Renderer) : Renderer :=
  {| fps := x; step := step R; currentCell := currentCell R; currentId := currentId R;
     width := width R; height := height R; cellSize := cellSize R; canvas := canvas R;
     parentId := parentId R; interval := interval R; setupDone := setupDone R;
     image := image R; cells := cells R; browser := browser R; world := world R |}.

Definition set_step (x : Z) (R : Renderer) : Renderer :=
  {| fps := fps R; step := x; currentCell := currentCell R; currentId := currentId R;
     width := width R; height := height R; cellSize := cellSize R; canvas := canvas R;
     parentId := parentId R; interval := interval R; setupDone := setupDone R;
     image := image R; cells := cells R; browser := browser R; world := world R |}.

(** [this.currentCell = c; this.currentId = i] *)
Definition set_current (c : option ref) (i : option Z) (R : Renderer) : Renderer :=
  {| fps := fps R; step := step R; currentCell := c; currentId := i;
     width := width R; height := height R; cellSize := cellSize R; canvas := canvas R;
     parentId := parentId R; interval := interval R; setupDone := setupDone R;
     image := image R; cells := cells R; browser := browser R; world := world R |}.

Definition set_dims (w h : Z) (R : Renderer) : Renderer :=
  {| fps := fps R; step := step R; currentCell := currentCell R; currentId := currentId R;
     width := w; height := h; cellSize := cellSize R; canvas := canvas R;
     parentId := parentId R; interval := interval R; setupDone := setupDone R;
     image := image R; cells := cells R; browser := browser R; world := world R |}.

Definition set_cellSize (x : Z) (R : Renderer) : Renderer :=
  {| fps := fps R; step := step R; currentCell := currentCell R; currentId := currentId R;
     width := width R; height := height R; cellSize := x; canvas := canvas R;
     parentId := parentId R; interval := interval R; setupDone := setupDone R;
     image := image R; cells := cells R; browser := browser R; world := world R |}.

Definition set_parentId (x : option string) (R : Renderer) : Renderer :=
  {| fps := fps R; step := step R; currentCell := currentCell R; currentId := currentId R;
     width := width R; height := height R; cellSize := cellSize R; canvas := canvas R;
     parentId := x; interval := interval R; setupDone := setupDone R;
     image := image R; cells := cells R; browser := browser R; world := world R |}.

Definition set_interval (x : option Z) (B : Browser) (R : Renderer) : Renderer :=
  {| fps := fps R; step := step R; currentCell := currentCell R; currentId := currentId R;
     width := width R; height := height R; cellSize := cellSize R; canvas := canvas R;
     parentId := parentId R; interval := x; setupDone := setupDone R;
     image := image R; cells := cells R; browser := B; world := world R |}.

Definition set_image (x : list Z) (R : Renderer) : Renderer :=
  {| fps := fps R; step := step R; currentCell := currentCell R; currentId := currentId R;
     width := width R; height := height R; cellSize := cellSize R; canvas := canvas R;
     parentId := parentId R; interval := interval R; setupDone := setupDone R;
     image := x; cells := cells R; browser := browser R; world := world R |}.

Definition set_cells (x : list (list slot)) (R : Renderer) : Renderer :=
  {| fps := fps R; step := step R; currentCell := currentCell R; currentId := currentId R;
     width := width R; height := height R; cellSize := cellSize R; canvas := canvas R;
     parentId := parentId R; interval := interval R; setupDone := setupDone R;
     image := image R; cells := x; browser := browser R; world := world R |}.

Definition set_browser (x : Browser) (R : Renderer) : Renderer :=
  {| fps := fps R; step := step R; currentCell := currentCell R; currentId := currentId R;
     width := width R; height := height R; cellSize := cellSize R; canvas := canvas R;
     parentId := parentId R; interval := interval R; setupDone := setupDone R;
     image := image R; cells := cells R; browser := x; world := world R |}.

(** What a callback leaves of the world. *)
Definition set_world (x : W) (R : Renderer) : Renderer :=
  {| fps := fps R; step := step R; currentCell := currentCell R; currentId := currentId R;
     width := width R; height := height R; cellSize := cellSize R; canvas := canvas R;
     parentId := parentId R; interval := interval R; setupDone := setupDone R;
     image := image R; cells := cells R; browser := browser R; world := x |}.

(** The canvas of [cw] x [ch] pixels on the page [B], its raster and the two
    fresh arrays of blank cell objects (lines 123-148 of
    [createAutomaton]). *)
Definition set_canvas (cw ch : Z) (B : Browser) (R : Renderer) : Renderer :=
  {| fps := fps R; step := step R; currentCell := currentCell R; currentId := currentId R;
     width := width R; height := height R; cellSize := cellSize R; canvas := Some (cw, ch);
     parentId := parentId R; interval := interval R; setupDone := setupDone R;
     image := replicate (Z.to_nat (cw * ch * 4)) 0;
     cells := [replicate (Z.to_nat (width R * height R)) blank;
               replicate (Z.to_nat (width R * height R)) blank];
     browser := B; world := world R |}.

(** ** The heap of cell objects *)

(** [this.cells[b][i]] as a reference: a TypeError when [this.cells[b]] is
    undefined, [undefined] when [i] is outside the array. *)
Definition cells_ref (R : Renderer) (b i : Z) : result (option ref) :=
  match arr_get (cells R) b with
  | None => Throw TypeError
  | Some buf => Ok ((fun _ => Ref b i) <$> arr_get buf i)
  end.

(** The cell object a reference points at. *)
Definition deref (R : Renderer) (c : ref) : option slot :=
  buf ← arr_get (cells R) (ref_buf c); arr_get buf (ref_idx c).

(** [c.f = x] for a field of the cell object [c]. *)
Definition assign (f : slot -> slot) (c : ref) (R : Renderer) : Renderer :=
  set_cells (arr_alter (fun buf => arr_alter f buf (ref_idx c)) (cells R) (ref_buf c)) R.

Definition with_cell (x : value) (s : slot) : slot := Slot x (neighborhood s) (pos s).
Definition with_neighborhood (x : list (option ref)) (s : slot) : slot := Slot (cell s) (Some x) (pos s).
Definition with_pos (x : list Z) (s : slot) : slot := Slot (cell s) (neighborhood s) (Some x).

(** [this.cells[b][i].f = x]: a TypeError unless the cell object exists. *)
Definition assign_at (f : slot -> slot) (b i : Z) (R : Renderer) : result Renderer :=
  c ← cells_ref R b i;
  match c with
  | Some c => Ok (assign f c R)
  | None => Throw TypeError
  end.

(** ** Topology: [computeNeighborhood] *)

Definition TOPLEFT : Z := 0.
Definition TOP : Z := 1.
Definition TOPRIGHT : Z := 2.
Definition RIGHT : Z := 3.
Definition BOTTOMRIGHT : Z := 4.
Definition BOTTOM : Z := 5.
Definition BOTTOMLEFT : Z := 6.
Definition LEFT : Z := 7.

(** The table [pos] of [computeNeighborhood]. *)
Definition offsets : list (Z * Z) :=
  [ (-1, -1); (0, -1); (1, -1); (1, 0); (1, 1); (0, 1); (-1, 1); (-1, 0) ].

(** One turn of the loop over [offsets]: push onto both lists. *)
Definition push_neighbor (R : Renderer) (x y : Z)
    (acc : result (list (option ref) * list (option ref))) (d : Z * Z)
    : result (list (option ref) * list (option ref)) :=
  '(n0, n1) ← acc;
  let newX := x + fst d in
  let newY := y + snd d in
  if decide (newX < 0 \/ newX >= width R \/ newY < 0 \/ newY >= height R)
  then Ok (n0 ++ [None], n1 ++ [None])
  else
    c0 ← cells_ref R 0 (newX + newY * width R);
    c1 ← cells_ref R 1 (newX + newY * width R);
    Ok (n0 ++ [c0], n1 ++ [c1]).

Definition computeNeighborhood (R : Renderer) (x y : Z)
    : result (list (option ref) * list (option ref)) :=
  foldl (push_neighbor R x y) (Ok ([], [])) offsets.

(** ** [createAutomaton] *)

(** The row offsets [pos] of the cell at [(x, y)] (lines 157-159). *)
Definition cell_pos (size w x y : Z) : list Z :=
  (fun j => ((j + y * size) * w + x) * size * 4) <$> seqZ 0 size.

(** One turn of the second loop of [createAutomaton] (lines 152-164);
    [new Array(this.cellSize)] is a RangeError for a negative [cellSize]. *)
Definition link_cell (acc : result Renderer) (i : Z) : result Renderer :=
  R ← acc;
  let x := Z.rem i (width R) in
  let y := i / width R in
  '(n0, n1) ← computeNeighborhood R x y;
  if decide (cellSize R < 0) then Throw RangeError
  else
    let p := cell_pos (cellSize R) (width R) x y in
    R ← assign_at (with_neighborhood n0) 0 i R;
    R ← assign_at (with_neighborhood n1) 1 i R;
    R ← assign_at (with_pos p) 0 i R;
    assign_at (with_pos p) 1 i R.

(** In the order of the source: the canvas is appended to its parent (a
    TypeError when there is none), takes its size, and its raster is read
    with [getImageData] (an IndexSizeError when the canvas is empty); the
    two arrays are allocated (a RangeError for a negative length), filled
    with blank cell objects, and these are linked. *)
Definition createAutomaton (R : Renderer) : result Renderer :=
  B ← appendCanvas (parentId R) (browser R);
  let cw := canvas_dim 300 (width R * cellSize R) in
  let ch := canvas_dim 150 (height R * cellSize R) in
  if decide (cw = 0 \/ ch = 0) then Throw IndexSizeError
  else if decide (width R * height R < 0) then Throw RangeError
  else foldl link_cell (Ok (set_canvas cw ch B R)) (seqZ 0 (width R * height R)).

(** ** Configuration methods *)

Definition setCellSize (size : Z) (R : Renderer) : result Renderer :=
  if setupDone R then Throw SetupOnly else Ok (set_cellSize size R).

Definition setSize (w h : Z) (R : Renderer) : result Renderer :=
  if setupDone R then Throw SetupOnly else Ok (set_dims w h R).

Definition setParent (id : option string) (R : Renderer) : result Renderer :=
  if setupDone R then Throw SetupOnly else Ok (set_parentId id R).

Definition getFramerate (R : Renderer) : Z := fps R.

(** [Math.floor(1000 / fps)]; [Z.div] rounds down like [Math.floor]. *)
Definition period (R : Renderer) : Z := 1000 / fps R.

Definition setFramerate (x : Z) (R : Renderer) : Renderer :=
  let R := set_fps x R in
  match interval R with
  | Some hd =>
      let '(hd', B) := setInterval (period R) (clearInterval (Some hd) (browser R)) in
      set_interval (Some hd') B R
  | None => R
  end.

(** ** Draw methods *)

(** [if(c.h != undefined) c = util.hsvToRgb(c)] *)
Definition toRgb (c : color) : color :=
  match col_h c with
  | Some _ => hsvToRgb c
  | None => c
  end.

Definition setPoint (x y : Z) (c : color) (R : Renderer) : result Renderer :=
  match currentCell R with
  | None => Throw LoopOnly
  | Some cur =>
      let c := toRgb c in
      match deref R cur ≫= pos with
      | None => Throw TypeError
      | Some rows =>
          let p := (fun o => o + x * 4) <$> arr_get rows y in
          let data := image R in
          let data := ta_set data ((fun q => q + 0) <$> p) (col_r c) in
          let data := ta_set data ((fun q => q + 1) <$> p) (col_g c) in
          let data := ta_set data ((fun q => q + 2) <$> p) (col_b c) in
          let data := ta_set data ((fun q => q + 3) <$> p) (Some 255) in
          Ok (set_image data R)
      end
  end.

Definition setBackground (c : color) (R : Renderer) : result Renderer :=
  let c := toRgb c in
  foldl (fun acc i =>
           foldl (fun acc j => R' ← acc; setPoint i j c R') acc (seqZ 0 (cellSize R)))
        (Ok R) (seqZ 0 (cellSize R)).

(** ** Cell-context accessors *)

Definition getId (R : Renderer) : result Z :=
  match currentId R with
  | None => Throw LoopOrConstructOnly
  | Some i => Ok i
  end.

Definition getCell (R : Renderer) : result value :=
  match currentCell R with
  | None => Throw LoopOnly
  | Some cur =>
      match deref R cur with
      | None => Throw TypeError
      | Some sl => Ok (cell sl)
      end
  end.

(** [JSON.parse(JSON.stringify(x))]: null gives null. *)
Definition clone (x : value) : result value :=
  match x with
  | None => Ok None
  | Some s =>
      match jsonClone s with
      | Some y => Ok y
      | None => Throw JsonError
      end
  end.

Definition cloneCell (R : Renderer) : result value :=
  match currentCell R with
  | None => Throw LoopOnly
  | Some cur =>
      match deref R cur with
      | None => Throw TypeError
      | Some sl => clone (cell sl)
      end
  end.

Definition getNeighbor (index : Z) (R : Renderer) : result value :=
  match currentCell R with
  | None => Throw LoopOnly
  | Some cur =>
      match deref R cur ≫= neighborhood with
      | None => Throw TypeError
      | Some nb =>
          match arr_get nb index with
          | Some (Some n) =>
              match deref R n with
              | None => Throw TypeError
              | Some sl => Ok (cell sl)
              end
          | _ => Ok None
          end
      end
  end.

(** ** The calls open to the user callbacks

    [construct] and [loop] use the state and draw functions, [setup] the
    setup functions; the states they read are values (never mutated in
    place, as the README requires). *)

Inductive call : Type -> Type :=
| CallCell : call value
| CallCloneCell : call value
| CallNeighbor (index : Z) : call value
| CallId : call Z
| CallPoint (x y : Z) (c : color) : call unit
| CallBackground (c : color) : call unit.

Inductive config : Type -> Type :=
| CallSetSize (w h : Z) : config unit
| CallSetCellSize (size : Z) : config unit
| CallSetParent (id : option string) : config unit
| CallSetFramerate (x : Z) : config unit
| CallGetFramerate : config Z.

Definition do_call {X} (e : call X) (R : Renderer) : result (X * Renderer) :=
  match e in call X return result (X * Renderer) with
  | CallCell => x ← getCell R; Ok (x, R)
  | CallCloneCell => x ← cloneCell R; Ok (x, R)
  | CallNeighbor index => x ← getNeighbor index R; Ok (x, R)
  | CallId => x ← getId R; Ok (x, R)
  | CallPoint x y c => R' ← setPoint x y c R; Ok (tt, R')
  | CallBackground c => R' ← setBackground c R; Ok (tt, R')
  end.

Definition do_config {X} (e : config X) (R : Renderer) : result (X * Renderer) :=
  match e in config X return result (X * Renderer) with
  | CallSetSize w h => R' ← setSize w h R; Ok (tt, R')
  | CallSetCellSize size => R' ← setCellSize size R; Ok (tt, R')
  | CallSetParent id => R' ← setParent id R; Ok (tt, R')
  | CallSetFramerate x => Ok (tt, setFramerate x R)
  | CallGetFramerate => Ok (getFramerate R, R)
  end.

Fixpoint run {E : Type -> Type} {A : Type}
    (h : forall X, E X -> Renderer -> result (X * Renderer))
    (p : script E A) (R : Renderer) : result (A * Renderer) :=
  match p with
  | Return a => Ok (a, R)
  | Raise => Throw UserError
  | Call e k => '(x, R') ← h _ e R; run h (k x) R'
  end.

(** [p] run from [R] makes a call to the engine in state [R']. *)
Fixpoint calls_at {E : Type -> Type} {A : Type}
    (h : forall X, E X -> Renderer -> result (X * Renderer))
    (p : script E A) (R R' : Renderer) : Prop :=
  match p with
  | Return _ | Raise => False
  | Call e k =>
      R' = R \/
      match h _ e R with
      | Ok (x, R1) => calls_at h (k x) R1 R'
      | _ => False
      end
  end.

(** [global.f()]: the callback runs in the world as it is and leaves it
    changed. *)
Definition invoke {E : Type -> Type} {A : Type}
    (h : forall X, E X -> Renderer -> result (X * Renderer))
    (f : callback W E A) (R : Renderer) : result (A * Renderer) :=
  '((x, w), R') ← run h (f (world R)) R;
  Ok (x, set_world w R').

(** The callbacks found on the global object; each may be missing. *)
Record Global : Type := {
  setup : option (callback W config unit);
  construct : option (callback W call value);
  loop : option (callback W call value)
}.

(** ** [start] and [onRender] *)

(** [for(let i = i0; i < this.width * this.height; ++i) body]: the bound is
    read from the renderer at every turn. *)
Fixpoint for_cells (fuel : nat) (body : Z -> Renderer -> result Renderer)
    (i : Z) (R : Renderer) : result Renderer :=
  match fuel with
  | O => OutOfFuel
  | S fuel' =>
      if decide (i < width R * height R)
      then R' ← body i R; for_cells fuel' body (i + 1) R'
      else Ok R
  end.

(** Body of the construction loop (lines 218-219). *)
Definition build (ct : callback W call value) (i : Z) (R : Renderer) : result Renderer :=
  let R := set_current (currentCell R) (Some i) R in
  '(x, R) ← invoke (@do_call) ct R;
  assign_at (with_cell x) (step R) i R.

(** The cursor of a scan at cell [i] (lines 234-235). *)
Definition bind_cell (i : Z) (R : Renderer) : result Renderer :=
  cur ← cells_ref R (step R) i;
  Ok (set_current cur (Some i) R).

(** Body of the scan loop (lines 234-236). *)
Definition visit (lp : callback W call value) (i : Z) (R : Renderer) : result Renderer :=
  R ← bind_cell i R;
  '(x, R) ← invoke (@do_call) lp R;
  assign_at (with_cell x) (1 - step R) i R.

(** [this.currentCell = null; this.currentId = -1] *)
Definition unbind (R : Renderer) : Renderer := set_current None (Some (-1)) R.

(** Lines 207-210 of [start]. *)
Definition run_setup (G : Global) (R : Renderer) : result Renderer :=
  match setup G with
  | Some p => '(_, R') ← invoke (@do_config) p R; Ok R'
  | None => Ok R
  end.

(** Lines 214-224 of [start]. *)
Definition construct_all (fuel : nat) (G : Global) (R : Renderer) : result Renderer :=
  match construct G with
  | Some ct => R' ← for_cells fuel (build ct) 0 R; Ok (unbind R')
  | None => Ok R
  end.

(** Line 225 of [start]. *)
Definition schedule (R : Renderer) : Renderer :=
  let '(hd, B) := setInterval (period R) (browser R) in
  set_interval (Some hd) B R.

Definition start (fuel : nat) (G : Global) (R : Renderer) : result Renderer :=
  R ← run_setup G R;
  R ← createAutomaton R;
  R ← construct_all fuel G R;
  Ok (schedule R).

Definition onRender (fuel : nat) (G : Global) (R : Renderer) : result Renderer :=
  match loop G with
  | None => Ok R
  | Some lp =>
      R ← for_cells fuel (visit lp) 0 R;
      let R := unbind R in
      let R := set_step (1 - step R) R in
      Ok (set_browser (putImageData (image R) (browser R)) R)
  end.

(** ** Notions used in the statements *)

Definition cellCount (R : Renderer) : Z := width R * height R.

(** What [computeNeighborhood] pushes for the offset [d], on buffer [b]. *)
Definition neighbor_entry (w h b x y : Z) (d : Z * Z) : option ref :=
  if decide (x + fst d < 0 \/ x + fst d >= w \/ y + snd d < 0 \/ y + snd d >= h)
  then None
  else Some (Ref b (x + fst d + (y + snd d) * w)).

Definition topology (w h b x y : Z) : list (option ref) :=
  neighbor_entry w h b x y <$> offsets.

(** The cell object of index [i] in buffer [b] once [createAutomaton] has
    linked it, holding the state [x]. *)
Definition linked_slot (w h size b i : Z) (x : value) : slot :=
  Slot x (Some (topology w h b (Z.rem i w) (i / w)))
         (Some (cell_pos size w (Z.rem i w) (i / w))).

Definition linked_buf (w h size b : Z) (xs : list value) : list slot :=
  imap (fun k x => linked_slot w h size b (Z.of_nat k) x) xs.

(** The states held by buffer [b]. *)
Definition generation (R : Renderer) (b : Z) : list value :=
  match arr_get (cells R) b with
  | Some buf => cell <$> buf
  | None => []
  end.

(** A renderer whose automaton has been created: both buffers hold one
    linked cell object per index, the raster has four bytes per pixel and
    [step] selects one of the two buffers. *)
Record created (R : Renderer) : Prop := {
  created_width : 0 < width R;
  created_height : 0 < height R;
  created_size : 0 <= cellSize R;
  created_step : step R = 0 \/ step R = 1;
  created_image :
    length (image R) = Z.to_nat (width R * cellSize R * (height R * cellSize R) * 4);
  created_cells :
    exists xs0 xs1 : list value,
      length xs0 = Z.to_nat (cellCount R) /\ length xs1 = Z.to_nat (cellCount R) /\
      cells R = [linked_buf (width R) (height R) (cellSize R) 0 xs0;
                 linked_buf (width R) (height R) (cellSize R) 1 xs1]
}.

(** [f a1; f a2; ...] in sequence, stopping at the first exception. *)
Definition chain {A} (f : A -> Renderer -> result Renderer) (l : list A) (R : Renderer)
    : result Renderer :=
  foldl (fun acc a => R' ← acc; f a R') (Ok R) l.

(** The scan of [onRender] cut after its first [k] cells:
    [visit lp 0; ...; visit lp (k - 1)]. *)
Definition scan_upto (lp : callback W call value) (k : Z) (R : Renderer) : result Renderer :=
  chain (visit lp) (seqZ 0 k) R.

(** The construction loop of [start] cut after its first [k] cells. *)
Definition build_upto (ct : callback W call value) (k : Z) (R : Renderer) : result Renderer :=
  chain (build ct) (seqZ 0 k) R.

(** Lines 239-243 of [onRender]. *)
Definition finish (R : Renderer) : Renderer :=
  let R := unbind R in
  let R := set_step (1 - step R) R in
  set_browser (putImageData (image R) (browser R)) R.

(** [N] firings of the timer. *)
Fixpoint ticks (N : nat) (fuel : nat) (G : Global) (R : Renderer) : result Renderer :=
  match N with
  | O => Ok R
  | S N' => R' ← ticks N' fuel G R; onRender fuel G R'
  end.

(** The first byte of the top-left pixel of a cell: [pos[0]]. *)
Definition pixelOrigin (R : Renderer) (c : ref) : option Z :=
  rows ← deref R c ≫= pos; arr_get rows 0.

(** Buffer [b] while [createAutomaton] runs its second loop: the cells
    below [k] are linked, the others still blank. *)
Definition half_linked (w h size b k n : Z) : list slot :=
  (fun i => if decide (i < k) then linked_slot w h size b i None else blank) <$> seqZ 0 n.

(** [R'] is [R] up to the content of the raster, and to the world of the
    callbacks, of which the engine knows nothing. *)
Definition same_but_image (R R' : Renderer) : Prop :=
  exists data w,
    R' = set_world w (set_image data R) /\ length data = length (image R).

(** The cursor of a scan rests on cell [i] of the current buffer. *)
Definition bound (R : Renderer) (i : Z) : Prop :=
  currentCell R = Some (Ref (step R) i) /\ currentId R = Some i /\ 0 <= i < cellCount R.

(** The state of cell [i] in the current buffer of [R] (null outside the grid). *)
Definition state_of (R : Renderer) (i : Z) : value :=
  default None (arr_get (generation R (step R)) i).

(** The state of the [k]-th neighbour of cell [i] in the current buffer of
    [R]: null when the neighbourhood has no cell there. *)
Definition neighbor_state (R : Renderer) (i k : Z) : value :=
  match arr_get (topology (width R) (height R) (step R) (Z.rem i (width R)) (i / width R)) k with
  | Some (Some c) => state_of R (ref_idx c)
  | _ => None
  end.

(** During the scan that starts in [R], [loop] returns [x] for cell [i]. *)
Definition returned_in_tick (lp : callback W call value) (R : Renderer) (i : Z) (x : value) : Prop :=
  exists Ri Rb R2,
    scan_upto lp i R = Ok Ri /\ bind_cell i Ri = Ok Rb /\ invoke (@do_call) lp Rb = Ok (x, R2).

(** During the construction pass that starts in [R], [construct] returns
    [x] for cell [i]. *)
Definition returned_in_construct (ct : callback W call value) (R : Renderer) (i : Z) (x : value) : Prop :=
  exists Ri R2,
    build_upto ct i R = Ok Ri /\
    invoke (@do_call) ct (set_current (currentCell Ri) (Some i) Ri) = Ok (x, R2).

(** During the scan that starts in [R], the callback of cell [i] makes a
    call to the engine in state [R']. *)
Definition called_in_tick (lp : callback W call value) (R : Renderer) (i : Z) (R' : Renderer) : Prop :=
  exists Ri Rb,
    scan_upto lp i R = Ok Ri /\ bind_cell i Ri = Ok Rb /\
    calls_at (@do_call) (lp (world Rb)) Rb R'.

(** During the construction pass that starts in [R], the callback of cell
    [i] makes a call to the engine in state [R']. *)
Definition called_in_construct (ct : callback W call value) (R : Renderer) (i : Z) (R' : Renderer) : Prop :=
  exists Ri,
    build_upto ct i R = Ok Ri /\
    calls_at (@do_call) (ct (world Ri)) (set_current (currentCell Ri) (Some i) Ri) R'.

(** The four stores of [setPoint] at byte offset [p]. *)
Definition plot (data : list Z) (p : option Z) (c : color) : list Z :=
  let data := ta_set data ((fun q => q + 0) <$> p) (col_r c) in
  let data := ta_set data ((fun q => q + 1) <$> p) (col_g c) in
  let data := ta_set data ((fun q => q + 2) <$> p) (col_b c) in
  ta_set data ((fun q => q + 3) <$> p) (Some 255).

(** Where [setPoint x y] writes for the cell of index [i]: [pos[y] + x * 4]. *)
Definition point_offset (size w i x y : Z) : option Z :=
  (fun o => o + x * 4) <$> arr_get (cell_pos size w (Z.rem i w) (i / w)) y.

(** What a scan leaves unchanged while it runs: the grid, the selector
    [step], the scheduling fields and every state of the current buffer. *)
Definition scan_frame (R R' : Renderer) : Prop :=
  created R' /\
  width R' = width R /\ height R' = height R /\ cellSize R' = cellSize R /\
  step R' = step R /\ fps R' = fps R /\ interval R' = interval R /\
  setupDone R' = setupDone R /\ browser R' = browser R /\
  generation R' (step R) = generation R (step R).

(** What the construction pass and the setup callback leave unchanged. *)
Definition build_frame (R R' : Renderer) : Prop :=
  created R' /\
  width R' = width R /\ height R' = height R /\ cellSize R' = cellSize R /\
  step R' = step R /\ fps R' = fps R /\ interval R' = interval R /\
  setupDone R' = setupDone R /\ browser R' = browser R /\
  currentCell R' = currentCell R.

Definition setup_frame (R R' : Renderer) : Prop :=
  step R' = step R /\ setupDone R' = setupDone R /\
  currentCell R' = currentCell R /\ currentId R' = currentId R /\
  cells R' = cells R /\ image R' = image R /\
  (interval R = None -> interval R' = None /\ timers (browser R') = timers (browser R)).

(** The byte [setPoint] stores for channel [ch] (0 red, 1 green, 2 blue,
    3 alpha). *)
Definition channel (c : color) (ch : Z) : Z :=
  if decide (ch = 0) then toUint8Clamp (col_r c)
  else if decide (ch = 1) then toUint8Clamp (col_g c)
  else if decide (ch = 2) then toUint8Clamp (col_b c)
  else 255.

(** [pos[y] + x * 4] for the cell of index [i], written out. *)
Definition byte_offset (size w i x y : Z) : Z :=
  ((y + (i / w) * size) * w + Z.rem i w) * size * 4 + x * 4.

(** ** The scheduler *)

(** Modelled from the spec: [stop()], which [src/renderer.js] does not
    define.  The spec (4.5 and 5) says that it takes the scheduler from
    Running to Idle by cancelling the pending timer; Idle is the state of a
    new renderer, whose [interval] is null. *)
Definition stop (R : Renderer) : Renderer :=
  set_interval None (clearInterval (interval R) (browser R)) R.

(** What can happen to a renderer between two turns of the event loop: a
    registered timer fires and runs [onRender], or the page calls [start],
    [stop] or [setFramerate]. *)
Inductive event : Type :=
| Tick (hd : Z)
| CallStart
| CallStop
| CallFramerate (x : Z).

Inductive sched_step (fuel : nat) (G : Global) : Renderer -> event -> Renderer -> Prop :=
| step_tick R hd R' :
    hd ∈ (fst <$> timers (browser R)) ->
    onRender fuel G R = Ok R' ->
    sched_step fuel G R (Tick hd) R'
| step_start R R' :
    start fuel G R = Ok R' ->
    sched_step fuel G R CallStart R'
| step_stop R :
    sched_step fuel G R CallStop (stop R)
| step_framerate R x :
    sched_step fuel G R (CallFramerate x) (setFramerate x R).

Inductive sched_run (fuel : nat) (G : Global) : Renderer -> list event -> Renderer -> Prop :=
| run_nil R : sched_run fuel G R [] R
| run_cons R ev R1 evs R2 :
    sched_step fuel G R ev R1 -> sched_run fuel G R1 evs R2 ->
    sched_run fuel G R (ev :: evs) R2.

(** The only timer of the page is the one [interval] remembers. *)
Definition sched_inv (R : Renderer) : Prop :=
  match interval R with
  | Some hd => fst <$> timers (browser R) = [hd]
  | None => timers (browser R) = []
  end.

(** What neither a scan nor the construction pass touches. *)
Definition sched_frame (R R' : Renderer) : Prop :=
  setupDone R' = setupDone R /\ interval R' = interval R /\
  timers (browser R') = timers (browser R) /\ fps R' = fps R /\
  currentCell R' = currentCell R.

(** ** Notions used for the rest of the engine *)

(** The state and id functions, as opposed to the draw functions. *)
Definition is_read {X} (e : call X) : bool :=
  match e with
  | CallPoint _ _ _ | CallBackground _ => false
  | _ => true
  end.

(** A callback that never calls a draw function. *)
Fixpoint reads_only {A} (p : script call A) : Prop :=
  match p with
  | Return _ | Raise => True
  | Call e k => is_read e = true /\ forall x, reads_only (k x)
  end.

Definition is_clone {X} (e : call X) : bool :=
  match e with
  | CallCloneCell => true
  | _ => false
  end.

(** A run that no scan can see fail: it throws nothing by itself, and it
    calls [cloneCell] only when every state has a JSON round trip. *)
Fixpoint unfailing {A} (p : script call A) : Prop :=
  match p with
  | Return _ => True
  | Raise => False
  | Call e k =>
      (is_clone e = true -> forall s : St, jsonClone s <> None) /\
      forall x, unfailing (k x)
  end.

(** The canvas of the renderer has a parent on the page. *)
Definition mountable (R : Renderer) : Prop :=
  has_parent (parentId R) (browser R) = true.

(** The page once the canvas is appended to that parent. *)
Definition mounted_page (R : Renderer) : Browser :=
  {| timers := timers (browser R); nextHandle := nextHandle (browser R);
     elements := elements (browser R); has_body := has_body (browser R);
     mounted := Some (parentId R); screen := screen (browser R) |}.

(** [onRender] from the [k]-th turn of its loop on. *)
Definition resume (fuel : nat) (lp : callback W call value) (k : Z) (R : Renderer)
    : result Renderer :=
  R' ← for_cells fuel (visit lp) k R; Ok (finish R').

(** Every handle in use is below the next one that [setInterval] gives
    out. *)
Definition handles_fresh (B : Browser) : Prop :=
  forall t, t ∈ timers B -> t.1 < nextHandle B.

(** Two renderers that a callback cannot tell apart by reading: the same
    grid, selector and cursor, and the same states in the current buffer. *)
Definition same_view (R1 R2 : Renderer) : Prop :=
  created R1 /\ created R2 /\
  width R2 = width R1 /\ height R2 = height R1 /\ cellSize R2 = cellSize R1 /\
  step R2 = step R1 /\ currentCell R2 = currentCell R1 /\ currentId R2 = currentId R1 /\
  generation R2 (step R1) = generation R1 (step R1).

(** What a [setup] callback can do to the timers: the handles stay fresh,
    a timer [t] that the renderer does not remember stays, and a running
    renderer stays running. *)
Definition timers_kept (t : Z * Z) (R R' : Renderer) : Prop :=
  (handles_fresh (browser R) -> handles_fresh (browser R')) /\
  (handles_fresh (browser R) -> t ∈ timers (browser R) -> Some t.1 <> interval R ->
     t ∈ timers (browser R') /\ Some t.1 <> interval R') /\
  (forall hd, interval R = Some hd -> hd ∈ (fst <$> timers (browser R)) ->
     exists h1, interval R' = Some h1 /\ h1 ∈ (fst <$> timers (browser R'))).

End Engine.

Arguments blank {St}.
Arguments Renderer_new {St} {W} w B.
Arguments set_fps {St} {W} x R.
Arguments set_step {St} {W} x R.
Arguments set_current {St} {W} c i R.
Arguments set_dims {St} {W} w h R.
Arguments set_cellSize {St} {W} x R.
Arguments set_parentId {St} {W} x R.
Arguments set_interval {St} {W} x B R.
Arguments set_image {St} {W} x R.
Arguments set_cells {St} {W} x R.
Arguments set_browser {St} {W} x R.
Arguments set_world {St} {W} x R.
Arguments set_canvas {St} {W} cw ch B R.
Arguments cells_ref {St} {W} R b i.
Arguments deref {St} {W} R c.
Arguments assign {St} {W} f c R.
Arguments with_cell {St} x s.
Arguments with_neighborhood {St} x s.
Arguments with_pos {St} x s.
Arguments assign_at {St} {W} f b i R.
Arguments push_neighbor {St} {W} R x y acc d.
Arguments computeNeighborhood {St} {W} R x y.
Arguments link_cell {St} {W} acc i.
Arguments createAutomaton {St} {W} R.
Arguments setCellSize {St} {W} size R.
Arguments setSize {St} {W} w h R.
Arguments setParent {St} {W} id R.
Arguments getFramerate {St} {W} R.
Arguments period {St} {W} R.
Arguments setFramerate {St} {W} x R.
Arguments toRgb {_} c.
Arguments setPoint {St} {W} {_} x y c R.
Arguments setBackground {St} {W} {_} c R.
Arguments getId {St} {W} R.
Arguments getCell {St} {W} R.
Arguments clone {St} {_} x.
Arguments cloneCell {St} {W} {_} R.
Arguments getNeighbor {St} {W} index R.
Arguments do_call {St} {W} {_} {_} {X} e R.
Arguments do_config {St} {W} {X} e R.
Arguments run {St} {W} {E} {A} h p R.
Arguments calls_at {St} {W} {E} {A} h p R R'.
Arguments invoke {St} {W} {E} {A} h f R.
Arguments for_cells {St} {W} fuel body i R.
Arguments build {St} {W} {_} {_} ct i R.
Arguments bind_cell {St} {W} i R.
Arguments visit {St} {W} {_} {_} lp i R.
Arguments unbind {St} {W} R.
Arguments run_setup {St} {W} G R.
Arguments construct_all {St} {W} {_} {_} fuel G R.
Arguments schedule {St} {W} R.
Arguments start {St} {W} {_} {_} fuel G R.
Arguments onRender {St} {W} {_} {_} fuel G R.
Arguments cellCount {St} {W} R.
Arguments linked_slot {St} w h size b i x.
Arguments linked_buf {St} w h size b xs.
Arguments generation {St} {W} R b.
Arguments created {St} {W} R.
Arguments chain {St} {W} {A} f l R.
Arguments scan_upto {St} {W} {_} {_} lp k R.
Arguments build_upto {St} {W} {_} {_} ct k R.
Arguments finish {St} {W} R.
Arguments ticks {St} {W} {_} {_} N fuel G R.
Arguments pixelOrigin {St} {W} R c.
Arguments same_but_image {St} {W} R R'.
Arguments bound {St} {W} R i.
Arguments state_of {St} {W} R i.
Arguments neighbor_state {St} {W} R i k.
Arguments returned_in_tick {St} {W} {_} {_} lp R i x.
Arguments returned_in_construct {St} {W} {_} {_} ct R i x.
Arguments called_in_tick {St} {W} {_} {_} lp R i R'.
Arguments called_in_construct {St} {W} {_} {_} ct R i R'.
Arguments scan_frame {St} {W} R R'.
Arguments build_frame {St} {W} R R'.
Arguments setup_frame {St} {W} R R'.
Arguments stop {St} {W} R.
Arguments sched_step {St} {W} {_} {_} fuel G _ _ _.
Arguments sched_run {St} {W} {_} {_} fuel G _ _ _.
Arguments sched_inv {St} {W} R.
Arguments sched_frame {St} {W} R R'.
Arguments is_read {St} {X} e.
Arguments reads_only {St} {A} p.
Arguments is_clone {St} {X} e.
Arguments unfailing {St} {_} {A} p.
Arguments mountable {St} {W} R.
Arguments mounted_page {St} {W} R.
Arguments resume {St} {W} {_} {_} fuel lp k R.
Arguments same_view {St} {W} R1 R2.
Arguments timers_kept {St} {W} t R R'.
Arguments CallCell {St}.
Arguments CallCloneCell {St}.
Arguments CallNeighbor {St} index.
Arguments CallId {St}.
Arguments CallPoint {St} x y c.
Arguments CallBackground {St} c.
Arguments step_tick {St} {W} {_} {_} fuel G R hd R' _ _.
Arguments step_start {St} {W} {_} {_} fuel G R R' _.
Arguments step_stop {St} {W} {_} {_} fuel G R.
Arguments step_framerate {St} {W} {_} {_} fuel G R x.
Arguments run_nil {St} {W} {_} {_} fuel G R.
Arguments run_cons {St} {W} {_} {_} fuel G R ev R1 evs R2 _ _.
Arguments Slot {St} cell neighborhood pos.
Arguments cell {St} s.
Arguments neighborhood {St} s.
Arguments pos {St} s.
Arguments fps {St} {W} r.
Arguments step {St} {W} r.
Arguments currentCell {St} {W} r.
Arguments currentId {St} {W} r.
Arguments width {St} {W} r.
Arguments height {St} {W} r.
Arguments cellSize {St} {W} r.
Arguments canvas {St} {W} r.
Arguments parentId {St} {W} r.
Arguments interval {St} {W} r.
Arguments setupDone {St} {W} r.
Arguments image {St} {W} r.
Arguments cells {St} {W} r.
Arguments browser {St} {W} r.
Arguments world {St} {W} r.
Arguments setup {St} {W} g.
Arguments construct {St} {W} g.
Arguments loop {St} {W} g.
Arguments created_width {St} {W} R c.
Arguments created_height {St} {W} R c.
Arguments created_size {St} {W} R c.
Arguments created_step {St} {W} R c.
Arguments created_image {St} {W} R c.
Arguments created_cells {St} {W} R c.
(** * A 2 x 2 automaton with cells of 2 x 2 pixels

    The cells hold a boolean.  [construct] makes cell 0 alive; [loop]
    paints the cell red and takes over the state of the neighbour on the
    right.  The world of the callbacks is a number, in which each callback
    counts its calls. *)

Section Example.

(** In place of [util.hsvToRgb] for the examples: a grey of the same value. *)
#[local] Instance hsvToGrey : Util :=
  fun c => Color None None None (col_v c) (col_v c) (col_v c).

(** The JSON round trip of a boolean is the boolean. *)
#[local] Instance clone_bool : Codec bool := fun x => Some (Some x).

Definition red : color := ColorRGB 255 0 0.

Definition sketch_setup : callback Z config unit :=
  fun n => Call (CallSetSize 2 2) (fun _ => Call (CallSetCellSize 2) (fun _ => Return (tt, n + 1))).

Definition sketch_construct : callback Z (call bool) (value bool) :=
  fun n => Call CallId (fun i => Return (Some (bool_decide (i = 0)), n + 1)).

Definition sketch_loop : callback Z (call bool) (value bool) :=
  fun n =>
    Call CallCell (fun _ =>
    Call (CallNeighbor RIGHT) (fun nb =>
    Call (CallBackground red) (fun _ => Return (nb, n + 1)))).

Definition sketch : Global bool Z :=
  {| setup := Some sketch_setup; construct := Some sketch_construct; loop := Some sketch_loop |}.

(** A sketch whose [construct] draws. *)
Definition drawing_construct : callback Z (call bool) (value bool) :=
  fun n => Call (CallPoint 0 0 red) (fun _ => Return (None, n + 1)).

Definition drawing_sketch : Global bool Z :=
  {| setup := Some sketch_setup; construct := Some drawing_construct; loop := None |}.

(** A sketch whose [construct] tosses a coin for every cell, as the one of
    the README does with [Math.random()]: the world is the state of the
    generator. *)
Definition coin_construct : callback Z (call bool) (value bool) :=
  fun seed => Return (Some (Z.odd seed), (seed * 5 + 3) mod 16).

Definition coin_sketch : Global bool Z :=
  {| setup := Some sketch_setup; construct := Some coin_construct; loop := Some sketch_loop |}.

(** A sketch whose [loop] reads but does not draw. *)
Definition reading_loop : callback Z (call bool) (value bool) :=
  fun n => Call CallCell (fun _ => Call (CallNeighbor RIGHT) (fun nb => Return (nb, n + 1))).

Definition reading_sketch : Global bool Z :=
  {| setup := Some sketch_setup; construct := Some sketch_construct; loop := Some reading_loop |}.

(** A sketch without [loop]. *)
Definition still_sketch : Global bool Z :=
  {| setup := Some sketch_setup; construct := Some sketch_construct; loop := None |}.

(** A sketch whose [setup] changes the frame rate. *)
Definition hasty_setup : callback Z config unit :=
  fun n => Call (CallSetSize 2 2) (fun _ => Call (CallSetFramerate 60) (fun _ => Return (tt, n + 1))).

Definition hasty_sketch : Global bool Z :=
  {| setup := Some hasty_setup; construct := Some sketch_construct; loop := Some sketch_loop |}.

Definition or_else {A} (d : A) (m : result A) : A :=
  match m with
  | Ok a => a
  | _ => d
  end.

Definition fresh : Renderer bool Z := Renderer_new 0 Browser_new.

(** After [setup], after [createAutomaton], after [start]. *)
Definition configured : Renderer bool Z :=
  Eval vm_compute in or_else fresh (run_setup sketch fresh).
Definition materialized : Renderer bool Z :=
  Eval vm_compute in or_else fresh (createAutomaton configured).
Definition started : Renderer bool Z :=
  Eval vm_compute in or_else fresh (start 5 sketch fresh).

(** After the first tick. *)
Definition ticked : Renderer bool Z :=
  Eval vm_compute in or_else fresh (onRender 5 sketch started).

(** The first tick when it reaches cell 1, and the cursor on cell 1. *)
Definition at_cell_1 : Renderer bool Z :=
  Eval vm_compute in or_else fresh (scan_upto sketch_loop 1 started).
Definition on_cell_1 : Renderer bool Z :=
  Eval vm_compute in or_else fresh (bind_cell 1 at_cell_1).

(** The cursor on cell 0 at the start of the first tick. *)
Definition on_cell_0 : Renderer bool Z :=
  Eval vm_compute in or_else fresh (bind_cell 0 started).

(** The construction pass of [drawing_sketch] on cell 0. *)
Definition constructing_0 : Renderer bool Z :=
  Eval vm_compute in set_current None (Some 0) materialized.

(** The renderers after [start] of the other sketches. *)
Definition still_started : Renderer bool Z :=
  Eval vm_compute in or_else fresh (start 5 still_sketch fresh).
Definition coin_started : Renderer bool Z :=
  Eval vm_compute in or_else fresh (start 5 coin_sketch fresh).

(** The construction pass of [coin_sketch] when it reaches cell 2. *)
Definition coin_at_2 : Renderer bool Z :=
  Eval vm_compute in or_else fresh (build_upto coin_construct 2 materialized).

(** A second [start] on the running renderer, with [sketch] and with
    [hasty_sketch]. *)
Definition restarted : Renderer bool Z :=
  Eval vm_compute in or_else fresh (start 5 sketch started).
Definition hastened : Renderer bool Z :=
  Eval vm_compute in or_else fresh (start 5 hasty_sketch started).

(** [restarted] after [stop] and one more firing of the timer that is
    left. *)
Definition ticked_on : Renderer bool Z :=
  Eval vm_compute in or_else fresh (onRender 5 sketch (stop restarted)).

(** The neighbourhood of cell 0 in buffer 0. *)
Definition neighbours_of_0 : list (option ref) :=
  Eval vm_compute in default [] (deref started (Ref 0 0) ≫= neighborhood).

(** The cursor moved from cell 0 to cell 1 by hand. *)
Definition moved_to_1 : Renderer bool Z :=
  Eval vm_compute in set_current (Some (Ref 0 1)) (Some 1) on_cell_0.

(** [started] after [setFramerate 10]. *)
Definition retimed : Renderer bool Z :=
  Eval vm_compute in setFramerate 10 started.

(** Configurations on which no automaton can be created: a parent that the
    page does not have, cells of size 0, cells of negative size. *)
Definition orphan : Renderer bool Z :=
  Eval vm_compute in or_else fresh (setParent (Some "board"%string) configured).
Definition flat : Renderer bool Z :=
  Eval vm_compute in or_else fresh (setCellSize 0 configured).
Definition inverted : Renderer bool Z :=
  Eval vm_compute in or_else fresh (setCellSize (-1) configured).

End Example.

Section Properties.

Context {St W : Type} {codec : Codec St} {util : Util}.

(** * Properties *)

(** ** Arrays and record updates *)

Lemma arr_get_of_nat {A} (a : list A) (k : nat) : arr_get a (Z.of_nat k) = a !! k.
Proof.
  unfold arr_get. destruct (decide (0 <= Z.of_nat k)); [|lia].
  by rewrite Nat2Z.id.
Qed.

Lemma arr_get_Some {A} (a : list A) (i : Z) (x : A) :
  arr_get a i = Some x <-> 0 <= i /\ a !! Z.to_nat i = Some x.
Proof.
  unfold arr_get. destruct (decide (0 <= i)); [tauto|]. split; [done|]. intros [? _]. lia.
Qed.

Lemma arr_get_inside {A} (a : list A) (i : Z) :
  0 <= i < Z.of_nat (length a) -> exists x, arr_get a i = Some x.
Proof.
  intros Hi. destruct (lookup_lt_is_Some_2 a (Z.to_nat i)) as [x Hx]; [lia|].
  exists x. apply arr_get_Some. split; [lia|done].
Qed.

Lemma arr_get_outside {A} (a : list A) (i : Z) :
  i < 0 \/ Z.of_nat (length a) <= i -> arr_get a i = None.
Proof.
  intros Hi. unfold arr_get. destruct (decide (0 <= i)); [|done].
  apply lookup_ge_None_2. lia.
Qed.

Lemma arr_alter_inside {A} (f : A -> A) (a : list A) (i : Z) :
  0 <= i -> arr_alter f a i = alter f (Z.to_nat i) a.
Proof. intros Hi. unfold arr_alter. by destruct (decide (0 <= i)). Qed.

Lemma set_cells_id (R : Renderer St W) : set_cells (cells R) R = R.
Proof. by destruct R. Qed.

Lemma set_cells_twice (a b : list (list (slot St))) (R : Renderer St W) :
  set_cells a (set_cells b R) = set_cells a R.
Proof. done. Qed.

Lemma set_image_id (R : Renderer St W) : set_image (image R) R = R.
Proof. by destruct R. Qed.

Lemma set_world_id (R : Renderer St W) : set_world (world R) R = R.
Proof. by destruct R. Qed.

(** ** The heap of cell objects *)

Lemma cells_ref_Some (R : Renderer St W) (b i : Z) (c : ref) :
  cells_ref R b i = Ok (Some c) -> c = Ref b i /\ exists sl, deref R c = Some sl.
Proof.
  unfold cells_ref, deref. destruct (arr_get (cells R) b) as [buf|] eqn:Hb; [|done].
  intros [= Hc]. destruct (arr_get buf i) as [sl|] eqn:Hi; [|done].
  simpl in Hc. injection Hc as <-. split; [done|]. exists sl. simpl. by rewrite Hb.
Qed.

Lemma cells_ref_two (R : Renderer St W) (buf0 buf1 : list (slot St)) (b i : Z) :
  cells R = [buf0; buf1] ->
  b = 0 \/ b = 1 ->
  0 <= i < Z.of_nat (length buf0) -> length buf1 = length buf0 ->
  cells_ref R b i = Ok (Some (Ref b i)).
Proof.
  intros Hc Hb Hi Hlen. unfold cells_ref. rewrite Hc.
  destruct Hb as [-> | ->]; simpl.
  - destruct (arr_get_inside buf0 i) as [x ->]; [lia|done].
  - destruct (arr_get_inside buf1 i) as [x ->]; [lia|done].
Qed.

Lemma deref_two (R : Renderer St W) (buf0 buf1 : list (slot St)) (b i : Z) :
  cells R = [buf0; buf1] ->
  deref R (Ref b i) =
    if decide (b = 0) then arr_get buf0 i
    else if decide (b = 1) then arr_get buf1 i else None.
Proof.
  intros Hc. unfold deref. rewrite Hc. simpl.
  destruct (decide (b = 0)) as [-> | H0]; [reflexivity|].
  destruct (decide (b = 1)) as [-> | H1]; [reflexivity|].
  rewrite (arr_get_outside [buf0; buf1] b); [reflexivity|].
  simpl. lia.
Qed.

Lemma assign_at_two (f : slot St -> slot St) (R : Renderer St W) (buf0 buf1 : list (slot St)) (b i : Z) :
  cells R = [buf0; buf1] ->
  b = 0 \/ b = 1 ->
  0 <= i < Z.of_nat (length buf0) -> length buf1 = length buf0 ->
  assign_at f b i R =
    Ok (set_cells (if decide (b = 0) then [alter f (Z.to_nat i) buf0; buf1]
                   else [buf0; alter f (Z.to_nat i) buf1]) R).
Proof.
  intros Hc Hb Hi Hlen. unfold assign_at.
  rewrite (cells_ref_two R buf0 buf1) by done. simpl.
  unfold assign. simpl. rewrite Hc.
  destruct Hb as [-> | ->]; unfold arr_alter; simpl;
    (destruct (decide (0 <= i)); [reflexivity|lia]).
Qed.

(** ** Topology *)

Lemma grid_index_inside (w h x y : Z) :
  0 <= x < w -> 0 <= y < h -> 0 <= x + y * w < w * h.
Proof. intros Hx Hy. nia. Qed.

Lemma grid_index_coords (w x y : Z) :
  0 <= x < w -> 0 <= y -> Z.rem (x + y * w) w = x /\ (x + y * w) / w = y.
Proof.
  intros Hx Hy. rewrite Z.rem_mod_nonneg by nia. split.
  - rewrite Z_mod_plus_full. apply Z.mod_small. lia.
  - rewrite Z_div_plus_full by lia. rewrite Z.div_small by lia. lia.
Qed.

Lemma index_coords_inside (w h i : Z) :
  0 < w -> 0 <= i < w * h ->
  0 <= Z.rem i w < w /\ 0 <= i / w < h /\ i = Z.rem i w + (i / w) * w.
Proof.
  intros Hw Hi. rewrite Z.rem_mod_nonneg by lia.
  pose proof (Z.mod_pos_bound i w Hw). pose proof (Z.div_mod i w ltac:(lia)).
  assert (0 <= i / w) by (apply Z.div_pos; lia).
  assert (i / w < h) by (apply Z.div_lt_upper_bound; lia).
  lia.
Qed.

Lemma neighbor_entry_outside (w h b x y : Z) (d : Z * Z) :
  x + d.1 < 0 \/ x + d.1 >= w \/ y + d.2 < 0 \/ y + d.2 >= h ->
  neighbor_entry w h b x y d = None.
Proof. intros Hout. unfold neighbor_entry. by destruct (decide _). Qed.

Lemma neighbor_entry_inside (w h b x y : Z) (d : Z * Z) :
  0 <= x + d.1 < w -> 0 <= y + d.2 < h ->
  neighbor_entry w h b x y d = Some (Ref b (x + d.1 + (y + d.2) * w)).
Proof. intros Hx Hy. unfold neighbor_entry. destruct (decide _); [lia|done]. Qed.

Lemma push_neighbor_all (R : Renderer St W) (buf0 buf1 : list (slot St)) (x y : Z)
    (ds : list (Z * Z)) (n0 n1 : list (option ref)) :
  cells R = [buf0; buf1] ->
  length buf0 = Z.to_nat (cellCount R) -> length buf1 = Z.to_nat (cellCount R) ->
  foldl (push_neighbor R x y) (Ok (n0, n1)) ds =
    Ok (n0 ++ (neighbor_entry (width R) (height R) 0 x y <$> ds),
        n1 ++ (neighbor_entry (width R) (height R) 1 x y <$> ds)).
Proof.
  intros Hc H0 H1. revert n0 n1.
  induction ds as [|d ds IH]; intros n0 n1.
  - simpl. by rewrite !app_nil_r.
  - rewrite !fmap_cons. cbn [foldl]. unfold push_neighbor at 2. cbn [mbind result_bind].
    destruct (decide (x + d.1 < 0 \/ x + d.1 >= width R \/ y + d.2 < 0 \/ y + d.2 >= height R))
      as [Hout | Hin].
    + rewrite IH, !neighbor_entry_outside by done. by rewrite <- !app_assoc.
    + assert (0 <= x + d.1 + (y + d.2) * width R < cellCount R)
        by (apply grid_index_inside; lia).
      rewrite !(cells_ref_two R buf0 buf1) by (auto; lia). cbn [mbind result_bind].
      rewrite IH, !neighbor_entry_inside by lia. by rewrite <- !app_assoc.
Qed.

Lemma computeNeighborhood_topology (R : Renderer St W) (buf0 buf1 : list (slot St)) (x y : Z) :
  cells R = [buf0; buf1] ->
  length buf0 = Z.to_nat (cellCount R) -> length buf1 = Z.to_nat (cellCount R) ->
  computeNeighborhood R x y =
    Ok (topology (width R) (height R) 0 x y, topology (width R) (height R) 1 x y).
Proof.
  intros Hc H0 H1. unfold computeNeighborhood.
  by rewrite (push_neighbor_all R buf0 buf1).
Qed.

Lemma topology_length (w h b x y : Z) : length (topology w h b x y) = 8%nat.
Proof. done. Qed.

Lemma topology_lookup (w h b x y : Z) (k : nat) (d : Z * Z) :
  offsets !! k = Some d ->
  topology w h b x y !! k = Some (neighbor_entry w h b x y d).
Proof. intros Hk. unfold topology. by rewrite list_lookup_fmap, Hk. Qed.

(** Every reference of a neighbourhood stays in the buffer of its cell and
    inside the grid. *)
Lemma topology_same_buffer (w h b x y : Z) (k : nat) (c : ref) :
  topology w h b x y !! k = Some (Some c) ->
  ref_buf c = b /\ 0 <= ref_idx c < w * h.
Proof.
  unfold topology. rewrite list_lookup_fmap.
  destruct (offsets !! k) as [d|]; [|done]. simpl. unfold neighbor_entry.
  destruct (decide _) as [|Hin]; [done|]. intros [= <-]. simpl. split; [done|].
  apply grid_index_inside; lia.
Qed.

(** ** [createAutomaton] *)

Lemma half_linked_length (w h size b k n : Z) :
  length (half_linked St w h size b k n) = Z.to_nat n.
Proof. unfold half_linked. by rewrite length_fmap, length_seqZ. Qed.

Lemma half_linked_lookup (w h size b k n : Z) (j : nat) :
  Z.of_nat j < n ->
  half_linked St w h size b k n !! j =
    Some (if decide (Z.of_nat j < k) then linked_slot w h size b (Z.of_nat j) None else blank).
Proof.
  intros Hj. unfold half_linked. rewrite list_lookup_fmap, lookup_seqZ_lt by done.
  simpl. done.
Qed.

Lemma half_linked_none (w h size b n : Z) :
  half_linked St w h size b 0 n = replicate (Z.to_nat n) blank.
Proof.
  apply list_eq. intros j. destruct (decide (Z.of_nat j < n)) as [Hj|Hj].
  - rewrite half_linked_lookup by done. rewrite lookup_replicate_2 by lia.
    destruct (decide _); [lia|done].
  - rewrite !lookup_ge_None_2; [done| |].
    + rewrite length_replicate. lia.
    + rewrite half_linked_length. lia.
Qed.

Lemma half_linked_all (w h size b n : Z) :
  half_linked St w h size b n n = linked_buf w h size b (replicate (Z.to_nat n) None).
Proof.
  apply list_eq. intros j. unfold linked_buf. rewrite list_lookup_imap.
  destruct (decide (Z.of_nat j < n)) as [Hj|Hj].
  - rewrite half_linked_lookup by done. rewrite lookup_replicate_2 by lia.
    destruct (decide _); [done|lia].
  - rewrite !lookup_ge_None_2; [done| |].
    + rewrite length_replicate. lia.
    + rewrite half_linked_length. lia.
Qed.

Lemma half_linked_alter (w h size b k n : Z) :
  0 <= k < n ->
  alter (with_pos (cell_pos size w (Z.rem k w) (k / w))) (Z.to_nat k)
    (alter (with_neighborhood (topology w h b (Z.rem k w) (k / w))) (Z.to_nat k)
       (half_linked St w h size b k n))
  = half_linked St w h size b (k + 1) n.
Proof.
  intros Hk. apply list_eq. intros j.
  destruct (decide (Z.of_nat j < n)) as [Hj|Hj].
  - rewrite (half_linked_lookup _ _ _ _ (k + 1)) by done.
    destruct (decide (j = Z.to_nat k)) as [->|Hne].
    + rewrite !list_lookup_alter_eq, half_linked_lookup by done.
      rewrite Z2Nat.id by lia. simpl.
      destruct (decide (k < k)); [lia|]. destruct (decide (k < k + 1)); [done|lia].
    + rewrite !list_lookup_alter_ne, half_linked_lookup by done.
      destruct (decide (Z.of_nat j < k)), (decide (Z.of_nat j < k + 1)); try done; lia.
  - rewrite !lookup_ge_None_2; [done| |].
    + rewrite half_linked_length. lia.
    + rewrite !length_alter, half_linked_length. lia.
Qed.

Lemma link_cell_step (R : Renderer St W) (k : Z) :
  0 <= k < cellCount R -> 0 <= cellSize R ->
  cells R = [half_linked St (width R) (height R) (cellSize R) 0 k (cellCount R);
             half_linked St (width R) (height R) (cellSize R) 1 k (cellCount R)] ->
  link_cell (Ok R) k =
    Ok (set_cells [half_linked St (width R) (height R) (cellSize R) 0 (k + 1) (cellCount R);
                   half_linked St (width R) (height R) (cellSize R) 1 (k + 1) (cellCount R)] R).
Proof.
  intros Hk Hs Hc. unfold link_cell. cbn [mbind result_bind].
  rewrite (computeNeighborhood_topology R _ _ _ _ Hc) by apply half_linked_length.
  cbn [mbind result_bind]. destruct (decide (cellSize R < 0)); [lia|].
  rewrite (assign_at_two _ R _ _ 0 k Hc) by (rewrite ?half_linked_length; auto; lia).
  cbn [mbind result_bind]. simpl decide. cbv iota.
  erewrite (assign_at_two _ _ _ _ 1 k);
    [|reflexivity|auto|rewrite length_alter, half_linked_length; lia
     |by rewrite length_alter, !half_linked_length].
  cbn [mbind result_bind]. simpl decide. cbv iota.
  erewrite (assign_at_two _ _ _ _ 0 k);
    [|reflexivity|auto|rewrite length_alter, half_linked_length; lia
     |by rewrite !length_alter, !half_linked_length].
  cbn [mbind result_bind]. simpl decide. cbv iota.
  erewrite (assign_at_two _ _ _ _ 1 k);
    [|reflexivity|auto|rewrite !length_alter, half_linked_length; lia
     |by rewrite !length_alter, !half_linked_length].
  simpl decide. cbv iota. rewrite !set_cells_twice.
  cbn [width height cellSize set_cells].
  by rewrite !half_linked_alter by done.
Qed.

Lemma link_cell_prefix (R : Renderer St W) (k : nat) :
  Z.of_nat k <= cellCount R -> 0 <= cellSize R ->
  cells R = [replicate (Z.to_nat (cellCount R)) blank;
             replicate (Z.to_nat (cellCount R)) blank] ->
  foldl link_cell (Ok R) (seqZ 0 (Z.of_nat k)) =
    Ok (set_cells [half_linked St (width R) (height R) (cellSize R) 0 (Z.of_nat k) (cellCount R);
                   half_linked St (width R) (height R) (cellSize R) 1 (Z.of_nat k) (cellCount R)] R).
Proof.
  intros Hk Hs Hc. induction k as [|k IH].
  - simpl. rewrite !half_linked_none, <- Hc. by rewrite set_cells_id.
  - rewrite seqZ_S, foldl_app, IH by lia. cbn [foldl]. rewrite Z.add_0_l.
    rewrite link_cell_step;
      [|unfold cellCount in *; cbn [width height set_cells]; lia|done|done].
    rewrite set_cells_twice. cbn [width height cellSize set_cells cellCount].
    unfold cellCount. cbn [width height set_cells].
    by replace (Z.of_nat (S k)) with (Z.of_nat k + 1) by lia.
Qed.

Lemma appendCanvas_mountable (R : Renderer St W) :
  mountable R -> appendCanvas (parentId R) (browser R) = Ok (mounted_page R).
Proof. unfold mountable, appendCanvas. by intros ->. Qed.

Lemma canvas_dim_positive (dflt v : Z) : 0 < v -> canvas_dim dflt v = v.
Proof. intros Hv. unfold canvas_dim. destruct (decide (v < 0)); [lia|done]. Qed.

(** [createAutomaton] returns on a grid of positive size with a positive
    cell size and a parent for the canvas, with both buffers linked and
    every state null. *)
Lemma createAutomaton_linked (R : Renderer St W) :
  0 < width R -> 0 < height R -> 0 < cellSize R -> mountable R ->
  createAutomaton R =
    Ok (set_cells
          [linked_buf (width R) (height R) (cellSize R) 0 (replicate (Z.to_nat (cellCount R)) None);
           linked_buf (width R) (height R) (cellSize R) 1 (replicate (Z.to_nat (cellCount R)) None)]
          (set_canvas (width R * cellSize R) (height R * cellSize R) (mounted_page R) R)).
Proof.
  intros Hw Hh Hs Hm. unfold createAutomaton.
  rewrite appendCanvas_mountable by done. cbn [mbind result_bind].
  rewrite !canvas_dim_positive by nia.
  destruct (decide _) as [Hz|_]; [nia|]. destruct (decide _) as [Hz|_]; [nia|].
  set (R1 := set_canvas _ _ _ R).
  assert (Hn : 0 <= cellCount R) by (unfold cellCount; nia).
  replace (width R * height R) with (Z.of_nat (Z.to_nat (cellCount R)))
    by (rewrite Z2Nat.id by done; done).
  rewrite (link_cell_prefix R1); [| |cbn; lia|done].
  - cbn [width height cellSize R1 set_canvas]. unfold cellCount at 1 3.
    cbn [width height cellSize R1 set_canvas].
    rewrite Z2Nat.id by done. fold (cellCount R). by rewrite !half_linked_all.
  - unfold cellCount. cbn [width height R1 set_canvas]. fold (cellCount R). lia.
Qed.

(** Where [createAutomaton] throws. *)
Lemma foldl_link_cell_failed (e : error) (l : list Z) :
  foldl (@link_cell St W) (Throw e) l = Throw e.
Proof. by induction l. Qed.

Lemma foldl_link_cell_fuel (l : list Z) :
  foldl (@link_cell St W) OutOfFuel l = OutOfFuel.
Proof. by induction l. Qed.

Lemma createAutomaton_no_parent (R : Renderer St W) :
  ~ mountable R -> createAutomaton R = Throw TypeError.
Proof.
  unfold mountable, createAutomaton, appendCanvas.
  by destruct (has_parent (parentId R) (browser R)).
Qed.

Lemma createAutomaton_empty_canvas (R : Renderer St W) :
  mountable R -> width R * cellSize R = 0 \/ height R * cellSize R = 0 ->
  createAutomaton R = Throw IndexSizeError.
Proof.
  intros Hm Hz. unfold createAutomaton. rewrite appendCanvas_mountable by done.
  cbn [mbind result_bind]. destruct (decide _) as [_|Hnz]; [done|].
  exfalso. apply Hnz. unfold canvas_dim.
  destruct Hz as [Hz|Hz]; rewrite Hz; [left|right]; by destruct (decide (0 < 0)).
Qed.

Lemma createAutomaton_negative_size (R : Renderer St W) :
  mountable R -> 0 < width R -> 0 < height R -> cellSize R < 0 ->
  createAutomaton R = Throw RangeError.
Proof.
  intros Hm Hw Hh Hs. unfold createAutomaton. rewrite appendCanvas_mountable by done.
  cbn [mbind result_bind].
  assert (Hcw : canvas_dim 300 (width R * cellSize R) = 300)
    by (unfold canvas_dim; destruct (decide _); [done|nia]).
  assert (Hch : canvas_dim 150 (height R * cellSize R) = 150)
    by (unfold canvas_dim; destruct (decide _); [done|nia]).
  rewrite Hcw, Hch. destruct (decide _) as [Hz|_]; [lia|].
  destruct (decide _) as [Hz|_]; [nia|].
  rewrite (seqZ_cons 0) by nia. cbn [foldl].
  set (R1 := set_canvas _ _ _ R). unfold link_cell at 2. cbn [mbind result_bind].
  rewrite (computeNeighborhood_topology R1 (replicate (Z.to_nat (cellCount R)) blank)
             (replicate (Z.to_nat (cellCount R)) blank)); [|done|apply length_replicate..].
  cbn [mbind result_bind cellSize R1 set_canvas].
  destruct (decide (cellSize R < 0)); [|lia]. apply foldl_link_cell_failed.
Qed.

Lemma createAutomaton_negative_grid (R : Renderer St W) :
  mountable R -> width R * height R < 0 -> cellSize R <> 0 ->
  createAutomaton R = Throw RangeError.
Proof.
  intros Hm Hn Hs. unfold createAutomaton. rewrite appendCanvas_mountable by done.
  cbn [mbind result_bind].
  destruct (decide _) as [Hz|_].
  - exfalso. unfold canvas_dim in Hz.
    destruct (decide (width R * cellSize R < 0)), (decide (height R * cellSize R < 0)); nia.
  - by destruct (decide _).
Qed.

(** When [createAutomaton] returns, the canvas had a parent, the cell size
    is positive and the grid is not empty. *)
Lemma createAutomaton_Ok_inv (R R' : Renderer St W) :
  createAutomaton R = Ok R' ->
  mountable R /\ 0 < cellSize R /\ 0 < width R * height R.
Proof.
  intros Hok.
  assert (mountable R \/ ~ mountable R) as [Hm|Hm]
    by (unfold mountable; destruct (has_parent _ _); [by left|by right]);
    [|by rewrite createAutomaton_no_parent in Hok].
  split; [done|].
  destruct (decide (width R * cellSize R = 0 \/ height R * cellSize R = 0)) as [Hz|Hz];
    [by rewrite createAutomaton_empty_canvas in Hok|].
  destruct (decide (width R * height R < 0)) as [Hn|Hn];
    [rewrite createAutomaton_negative_grid in Hok; [done|done|done|nia]|].
  assert (Hpos : 0 < width R * height R) by nia. split; [|done].
  destruct (decide (cellSize R < 0)) as [Hs|Hs]; [|nia]. exfalso.
  revert Hok. unfold createAutomaton. rewrite appendCanvas_mountable by done.
  cbn [mbind result_bind]. destruct (decide _) as [|_]; [done|].
  destruct (decide _) as [|_]; [done|].
  rewrite (seqZ_cons 0) by lia. cbn [foldl].
  set (R1 := set_canvas _ _ _ R). unfold link_cell at 2. cbn [mbind result_bind].
  destruct (computeNeighborhood R1 _ _) as [[n0 n1]|e|]; cbn [mbind result_bind].
  - cbn [cellSize R1 set_canvas].
    destruct (decide (cellSize R < 0)); [|lia]. by rewrite foldl_link_cell_failed.
  - by rewrite foldl_link_cell_failed.
  - by rewrite foldl_link_cell_fuel.
Qed.
(** ** Reading a linked heap *)

Lemma arr_get_imap {A B} (f : nat -> A -> B) (a : list A) (i : Z) :
  arr_get (imap f a) i = f (Z.to_nat i) <$> arr_get a i.
Proof.
  unfold arr_get. destruct (decide (0 <= i)); [|done]. apply list_lookup_imap.
Qed.

Lemma linked_buf_length (w h size b : Z) (xs : list (value St)) :
  length (linked_buf w h size b xs) = length xs.
Proof. apply length_imap. Qed.

Lemma arr_get_linked (w h size b i : Z) (xs : list (value St)) :
  arr_get (linked_buf w h size b xs) i = linked_slot w h size b i <$> arr_get xs i.
Proof.
  unfold linked_buf. rewrite arr_get_imap. unfold arr_get.
  destruct (decide (0 <= i)); [|done]. by rewrite Z2Nat.id by done.
Qed.

Lemma linked_buf_cells (w h size b : Z) (xs : list (value St)) :
  cell <$> linked_buf w h size b xs = xs.
Proof.
  apply list_eq. intros j. unfold linked_buf.
  rewrite list_lookup_fmap, list_lookup_imap. by destruct (xs !! j).
Qed.

Lemma linked_buf_alter (w h size b : Z) (xs : list (value St)) (k : nat) (x : value St) :
  alter (with_cell x) k (linked_buf w h size b xs) = linked_buf w h size b (<[k := x]> xs).
Proof.
  apply list_eq. intros j. unfold linked_buf. rewrite list_lookup_imap.
  destruct (decide (j = k)) as [->|Hne].
  - rewrite list_lookup_alter_eq, list_lookup_imap.
    destruct (decide (k < length xs)%nat) as [Hk|Hk].
    + rewrite list_lookup_insert_eq by done.
      destruct (lookup_lt_is_Some_2 xs k Hk) as [x' ->]. done.
    + rewrite list_insert_ge by lia. rewrite lookup_ge_None_2 by lia. done.
  - rewrite list_lookup_alter_ne, list_lookup_imap by done.
    by rewrite list_lookup_insert_ne by done.
Qed.

Lemma deref_linked (R : Renderer St W) (xs0 xs1 : list (value St)) (b i : Z) :
  cells R = [linked_buf (width R) (height R) (cellSize R) 0 xs0;
             linked_buf (width R) (height R) (cellSize R) 1 xs1] ->
  b = 0 \/ b = 1 ->
  deref R (Ref b i) =
    linked_slot (width R) (height R) (cellSize R) b i
      <$> arr_get (if decide (b = 0) then xs0 else xs1) i.
Proof.
  intros Hc Hb. rewrite (deref_two R _ _ b i Hc).
  destruct Hb as [-> | ->]; simpl; apply arr_get_linked.
Qed.

Lemma generation_linked (R : Renderer St W) (xs0 xs1 : list (value St)) (b : Z) :
  cells R = [linked_buf (width R) (height R) (cellSize R) 0 xs0;
             linked_buf (width R) (height R) (cellSize R) 1 xs1] ->
  b = 0 \/ b = 1 ->
  generation R b = if decide (b = 0) then xs0 else xs1.
Proof.
  intros Hc Hb. unfold generation. rewrite Hc.
  destruct Hb as [-> | ->]; simpl; apply linked_buf_cells.
Qed.

(** In a created renderer every cell object of either buffer is linked and
    holds the state that [generation] lists for it. *)
Lemma created_deref (R : Renderer St W) (b i : Z) :
  created R -> b = 0 \/ b = 1 -> 0 <= i < cellCount R ->
  exists x, arr_get (generation R b) i = Some x /\
            deref R (Ref b i) = Some (linked_slot (width R) (height R) (cellSize R) b i x).
Proof.
  intros HR Hb Hi. destruct (created_cells R HR) as (xs0 & xs1 & H0 & H1 & Hc).
  rewrite (deref_linked R xs0 xs1 b i Hc Hb), (generation_linked R xs0 xs1 b Hc Hb).
  destruct (arr_get_inside (if decide (b = 0) then xs0 else xs1) i) as [x Hx].
  { destruct (decide (b = 0)); lia. }
  exists x. by rewrite Hx.
Qed.

Lemma createAutomaton_created (R : Renderer St W) :
  0 < width R -> 0 < height R -> 0 < cellSize R -> mountable R ->
  step R = 0 \/ step R = 1 ->
  exists R', createAutomaton R = Ok R' /\ created R' /\
    width R' = width R /\ height R' = height R /\ cellSize R' = cellSize R /\
    step R' = step R /\ currentCell R' = currentCell R /\ currentId R' = currentId R /\
    setupDone R' = setupDone R /\ interval R' = interval R /\ fps R' = fps R /\
    timers (browser R') = timers (browser R) /\
    generation R' 0 = replicate (Z.to_nat (cellCount R)) None /\
    generation R' 1 = replicate (Z.to_nat (cellCount R)) None.
Proof.
  intros Hw Hh Hs Hm Hst. eexists. split; [by apply createAutomaton_linked|].
  split; [|repeat split; try done].
  - constructor; cbn; try done; try lia.
    + by rewrite length_replicate.
    + eexists _, _. split; [|split; [|reflexivity]]; by rewrite length_replicate.
  - unfold generation. cbn. apply linked_buf_cells.
  - unfold generation. cbn. apply linked_buf_cells.
Qed.
(** ** Sequences of engine steps *)

Lemma foldl_bind_start {A} (f : A -> (Renderer St W) -> result (Renderer St W)) (l : list A)
    (m : result (Renderer St W)) :
  foldl (fun acc a => R' ← acc; f a R') m l = m ≫= chain f l.
Proof.
  revert m. induction l as [|a l IH]; intros m.
  - by destruct m.
  - cbn [foldl]. rewrite IH. destruct m as [R| |]; cbn [mbind result_bind]; [|done|done].
    unfold chain. cbn [foldl]. by rewrite IH.
Qed.

Lemma chain_nil {A} (f : A -> (Renderer St W) -> result (Renderer St W)) (R : Renderer St W) :
  chain f [] R = Ok R.
Proof. done. Qed.

Lemma chain_cons {A} (f : A -> (Renderer St W) -> result (Renderer St W)) (a : A) (l : list A) (R : Renderer St W) :
  chain f (a :: l) R = f a R ≫= chain f l.
Proof. unfold chain at 1. cbn [foldl]. by rewrite foldl_bind_start. Qed.

Lemma chain_app {A} (f : A -> (Renderer St W) -> result (Renderer St W)) (l1 l2 : list A) (R : Renderer St W) :
  chain f (l1 ++ l2) R = chain f l1 R ≫= chain f l2.
Proof. unfold chain at 1. by rewrite foldl_app, foldl_bind_start. Qed.

Lemma chain_snoc {A} (f : A -> (Renderer St W) -> result (Renderer St W)) (l : list A) (a : A) (R : Renderer St W) :
  chain f (l ++ [a]) R = chain f l R ≫= f a.
Proof.
  rewrite chain_app. destruct (chain f l R) as [R'| |]; cbn [mbind result_bind]; [|done|done].
  rewrite chain_cons. by destruct (f a R').
Qed.

(** A property kept by every step is kept by the sequence. *)
Lemma chain_invariant {A} (P : (Renderer St W) -> Prop) (f : A -> (Renderer St W) -> result (Renderer St W))
    (l : list A) (R R' : Renderer St W) :
  (forall a R1 R2, P R1 -> f a R1 = Ok R2 -> P R2) ->
  P R -> chain f l R = Ok R' -> P R'.
Proof.
  intros Hf. revert R. induction l as [|a l IH]; intros R HP.
  - intros [= <-]. done.
  - rewrite chain_cons. destruct (f a R) as [R1| |] eqn:Ha; [|done|done].
    cbn [mbind result_bind]. apply IH. by eapply Hf.
Qed.

(** The loop over the cells is the sequence of its bodies at
    [i, i + 1, ..., cellCount - 1], as long as no body changes the size of
    the grid. *)
Lemma for_cells_chain (body : Z -> (Renderer St W) -> result (Renderer St W)) (fuel : nat) (i : Z)
    (R : Renderer St W) :
  (forall j R1 R2, body j R1 = Ok R2 -> cellCount R2 = cellCount R1) ->
  (Z.to_nat (cellCount R - i) < fuel)%nat ->
  for_cells fuel body i R = chain body (seqZ i (cellCount R - i)) R.
Proof.
  intros Hbody. revert i R. induction fuel as [|fuel IH]; intros i R Hfuel; [lia|].
  cbn [for_cells]. fold (cellCount R).
  destruct (decide (i < cellCount R)) as [Hi|Hi].
  - rewrite seqZ_cons by lia. rewrite chain_cons.
    destruct (body i R) as [R1| |] eqn:Hb; [|done|done]. cbn [mbind result_bind].
    rewrite IH by (rewrite (Hbody _ _ _ Hb); lia).
    rewrite (Hbody _ _ _ Hb). f_equal. f_equal; lia.
  - by rewrite seqZ_nil by lia.
Qed.

(** ** What the callbacks of a cell leave unchanged *)

Lemma same_but_image_refl (R : Renderer St W) : same_but_image R R.
Proof. exists (image R), (world R). by rewrite set_image_id, set_world_id. Qed.

Lemma same_but_image_trans (R1 R2 R3 : Renderer St W) :
  same_but_image R1 R2 -> same_but_image R2 R3 -> same_but_image R1 R3.
Proof.
  intros (d2 & w2 & -> & H2) (d3 & w3 & -> & H3). exists d3, w3. split; [done|].
  cbn in H3. congruence.
Qed.

Lemma ta_set_length (data : list Z) (p n : option Z) :
  length (ta_set data p n) = length data.
Proof.
  unfold ta_set. destruct p as [q|]; [|done].
  destruct (decide (0 <= q)); [|done]. apply length_insert.
Qed.

Lemma setPoint_frame (x y : Z) (c : color) (R R' : Renderer St W) :
  setPoint x y c R = Ok R' -> same_but_image R R'.
Proof.
  unfold setPoint. destruct (currentCell R) as [cur|]; [|done].
  destruct (deref R cur ≫= pos) as [rows|]; [|done].
  intros [= <-]. eexists _, _. split; [symmetry; apply set_world_id|].
  by rewrite !ta_set_length.
Qed.

Lemma nested_fold_flat (f : Z -> Z -> (Renderer St W) -> result (Renderer St W)) (outer inner : list Z)
    (m : result (Renderer St W)) :
  foldl (fun acc i => foldl (fun acc j => R' ← acc; f i j R') acc inner) m outer =
  foldl (fun acc xy => R' ← acc; f xy.1 xy.2 R') m
        (i ← outer; (fun j => (i, j)) <$> inner).
Proof.
  revert m. induction outer as [|i outer IH]; intros m; [done|].
  cbn [foldl mbind list_bind]. rewrite foldl_app, IH. f_equal.
  clear IH. revert m. induction inner as [|j inner IH]; intros m; [done|].
  cbn [foldl fmap list_fmap]. by rewrite IH.
Qed.

(** [setBackground] is the sequence of its [setPoint] calls, column by column. *)
Lemma setBackground_chain (c : color) (R : Renderer St W) :
  setBackground c R =
    chain (fun xy => setPoint xy.1 xy.2 (toRgb c))
          (i ← seqZ 0 (cellSize R); (fun j => (i, j)) <$> seqZ 0 (cellSize R)) R.
Proof. unfold setBackground, chain. apply nested_fold_flat. Qed.

Lemma setBackground_frame (c : color) (R R' : Renderer St W) :
  setBackground c R = Ok R' -> same_but_image R R'.
Proof.
  rewrite setBackground_chain. apply (chain_invariant (same_but_image R)).
  - intros xy R1 R2 H1 H2. eapply same_but_image_trans; [done|]. by eapply setPoint_frame.
  - apply same_but_image_refl.
Qed.

Lemma do_call_frame {X} (e : call St X) (R R' : Renderer St W) (x : X) :
  do_call e R = Ok (x, R') -> same_but_image R R'.
Proof.
  destruct e; cbn [do_call].
  - destruct (getCell R); [|done|done]. intros [= _ <-]. apply same_but_image_refl.
  - destruct (cloneCell R); [|done|done]. intros [= _ <-]. apply same_but_image_refl.
  - destruct (getNeighbor index R); [|done|done]. intros [= _ <-]. apply same_but_image_refl.
  - destruct (getId R); [|done|done]. intros [= _ <-]. apply same_but_image_refl.
  - destruct (setPoint x0 y c R) eqn:H; [|done|done]. cbn [mbind result_bind].
    intros [= _ <-]. by eapply setPoint_frame.
  - destruct (setBackground c R) eqn:H; [|done|done]. cbn [mbind result_bind].
    intros [= _ <-]. by eapply setBackground_frame.
Qed.

Lemma run_frame {A} (p : script (call St) A) (R R' : Renderer St W) (x : A) :
  run (@do_call St W _ _) p R = Ok (x, R') -> same_but_image R R'.
Proof.
  revert R. induction p as [a| |X e k IH]; intros R; cbn [run].
  - intros [= _ <-]. apply same_but_image_refl.
  - done.
  - destruct (do_call e R) as [[y R1]| |] eqn:He; [|done|done]. cbn [mbind result_bind].
    intros Hk. eapply same_but_image_trans; [by eapply do_call_frame|by eapply IH].
Qed.

Lemma calls_at_frame {A} (p : script (call St) A) (R R' : Renderer St W) :
  calls_at (@do_call St W _ _) p R R' -> same_but_image R R'.
Proof.
  revert R. induction p as [a| |X e k IH]; intros R; cbn [calls_at]; [done|done|].
  intros [-> | Hk]; [apply same_but_image_refl|].
  destruct (do_call e R) as [[y R1]| |] eqn:He; [|done|done].
  eapply same_but_image_trans; [by eapply do_call_frame|by eapply IH].
Qed.

Lemma same_but_image_created (R R' : Renderer St W) :
  same_but_image R R' -> created R -> created R'.
Proof.
  intros (d & w & -> & Hd) [Hw Hh Hs Hst Him Hc].
  constructor; cbn; try done. congruence.
Qed.

Lemma same_but_image_bound (R R' : Renderer St W) (i : Z) :
  same_but_image R R' -> bound R i -> bound R' i.
Proof. intros (d & w & -> & Hd) (Hc & Hi & Hr). done. Qed.


(** A callback invoked from [R] is one run, from the world of [R]; the
    world it leaves is the only other thing that changes. *)
Lemma invoke_Ok {E : Type -> Type} {A}
    (h : forall X, E X -> Renderer St W -> result (X * Renderer St W))
    (f : callback W E A) (R R' : Renderer St W) (x : A) :
  invoke h f R = Ok (x, R') <->
  exists w R1, run h (f (world R)) R = Ok ((x, w), R1) /\ R' = set_world w R1.
Proof.
  unfold invoke. destruct (run h (f (world R)) R) as [[[y w] R1]| |]; cbn [mbind result_bind].
  - split.
    + intros [= -> <-]. by exists w, R1.
    + intros (w' & R1' & [= -> -> ->] & ->). done.
  - split; [done|]. by intros (? & ? & ? & _).
  - split; [done|]. by intros (? & ? & ? & _).
Qed.

Lemma same_but_image_world (R R' : Renderer St W) (w : W) :
  same_but_image R R' -> same_but_image R (set_world w R').
Proof. intros (d & w' & -> & Hd). by exists d, w. Qed.

Lemma invoke_frame {A} (f : callback W (call St) A) (R R' : Renderer St W) (x : A) :
  invoke (@do_call St W _ _) f R = Ok (x, R') -> same_but_image R R'.
Proof.
  intros (w & R1 & Hrun & ->)%invoke_Ok.
  apply same_but_image_world. by eapply run_frame.
Qed.
(** ** The cell context of a created renderer *)

Lemma bound_slot (R : Renderer St W) (i : Z) :
  created R -> bound R i ->
  deref R (Ref (step R) i) =
    Some (linked_slot (width R) (height R) (cellSize R) (step R) i (state_of R i)).
Proof.
  intros HR (_ & _ & Hi).
  destruct (created_deref R (step R) i HR (created_step R HR) Hi) as (x & Hx & Hd).
  unfold state_of. by rewrite Hx.
Qed.

Lemma getId_bound (R : Renderer St W) (i : Z) : bound R i -> getId R = Ok i.
Proof. intros (_ & Hi & _). unfold getId. by rewrite Hi. Qed.

Lemma getCell_bound (R : Renderer St W) (i : Z) :
  created R -> bound R i -> getCell R = Ok (state_of R i).
Proof.
  intros HR Hb. unfold getCell. rewrite (proj1 Hb), (bound_slot R i HR Hb). done.
Qed.

Lemma cloneCell_bound (R : Renderer St W) (i : Z) :
  created R -> bound R i -> cloneCell R = clone (state_of R i).
Proof.
  intros HR Hb. unfold cloneCell. rewrite (proj1 Hb), (bound_slot R i HR Hb). done.
Qed.

Lemma getNeighbor_bound (R : Renderer St W) (i k : Z) :
  created R -> bound R i -> getNeighbor k R = Ok (neighbor_state R i k).
Proof.
  intros HR Hb. unfold getNeighbor, neighbor_state.
  rewrite (proj1 Hb), (bound_slot R i HR Hb). cbn [mbind option_bind neighborhood linked_slot].
  destruct (arr_get _ k) as [[c|]|] eqn:Hk; [|done|done].
  apply arr_get_Some in Hk as [_ Hk].
  apply topology_same_buffer in Hk as [Hbuf Hidx].
  destruct c as [cb ci]. cbn in Hbuf, Hidx. subst cb.
  destruct (created_deref R (step R) ci HR (created_step R HR) Hidx) as (x & Hx & Hd).
  rewrite Hd. unfold state_of. cbn [ref_idx]. by rewrite Hx.
Qed.

Lemma setPoint_bound (x y : Z) (c : color) (R : Renderer St W) (i : Z) :
  created R -> bound R i ->
  setPoint x y c R =
    Ok (set_image (plot (image R) (point_offset (cellSize R) (width R) i x y) (toRgb c)) R).
Proof.
  intros HR Hb. unfold setPoint. rewrite (proj1 Hb), (bound_slot R i HR Hb). done.
Qed.

Lemma plot_length (data : list Z) (p : option Z) (c : color) :
  length (plot data p c) = length data.
Proof. unfold plot. by rewrite !ta_set_length. Qed.

Lemma set_image_created (data : list Z) (R : Renderer St W) :
  length data = length (image R) -> created R -> created (set_image data R).
Proof.
  intros Hd. apply same_but_image_created. exists data, (world R).
  split; [by destruct R|done].
Qed.

Lemma set_world_created (w : W) (R : Renderer St W) : created R -> created (set_world w R).
Proof. intros [Hw Hh Hs Hst Him Hc]. by constructor. Qed.

Lemma set_image_bound (data : list Z) (R : Renderer St W) (i : Z) :
  bound R i -> bound (set_image data R) i.
Proof. done. Qed.

Lemma setBackground_bound (c : color) (R : Renderer St W) (i : Z) :
  created R -> bound R i -> exists R', setBackground c R = Ok R'.
Proof.
  intros HR Hb. rewrite setBackground_chain.
  generalize (i0 ← seqZ 0 (cellSize R); (fun j => (i0, j)) <$> seqZ 0 (cellSize R)).
  intros l. revert R HR Hb. induction l as [|xy l IH]; intros R HR Hb.
  - by eexists.
  - rewrite chain_cons, (setPoint_bound _ _ _ R i HR Hb). cbn [mbind result_bind].
    apply IH; [|done]. apply set_image_created; [apply plot_length|done].
Qed.

(** While a cell is bound the only call of a callback that can fail is
    [cloneCell], on a state without a JSON round trip. *)
Lemma do_call_bound {X} (e : call St X) (R : Renderer St W) (i : Z) :
  created R -> bound R i ->
  (is_clone e = true -> forall s : St, jsonClone s <> None) ->
  exists x R', do_call e R = Ok (x, R').
Proof.
  intros HR Hb Hjson. destruct e; cbn [do_call].
  - rewrite (getCell_bound R i) by done. by eexists _, _.
  - rewrite (cloneCell_bound R i) by done. unfold clone.
    destruct (state_of R i) as [s|]; [|by eexists _, _].
    destruct (jsonClone s) as [y|] eqn:Hs; [by eexists _, _|].
    by destruct (Hjson eq_refl s).
  - rewrite (getNeighbor_bound R i) by done. by eexists _, _.
  - rewrite (getId_bound R i) by done. by eexists _, _.
  - rewrite (setPoint_bound _ _ _ R i) by done. by eexists _, _.
  - destruct (setBackground_bound c R i HR Hb) as [R' ->]. by eexists _, _.
Qed.

Lemma run_bound {A} (p : script (call St) A) (R : Renderer St W) (i : Z) :
  created R -> bound R i -> unfailing p ->
  exists x R', run (@do_call St W _ _) p R = Ok (x, R').
Proof.
  revert R. induction p as [a| |X e k IH]; intros R HR Hb Hp; cbn [run].
  - by eexists _, _.
  - done.
  - destruct Hp as [He Hk].
    destruct (do_call_bound e R i HR Hb He) as (y & R1 & Hy). rewrite Hy.
    cbn [mbind result_bind]. apply do_call_frame in Hy.
    apply IH; [by eapply same_but_image_created|by eapply same_but_image_bound|done].
Qed.

Lemma invoke_bound {A} (f : callback W (call St) A) (R : Renderer St W) (i : Z) :
  created R -> bound R i -> unfailing (f (world R)) ->
  exists x R', invoke (@do_call St W _ _) f R = Ok (x, R').
Proof.
  intros HR Hb Hf. destruct (run_bound (f (world R)) R i HR Hb Hf) as ([x w] & R1 & Hrun).
  exists x, (set_world w R1). apply invoke_Ok. by exists w, R1.
Qed.
(** ** One cell of a scan *)

Lemma scan_frame_refl (R : Renderer St W) : created R -> scan_frame R R.
Proof. intros HR. split; [exact HR|by repeat split]. Qed.

Lemma scan_frame_trans (R1 R2 R3 : Renderer St W) :
  scan_frame R1 R2 -> scan_frame R2 R3 -> scan_frame R1 R3.
Proof.
  intros (_ & Hw & Hh & Hs & Hst & Hf & Hi & Hd & Hb & Hg)
         (HR & Hw' & Hh' & Hs' & Hst' & Hf' & Hi' & Hd' & Hb' & Hg').
  rewrite Hst in Hg'. split; [exact HR|]. repeat split; congruence.
Qed.

Lemma bind_cell_created (R : Renderer St W) (i : Z) :
  created R -> 0 <= i < cellCount R ->
  bind_cell i R = Ok (set_current (Some (Ref (step R) i)) (Some i) R).
Proof.
  intros HR Hi. destruct (created_cells R HR) as (xs0 & xs1 & H0 & H1 & Hc).
  unfold bind_cell. erewrite cells_ref_two; [done|exact Hc|apply (created_step R HR)| |].
  - rewrite linked_buf_length. lia.
  - rewrite !linked_buf_length. lia.
Qed.

Lemma set_current_created (c : option ref) (i : option Z) (R : Renderer St W) :
  created R -> created (set_current c i R).
Proof. intros [Hw Hh Hs Hst Him Hc]. by constructor. Qed.

Lemma store_cell_created (R : Renderer St W) (b i : Z) (x : value St) :
  created R -> b = 0 \/ b = 1 -> 0 <= i < cellCount R ->
  exists R',
    assign_at (with_cell x) b i R = Ok R' /\ created R' /\
    R' = set_cells (cells R') R /\
    generation R' b = <[Z.to_nat i := x]> (generation R b) /\
    generation R' (1 - b) = generation R (1 - b).
Proof.
  intros HR Hb Hi. destruct (created_cells R HR) as (xs0 & xs1 & H0 & H1 & Hc).
  rewrite (assign_at_two _ R _ _ b i Hc Hb)
    by (rewrite !linked_buf_length; lia).
  eexists. split; [reflexivity|].
  destruct HR as [Hw Hh Hs Hst Him _].
  assert (Hgen : forall ys0 ys1 : list (value St),
             length ys0 = Z.to_nat (cellCount R) -> length ys1 = Z.to_nat (cellCount R) ->
             let R' := set_cells [linked_buf (width R) (height R) (cellSize R) 0 ys0;
                                  linked_buf (width R) (height R) (cellSize R) 1 ys1] R in
             created R' /\ generation R' 0 = ys0 /\ generation R' 1 = ys1).
  { intros ys0 ys1 Hy0 Hy1 R'. split; [|split].
    - constructor; try done. by exists ys0, ys1.
    - unfold generation. cbn. apply linked_buf_cells.
    - unfold generation. cbn. apply linked_buf_cells. }
  assert (Hold0 : generation R 0 = xs0) by (rewrite (generation_linked R xs0 xs1); auto).
  assert (Hold1 : generation R 1 = xs1) by (rewrite (generation_linked R xs0 xs1); auto).
  destruct Hb as [-> | ->]; (destruct (decide _) as [?|?]; [try lia|try lia]);
    rewrite !linked_buf_alter.
  - destruct (Hgen (<[Z.to_nat i := x]> xs0) xs1) as (HR' & Hg0 & Hg1);
      [by rewrite length_insert|done|].
    split; [exact HR'|]. split; [reflexivity|].
    change (1 - 0) with 1. by rewrite Hg0, Hg1, Hold0, Hold1.
  - destruct (Hgen xs0 (<[Z.to_nat i := x]> xs1)) as (HR' & Hg0 & Hg1);
      [done|by rewrite length_insert|].
    split; [exact HR'|]. split; [reflexivity|].
    change (1 - 1) with 0. by rewrite Hg0, Hg1, Hold0, Hold1.
Qed.

(** A visit that returns has run [loop] on the bound cell and stored what
    it returned in the next buffer. *)
Lemma visit_created (lp : callback W (call St) (value St)) (R R3 : Renderer St W) (i : Z) :
  created R -> 0 <= i < cellCount R ->
  visit lp i R = Ok R3 ->
  exists x R2,
    bind_cell i R = Ok (set_current (Some (Ref (step R) i)) (Some i) R) /\
    invoke (@do_call St W _ _) lp (set_current (Some (Ref (step R) i)) (Some i) R) = Ok (x, R2) /\
    scan_frame R R3 /\
    generation R3 (1 - step R) = <[Z.to_nat i := x]> (generation R (1 - step R)).
Proof.
  intros HR Hi Hv. pose proof (bind_cell_created R i HR Hi) as Hbind.
  set (Rb := set_current (Some (Ref (step R) i)) (Some i) R) in *.
  assert (HRb : created Rb) by by apply set_current_created.
  unfold visit in Hv. rewrite Hbind in Hv. cbn [mbind result_bind] in Hv.
  destruct (invoke _ lp Rb) as [[x R2]| |] eqn:Hrun; [|done|done].
  cbn [mbind result_bind] in Hv.
  pose proof (invoke_frame lp Rb R2 x Hrun) as HF.
  pose proof (same_but_image_created Rb R2 HF HRb) as HR2.
  destruct HF as (d & w & HR2eq & Hd).
  assert (Hst2 : step R2 = step R) by by rewrite HR2eq.
  assert (Hn2 : cellCount R2 = cellCount R) by by rewrite HR2eq.
  destruct (store_cell_created R2 (1 - step R2) i x HR2) as (R3' & Hst & HR3 & HR3eq & Hg & Hg').
  { rewrite Hst2. destruct (created_step R HR) as [-> | ->]; auto. }
  { by rewrite Hn2. }
  rewrite Hst in Hv. injection Hv as <-.
  exists x, R2. split; [done|]. split; [done|].
  replace (1 - (1 - step R2)) with (step R) in Hg' by lia. rewrite Hst2 in Hg.
  assert (Hgen2 : forall b, generation R2 b = generation R b) by (intros b; by rewrite HR2eq).
  rewrite !Hgen2 in *. split; [|done].
  split; [done|]. rewrite HR3eq, HR2eq. by repeat split.
Qed.

(** A visit returns when the run of [loop] cannot fail. *)
Lemma visit_returns (lp : callback W (call St) (value St)) (R : Renderer St W) (i : Z) :
  created R -> 0 <= i < cellCount R -> unfailing (lp (world R)) ->
  exists R3, visit lp i R = Ok R3.
Proof.
  intros HR Hi Hlp. pose proof (bind_cell_created R i HR Hi) as Hbind.
  set (Rb := set_current (Some (Ref (step R) i)) (Some i) R) in *.
  assert (HRb : created Rb) by by apply set_current_created.
  assert (Hb : bound Rb i) by done.
  destruct (invoke_bound lp Rb i HRb Hb Hlp) as (x & R2 & Hrun).
  pose proof (invoke_frame lp Rb R2 x Hrun) as HF.
  pose proof (same_but_image_created Rb R2 HF HRb) as HR2.
  destruct HF as (d & w & HR2eq & Hd).
  destruct (store_cell_created R2 (1 - step R2) i x HR2) as (R3 & Hst & _).
  { rewrite HR2eq. cbn. destruct (created_step R HR) as [-> | ->]; auto. }
  { by rewrite HR2eq. }
  exists R3. unfold visit. rewrite Hbind. cbn [mbind result_bind]. fold Rb. rewrite Hrun.
  cbn [mbind result_bind]. done.
Qed.

Lemma visit_cellCount (lp : callback W (call St) (value St)) (i : Z) (R R' : Renderer St W) :
  visit lp i R = Ok R' -> cellCount R' = cellCount R.
Proof.
  unfold visit, bind_cell. destruct (cells_ref R (step R) i) as [cur| |]; [|done|done].
  cbn [mbind result_bind].
  destruct (invoke _ lp _) as [[x R2]| |] eqn:Hrun; [|done|done]. cbn [mbind result_bind].
  apply invoke_frame in Hrun as (d & w & -> & _).
  unfold assign_at. destruct (cells_ref _ _ _) as [[c|]| |]; try done.
  cbn [mbind result_bind]. by intros [= <-].
Qed.

(** ** A whole scan *)

(** After the first [k] cells of a scan that has got that far, the next
    buffer holds what [loop] returned for them and the current buffer is
    as before the scan. *)
Lemma scan_upto_created (lp : callback W (call St) (value St)) (R : Renderer St W) (k : nat)
    (Rk : Renderer St W) :
  created R -> Z.of_nat k <= cellCount R ->
  scan_upto lp (Z.of_nat k) R = Ok Rk ->
  scan_frame R Rk /\
  (forall i, 0 <= i < Z.of_nat k ->
     exists x, returned_in_tick lp R i x /\
               arr_get (generation Rk (1 - step R)) i = Some x) /\
  (forall i, Z.of_nat k <= i ->
     arr_get (generation Rk (1 - step R)) i = arr_get (generation R (1 - step R)) i).
Proof.
  intros HR. revert Rk. induction k as [|k IH]; intros Rk' Hk.
  - intros [= <-]. split; [by apply scan_frame_refl|]. split; [intros; lia|done].
  - unfold scan_upto. rewrite seqZ_S, chain_snoc, Z.add_0_l.
    destruct (chain (visit lp) (seqZ 0 (Z.of_nat k)) R) as [Rk| |] eqn:Hscan; [|done|done].
    cbn [mbind result_bind]. intros Hv.
    destruct (IH Rk) as (HF & Hlow & Hhigh); [lia|done|].
    pose proof HF as (HRk & Hw & Hh & _ & Hst & _).
    assert (Hn : cellCount Rk = cellCount R) by (unfold cellCount; congruence).
    destruct (visit_created lp Rk Rk' (Z.of_nat k) HRk) as (x & R2 & Hb & Hrun & HF3 & Hg);
      [lia|done|].
    split; [by eapply scan_frame_trans|].
    rewrite Hst in Hg. split.
    + intros i Hi. destruct (decide (i = Z.of_nat k)) as [->|Hne].
      * exists x. split; [eexists Rk, _, R2; split; [exact Hscan|split; [exact Hb|exact Hrun]]|].
        rewrite Hg. apply arr_get_Some. split; [lia|]. rewrite Nat2Z.id.
        apply list_lookup_insert_eq.
        destruct (created_cells Rk HRk) as (xs0 & xs1 & H0 & H1 & Hc).
        rewrite (generation_linked Rk xs0 xs1) by
          (try done; destruct (created_step R HR) as [-> | ->]; auto).
        destruct (decide _); lia.
      * destruct (Hlow i) as (y & Hy & Hget); [lia|]. exists y. split; [done|].
        rewrite Hg. apply arr_get_Some in Hget as [? Hget]. apply arr_get_Some.
        split; [done|]. rewrite list_lookup_insert_ne by lia. done.
    + intros i Hi. rewrite <- Hhigh by lia. rewrite Hg.
      unfold arr_get. destruct (decide (0 <= i)); [|done].
      by rewrite list_lookup_insert_ne by lia.
Qed.

(** A scan whose runs of [loop] cannot fail gets as far as one likes. *)
Lemma scan_upto_returns (lp : callback W (call St) (value St)) (R : Renderer St W) (k : nat) :
  created R -> Z.of_nat k <= cellCount R -> (forall w, unfailing (lp w)) ->
  exists Rk, scan_upto lp (Z.of_nat k) R = Ok Rk.
Proof.
  intros HR Hk Hlp. induction k as [|k IH].
  - by exists R.
  - destruct IH as (Rk & Hscan); [lia|].
    destruct (scan_upto_created lp R k Rk HR ltac:(lia) Hscan) as ((HRk & Hw & Hh & _) & _).
    assert (Hn : cellCount Rk = cellCount R) by (unfold cellCount; congruence).
    destruct (visit_returns lp Rk (Z.of_nat k) HRk) as (R3 & Hv); [lia|done|].
    exists R3. unfold scan_upto in *. rewrite seqZ_S, chain_snoc, Hscan. cbn [mbind result_bind].
    by rewrite Z.add_0_l.
Qed.
(** ** [onRender] *)

Lemma generation_deref (R : Renderer St W) (b i : Z) :
  arr_get (generation R b) i = cell <$> deref R (Ref b i).
Proof.
  unfold generation, deref. cbn [ref_buf ref_idx].
  destruct (arr_get (cells R) b) as [buf|]; cbn [mbind option_bind].
  - unfold arr_get. destruct (decide (0 <= i)); [|done]. apply list_lookup_fmap.
  - unfold arr_get. destruct (decide (0 <= i)); done.
Qed.

Lemma onRender_chain (G : Global St W) (lp : callback W (call St) (value St)) (fuel : nat) (R : Renderer St W) :
  loop G = Some lp -> (Z.to_nat (cellCount R) < fuel)%nat ->
  onRender fuel G R = R' ← scan_upto lp (cellCount R) R; Ok (finish R').
Proof.
  intros Hlp Hfuel. unfold onRender. rewrite Hlp.
  rewrite for_cells_chain; [|apply visit_cellCount|lia].
  by rewrite Z.sub_0_r.
Qed.

Lemma finish_created (R : Renderer St W) : created R -> created (finish R).
Proof.
  intros [Hw Hh Hs Hst Him Hc]. constructor; cbn; try done. lia.
Qed.

(** A tick that returns has scanned every cell and finished. *)
Lemma onRender_created (G : Global St W) (lp : callback W (call St) (value St)) (fuel : nat)
    (R R' : Renderer St W) :
  loop G = Some lp -> created R -> (Z.to_nat (cellCount R) < fuel)%nat ->
  onRender fuel G R = Ok R' ->
  exists Rn,
    scan_upto lp (cellCount R) R = Ok Rn /\
    R' = finish Rn /\
    scan_frame R Rn /\
    (forall i, 0 <= i < cellCount R ->
       exists x, returned_in_tick lp R i x /\
                 arr_get (generation Rn (1 - step R)) i = Some x).
Proof.
  intros Hlp HR Hfuel. rewrite (onRender_chain G lp) by done.
  destruct (scan_upto lp (cellCount R) R) as [Rn| |] eqn:Hscan; [|done|done].
  cbn [mbind result_bind]. intros [= <-].
  assert (Hn : 0 <= cellCount R)
    by (unfold cellCount; pose proof (created_width R HR); pose proof (created_height R HR); nia).
  rewrite <- (Z2Nat.id (cellCount R)) in Hscan by done.
  destruct (scan_upto_created lp R (Z.to_nat (cellCount R)) Rn HR) as (HF & Hlow & _);
    [lia|done|].
  rewrite Z2Nat.id in Hscan, Hlow by done.
  by exists Rn.
Qed.

(** A tick returns when the runs of [loop] cannot fail. *)
Lemma onRender_returns (G : Global St W) (lp : callback W (call St) (value St)) (fuel : nat)
    (R : Renderer St W) :
  loop G = Some lp -> created R -> (Z.to_nat (cellCount R) < fuel)%nat ->
  (forall w, unfailing (lp w)) ->
  exists R', onRender fuel G R = Ok R'.
Proof.
  intros Hlp HR Hfuel Hsafe.
  assert (Hn : 0 <= cellCount R)
    by (unfold cellCount; pose proof (created_width R HR); pose proof (created_height R HR); nia).
  destruct (scan_upto_returns lp R (Z.to_nat (cellCount R)) HR) as (Rn & Hscan); [lia|done|].
  rewrite Z2Nat.id in Hscan by done.
  exists (finish Rn). rewrite (onRender_chain G lp) by done. by rewrite Hscan.
Qed.

(** A tick that returns on a created renderer leaves a created renderer
    whose current buffer is the one the scan wrote. *)
Lemma onRender_next (G : Global St W) (lp : callback W (call St) (value St)) (fuel : nat)
    (R R' : Renderer St W) :
  loop G = Some lp -> created R -> (Z.to_nat (cellCount R) < fuel)%nat ->
  onRender fuel G R = Ok R' ->
  created R' /\
  step R' = 1 - step R /\ cellCount R' = cellCount R /\
  width R' = width R /\ height R' = height R /\ cellSize R' = cellSize R /\
  currentCell R' = None /\ currentId R' = Some (-1) /\
  interval R' = interval R /\ setupDone R' = setupDone R /\
  timers (browser R') = timers (browser R) /\
  (forall i, 0 <= i < cellCount R ->
     exists x, returned_in_tick lp R i x /\ state_of R' i = x).
Proof.
  intros Hlp HR Hfuel Hrender.
  destruct (onRender_created G lp fuel R R' Hlp HR Hfuel Hrender) as (Rn & Hscan & -> & HF & Hret).
  destruct HF as (HRn & Hw & Hh & Hs & Hst & Hf & Hi & Hd & Hb & Hg).
  split; [by apply finish_created|].
  cbn. unfold cellCount. cbn. rewrite Hst, Hw, Hh, Hs, Hi, Hd, Hb.
  repeat split; try done.
  intros i Hi'. destruct (Hret i Hi') as (x & Hx & Hget). exists x. split; [done|].
  unfold state_of. cbn. rewrite Hst.
  change (generation (finish Rn) (1 - step R)) with (generation Rn (1 - step R)).
  by rewrite Hget.
Qed.

Lemma ticks_created (G : Global St W) (lp : callback W (call St) (value St)) (fuel : nat)
    (R : Renderer St W) (N : nat) (RN : Renderer St W) :
  loop G = Some lp -> created R -> (Z.to_nat (cellCount R) < fuel)%nat ->
  ticks N fuel G R = Ok RN -> created RN /\ cellCount RN = cellCount R.
Proof.
  intros Hlp HR Hfuel. revert RN. induction N as [|N IH]; intros RN.
  - by intros [= <-].
  - cbn [ticks]. destruct (ticks N fuel G R) as [R1| |]; [|done|done].
    cbn [mbind result_bind]. intros Hr. destruct (IH R1 eq_refl) as [HR1 Hn1].
    destruct (onRender_next G lp fuel R1 RN Hlp HR1) as (HRN & _ & Hn & _); [lia|done|].
    split; [done|]. congruence.
Qed.

Lemma ticks_returns (G : Global St W) (lp : callback W (call St) (value St)) (fuel : nat)
    (R : Renderer St W) (N : nat) :
  loop G = Some lp -> created R -> (Z.to_nat (cellCount R) < fuel)%nat ->
  (forall w, unfailing (lp w)) ->
  exists RN, ticks N fuel G R = Ok RN.
Proof.
  intros Hlp HR Hfuel Hsafe. induction N as [|N (RN & HN)].
  - by exists R.
  - destruct (ticks_created G lp fuel R N RN Hlp HR Hfuel HN) as [HRN Hn].
    destruct (onRender_returns G lp fuel RN Hlp HRN) as (R' & Hr); [lia|done|].
    exists R'. cbn [ticks]. by rewrite HN.
Qed.

(** A visit that throws ends the tick: the cells after it are not
    visited. *)
Lemma onRender_aborts (G : Global St W) (lp : callback W (call St) (value St)) (fuel : nat)
    (R Ri : Renderer St W) (i : Z) (e : error) :
  loop G = Some lp -> (Z.to_nat (cellCount R) < fuel)%nat ->
  0 <= i < cellCount R ->
  scan_upto lp i R = Ok Ri -> visit lp i Ri = Throw e ->
  onRender fuel G R = Throw e.
Proof.
  intros Hlp Hfuel Hi Hscan Hv. rewrite (onRender_chain G lp) by done.
  unfold scan_upto in *.
  replace (cellCount R) with (i + (1 + (cellCount R - i - 1))) at 1 by lia.
  rewrite seqZ_app, chain_app, Hscan by lia. cbn [mbind result_bind].
  rewrite seqZ_app, chain_app by lia. rewrite Z.add_0_l.
  change (seqZ i 1) with [i]. rewrite chain_cons, Hv. done.
Qed.
(** ** [start] *)

Lemma do_config_frame {X} (e : config X) (R R' : Renderer St W) (x : X) :
  do_config e R = Ok (x, R') -> setup_frame R R'.
Proof.
  destruct e; cbn [do_config].
  - unfold setSize. destruct (setupDone R); [done|]. intros [= _ <-]. by repeat split.
  - unfold setCellSize. destruct (setupDone R); [done|]. intros [= _ <-]. by repeat split.
  - unfold setParent. destruct (setupDone R); [done|]. intros [= _ <-]. by repeat split.
  - intros [= _ <-]. unfold setFramerate. cbn [interval set_fps].
    destruct (interval R) as [hd|] eqn:Hi; [|by repeat split].
    repeat split; try done; intros; congruence.
  - intros [= _ <-]. by repeat split.
Qed.

Lemma setup_frame_trans (R1 R2 R3 : Renderer St W) :
  setup_frame R1 R2 -> setup_frame R2 R3 -> setup_frame R1 R3.
Proof.
  intros (Hs & Hd & Hc & Hi & Hcs & Him & Ht) (Hs' & Hd' & Hc' & Hi' & Hcs' & Him' & Ht').
  do 6 (split; [congruence|]).
  intros Hn. destruct (Ht Hn) as [Hn2 Ht2]. destruct (Ht' Hn2) as [Hn3 Ht3].
  split; congruence.
Qed.

Lemma run_config_frame {A} (p : script config A) (R R' : Renderer St W) (x : A) :
  run (@do_config St W) p R = Ok (x, R') -> setup_frame R R'.
Proof.
  revert R. induction p as [a| |X e k IH]; intros R; cbn [run].
  - intros [= _ <-]. by repeat split.
  - done.
  - destruct (do_config e R) as [[y R1]| |] eqn:He; [|done|done]. cbn [mbind result_bind].
    intros Hk. eapply setup_frame_trans; [by eapply do_config_frame|by eapply IH].
Qed.

Lemma run_setup_frame (G : Global St W) (R R' : Renderer St W) :
  run_setup G R = Ok R' -> setup_frame R R'.
Proof.
  unfold run_setup. destruct (setup G) as [p|]; [|intros [= <-]; by repeat split].
  destruct (invoke _ p R) as [[x R1]| |] eqn:Hrun; [|done|done]. cbn [mbind result_bind].
  intros [= <-]. apply invoke_Ok in Hrun as (w & R2 & Hrun & ->).
  exact (run_config_frame _ _ _ _ Hrun).
Qed.

Lemma build_cellCount (ct : callback W (call St) (value St)) (i : Z) (R R' : Renderer St W) :
  build ct i R = Ok R' -> cellCount R' = cellCount R.
Proof.
  unfold build. destruct (invoke _ ct _) as [[x R2]| |] eqn:Hrun; [|done|done].
  cbn [mbind result_bind]. apply invoke_frame in Hrun as (d & w & -> & _).
  unfold assign_at. destruct (cells_ref _ _ _) as [[c|]| |]; try done.
  cbn [mbind result_bind]. by intros [= <-].
Qed.

Lemma build_frame_refl (R : Renderer St W) : created R -> build_frame R R.
Proof. intros HR. split; [exact HR|by repeat split]. Qed.

Lemma build_frame_trans (R1 R2 R3 : Renderer St W) :
  build_frame R1 R2 -> build_frame R2 R3 -> build_frame R1 R3.
Proof.
  intros (_ & Hw & Hh & Hs & Hst & Hf & Hi & Hd & Hb & Hc)
         (HR & Hw' & Hh' & Hs' & Hst' & Hf' & Hi' & Hd' & Hb' & Hc').
  split; [exact HR|]. repeat split; congruence.
Qed.

Lemma build_created (ct : callback W (call St) (value St)) (R R' : Renderer St W) (i : Z) :
  created R -> 0 <= i < cellCount R -> build ct i R = Ok R' ->
  exists x R2,
    invoke (@do_call St W _ _) ct (set_current (currentCell R) (Some i) R) = Ok (x, R2) /\
    build_frame R R' /\
    generation R' (step R) = <[Z.to_nat i := x]> (generation R (step R)).
Proof.
  intros HR Hi. unfold build.
  set (Rb := set_current (currentCell R) (Some i) R).
  assert (HRb : created Rb) by by apply set_current_created.
  destruct (invoke _ ct Rb) as [[x R2]| |] eqn:Hrun; [|done|done]. cbn [mbind result_bind].
  pose proof (invoke_frame ct Rb R2 x Hrun) as HF.
  pose proof (same_but_image_created Rb R2 HF HRb) as HR2.
  destruct HF as (d & w & HR2eq & Hd).
  assert (Hst2 : step R2 = step R) by by rewrite HR2eq.
  assert (Hn2 : cellCount R2 = cellCount R) by by rewrite HR2eq.
  destruct (store_cell_created R2 (step R2) i x HR2) as (R3 & Hst & HR3 & HR3eq & Hg & _).
  { rewrite Hst2. apply (created_step R HR). }
  { by rewrite Hn2. }
  rewrite Hst. intros [= <-]. exists x, R2. split; [done|].
  assert (Hgen2 : forall b, generation R2 b = generation R b) by (intros b; by rewrite HR2eq).
  rewrite Hst2, Hgen2 in Hg. split; [|done].
  split; [done|]. rewrite HR3eq, HR2eq. by repeat split.
Qed.

(** After the first [k] cells of the construction pass the current buffer
    holds what [construct] returned for them. *)
Lemma build_upto_created (ct : callback W (call St) (value St)) (R : Renderer St W) (k : nat) (Rk : Renderer St W) :
  created R -> Z.of_nat k <= cellCount R ->
  build_upto ct (Z.of_nat k) R = Ok Rk ->
  build_frame R Rk /\
  (forall i, 0 <= i < Z.of_nat k ->
     exists x, returned_in_construct ct R i x /\
               arr_get (generation Rk (step R)) i = Some x).
Proof.
  intros HR. revert Rk. induction k as [|k IH]; intros Rk Hk.
  - intros [= <-]. split; [by apply build_frame_refl|intros; lia].
  - unfold build_upto. rewrite seqZ_S, chain_snoc, Z.add_0_l.
    destruct (chain (build ct) (seqZ 0 (Z.of_nat k)) R) as [Rk'| |] eqn:Hpre; [|done|done].
    cbn [mbind result_bind]. intros Hb.
    destruct (IH Rk') as (HF & Hlow); [lia|done|].
    pose proof HF as (HRk & Hw & Hh & _ & Hst & _ & _ & _ & _ & Hcur).
    assert (Hn : cellCount Rk' = cellCount R) by (unfold cellCount; congruence).
    destruct (build_created ct Rk' Rk (Z.of_nat k) HRk) as (x & R2 & Hrun & HF' & Hg);
      [lia|done|].
    rewrite Hst in Hg.
    split; [by eapply build_frame_trans|].
    intros i Hi. destruct (decide (i = Z.of_nat k)) as [->|Hne].
    + exists x. split; [exists Rk', R2; split; [exact Hpre|exact Hrun]|].
      rewrite Hg. apply arr_get_Some. split; [lia|]. rewrite Nat2Z.id.
      apply list_lookup_insert_eq.
      destruct (created_cells Rk' HRk) as (xs0 & xs1 & H0 & H1 & Hc).
      rewrite (generation_linked Rk' xs0 xs1) by (try done; apply (created_step R HR)).
      destruct (decide _); lia.
    + destruct (Hlow i) as (y & Hy & Hget); [lia|]. exists y. split; [done|].
      rewrite Hg. apply arr_get_Some in Hget as [? Hget]. apply arr_get_Some.
      split; [done|]. rewrite list_lookup_insert_ne by lia. done.
Qed.

Lemma unbind_created (R : Renderer St W) : created R -> created (unbind R).
Proof. apply set_current_created. Qed.

Lemma schedule_created (R : Renderer St W) : created R -> created (schedule R).
Proof. intros [Hw Hh Hs Hst Him Hc]. by constructor. Qed.

(** The four stages of [start]. *)
Lemma start_stages (fuel : nat) (G : Global St W) (R R' : Renderer St W) :
  start fuel G R = Ok R' ->
  exists R1 R2 R3,
    run_setup G R = Ok R1 /\ createAutomaton R1 = Ok R2 /\
    construct_all fuel G R2 = Ok R3 /\ R' = schedule R3.
Proof.
  unfold start.
  destruct (run_setup G R) as [R1| |] eqn:H1; [|done|done]. cbn [mbind result_bind].
  destruct (createAutomaton R1) as [R2| |] eqn:H2; [|done|done]. cbn [mbind result_bind].
  destruct (construct_all fuel G R2) as [R3| |] eqn:H3; [|done|done]. cbn [mbind result_bind].
  intros [= <-]. by exists R1, R2, R3.
Qed.

Lemma construct_all_created (fuel : nat) (G : Global St W) (R R' : Renderer St W) :
  created R -> (Z.to_nat (cellCount R) < fuel)%nat ->
  construct_all fuel G R = Ok R' ->
  created R' /\
  width R' = width R /\ height R' = height R /\ cellSize R' = cellSize R /\
  step R' = step R /\ fps R' = fps R /\ interval R' = interval R /\
  setupDone R' = setupDone R /\ browser R' = browser R /\
  (forall ct, construct G = Some ct ->
     currentCell R' = None /\ currentId R' = Some (-1) /\
     forall i, 0 <= i < cellCount R ->
       exists x, returned_in_construct ct R i x /\ state_of R' i = x).
Proof.
  intros HR Hfuel. unfold construct_all.
  destruct (construct G) as [ct|];
    [|intros [= <-]; split; [exact HR|]; do 8 (split; [reflexivity|]); intros ct' [=]].
  rewrite for_cells_chain; [|apply build_cellCount|lia]. rewrite Z.sub_0_r.
  destruct (chain (build ct) (seqZ 0 (cellCount R)) R) as [Rn| |] eqn:Hpass; [|done|done].
  cbn [mbind result_bind]. intros [= <-].
  assert (Hn : 0 <= cellCount R)
    by (unfold cellCount; pose proof (created_width R HR); pose proof (created_height R HR); nia).
  destruct (build_upto_created ct R (Z.to_nat (cellCount R)) Rn HR) as (HF & Hlow);
    [lia|by rewrite Z2Nat.id by done|].
  destruct HF as (HRn & Hw & Hh & Hs & Hst & Hf & Hi & Hd & Hb & Hc).
  split; [by apply unbind_created|]. cbn.
  do 8 (split; [done|]). intros ct' [= <-]. split; [done|]. split; [done|].
  intros i Hi'. destruct (Hlow i) as (x & Hx & Hget); [lia|].
  exists x. split; [done|]. unfold state_of. cbn. rewrite Hst.
  change (generation (unbind Rn) (step R)) with (generation Rn (step R)).
  by rewrite Hget.
Qed.

(** [start] on a grid of positive size leaves a created renderer whose
    current buffer holds what [construct] returned. *)
Lemma start_created (fuel : nat) (G : Global St W) (R0 R1 R : Renderer St W) :
  run_setup G R0 = Ok R1 ->
  0 < width R1 -> 0 < height R1 -> 0 <= cellSize R1 -> step R0 = 0 \/ step R0 = 1 ->
  (Z.to_nat (cellCount R1) < fuel)%nat ->
  start fuel G R0 = Ok R ->
  exists R2,
    createAutomaton R1 = Ok R2 /\ created R2 /\ created R /\
    step R = step R0 /\ cellCount R = cellCount R1 /\ setupDone R = setupDone R0 /\
    (forall ct, construct G = Some ct ->
       currentCell R = None /\ currentId R = Some (-1) /\
       forall i, 0 <= i < cellCount R ->
         exists x, returned_in_construct ct R2 i x /\ state_of R i = x).
Proof.
  intros Hsetup Hw Hh Hs Hst Hfuel Hstart.
  destruct (start_stages fuel G R0 R Hstart) as (R1' & R2 & R3 & H1 & H2 & H3 & ->).
  rewrite Hsetup in H1. injection H1 as <-.
  destruct (run_setup_frame G R0 R1 Hsetup) as (Hst1 & Hd1 & _).
  destruct (createAutomaton_Ok_inv R1 R2 H2) as (Hm & Hs' & _).
  destruct (createAutomaton_created R1 Hw Hh Hs' Hm) as
    (R2' & H2' & HR2 & Hw2 & Hh2 & Hs2 & Hst2 & _ & _ & Hd2 & _); [congruence|].
  rewrite H2 in H2'. injection H2' as <-.
  assert (Hn2 : cellCount R2 = cellCount R1) by (unfold cellCount; congruence).
  destruct (construct_all_created fuel G R2 R3 HR2) as
    (HR3 & Hw3 & Hh3 & Hs3 & Hst3 & _ & _ & Hd3 & _ & Hct); [lia|done|].
  exists R2. split; [done|]. split; [done|]. split; [by apply schedule_created|].
  assert (Hn3 : cellCount (schedule R3) = cellCount R1)
    by (unfold cellCount; cbn; congruence).
  split; [cbn; congruence|]. split; [done|]. split; [cbn; congruence|].
  intros ct Hc. destruct (Hct ct Hc) as (Hcc & Hci & Hret).
  split; [done|]. split; [done|]. intros i Hi. rewrite Hn3, <- Hn2 in Hi.
  destruct (Hret i Hi) as (x & Hx & Hx'). by exists x.
Qed.

(** ** The raster *)

Lemma toUint8Clamp_byte (z : Z) : 0 <= z < 256 -> toUint8Clamp (Some z) = z.
Proof. intros Hz. unfold toUint8Clamp. lia. Qed.

Lemma ta_set_get (data : list Z) (q : Z) (n : option Z) (k : Z) :
  0 <= q < Z.of_nat (length data) ->
  arr_get (ta_set data (Some q) n) k =
    if decide (k = q) then Some (toUint8Clamp n) else arr_get data k.
Proof.
  intros Hq. unfold ta_set, arr_get. destruct (decide (0 <= q)); [|lia].
  destruct (decide (0 <= k)).
  - destruct (decide (k = q)) as [->|Hne].
    + apply list_lookup_insert_eq. lia.
    + apply list_lookup_insert_ne. lia.
  - destruct (decide (k = q)); [lia|done].
Qed.

Lemma plot_get (data : list Z) (q : Z) (c : color) (k : Z) :
  0 <= q -> q + 3 < Z.of_nat (length data) ->
  arr_get (plot data (Some q) c) k =
    if decide (q <= k < q + 4) then Some (channel c (k - q)) else arr_get data k.
Proof.
  intros H0 H3. unfold plot. cbn [fmap option_fmap option_map].
  rewrite !ta_set_get by (rewrite ?ta_set_length; lia).
  unfold channel.
  repeat (destruct (decide _); try lia); done.
Qed.

Lemma point_offset_inside (size w i x y : Z) :
  0 <= y < size -> point_offset size w i x y = Some (byte_offset size w i x y).
Proof.
  intros Hy. unfold point_offset, byte_offset, cell_pos, arr_get.
  destruct (decide (0 <= y)); [|lia].
  rewrite list_lookup_fmap, lookup_seqZ_lt by lia. cbn. f_equal. rewrite Z2Nat.id by lia.
  done.
Qed.

Lemma point_offset_outside (size w i x y : Z) :
  ~ (0 <= y < size) -> point_offset size w i x y = None.
Proof.
  intros Hy. unfold point_offset, cell_pos, arr_get.
  destruct (decide (0 <= y)); [|done].
  rewrite list_lookup_fmap, lookup_seqZ_ge by lia. done.
Qed.

(** The pixel that [setPoint x y] writes for cell [i]: row
    [y + (i / w) * size], column [(i mod w) * size + x] of a raster
    [w * size] pixels wide. *)
Lemma byte_offset_pixel (size w i x y : Z) :
  byte_offset size w i x y =
    ((y + (i / w) * size) * (w * size) + (Z.rem i w * size + x)) * 4.
Proof. unfold byte_offset. ring. Qed.

Lemma byte_offset_inside (size w h i x y : Z) :
  0 < w -> 0 <= i < w * h -> 0 <= x < size -> 0 <= y < size ->
  0 <= byte_offset size w i x y /\
  byte_offset size w i x y + 3 < w * size * (h * size) * 4 /\
  0 <= Z.rem i w * size + x < w * size /\
  0 <= y + (i / w) * size < h * size.
Proof.
  intros Hw Hi Hx Hy. rewrite byte_offset_pixel.
  destruct (index_coords_inside w h i Hw Hi) as (Hrem & Hdiv & _).
  set (X := Z.rem i w) in *. set (Y := i / w) in *.
  assert (Hcol : 0 <= X * size + x < w * size) by nia.
  assert (Hrow : 0 <= y + Y * size < h * size) by nia.
  split; [nia|]. split; [|done].
  assert ((y + Y * size) * (w * size) + (X * size + x) < h * size * (w * size)) by nia.
  lia.
Qed.

Lemma row_column_unique (rw a b a' b' : Z) :
  0 <= b < rw -> 0 <= b' < rw -> a * rw + b = a' * rw + b' -> a = a' /\ b = b'.
Proof.
  intros Hb Hb' Heq.
  assert (a = a') by nia. subst. lia.
Qed.

(** A sequence of plots of one colour at pixel-aligned offsets. *)
Lemma fold_plot_get {A} (off : A -> Z) (l : list A) (c : color) (data : list Z) (k : Z) :
  (forall a, a ∈ l ->
     0 <= off a /\ off a + 3 < Z.of_nat (length data) /\ off a mod 4 = 0) ->
  arr_get (foldl (fun d a => plot d (Some (off a)) c) data l) k =
    if decide (Exists (fun a => off a <= k < off a + 4) l)
    then Some (channel c (k mod 4)) else arr_get data k.
Proof.
  revert data. induction l as [|a l IH]; intros data Hl.
  - cbn. destruct (decide _) as [H|H]; [by apply Exists_nil in H|done].
  - cbn [foldl]. rewrite IH.
    2:{ intros a' Ha'. rewrite plot_length. apply Hl. by right. }
    destruct (Hl a) as (Ha0 & Ha3 & Ha4); [by left|].
    rewrite plot_get by done.
    destruct (decide (Exists _ l)) as [Hex|Hex].
    + rewrite decide_True by (by right). done.
    + destruct (decide (off a <= k < off a + 4)) as [Hk|Hk].
      * rewrite decide_True by (by left). do 2 f_equal.
        apply (Z.mod_unique_pos k 4 (off a / 4)); [lia|].
        pose proof (Z.div_mod (off a) 4 ltac:(lia)). lia.
      * rewrite decide_False; [done|]. intros [?|?]%Exists_cons; done.
Qed.

Lemma setPoint_chain_bound (c : color) (l : list (Z * Z)) (R : Renderer St W) (i : Z) :
  created R -> bound R i ->
  (forall xy, xy ∈ l -> 0 <= xy.2 < cellSize R) ->
  chain (fun xy => setPoint xy.1 xy.2 c) l R =
    Ok (set_image
          (foldl (fun d xy => plot d (Some (byte_offset (cellSize R) (width R) i xy.1 xy.2))
                                (toRgb c))
                 (image R) l) R).
Proof.
  revert R. induction l as [|xy l IH]; intros R HR Hb Hl.
  - rewrite chain_nil. cbn. by rewrite set_image_id.
  - rewrite chain_cons, (setPoint_bound _ _ _ R i HR Hb). cbn [mbind result_bind].
    rewrite point_offset_inside by (apply Hl; by left).
    rewrite IH.
    + done.
    + apply set_image_created; [apply plot_length|done].
    + done.
    + intros xy' Hxy'. apply Hl. by right.
Qed.

Lemma block_pairs (size x y : Z) :
  (x, y) ∈ (i ← seqZ 0 size; (fun j => (i, j)) <$> seqZ 0 size) <->
  0 <= x < size /\ 0 <= y < size.
Proof.
  split.
  - intros H. apply list_elem_of_bind in H as (i & Hin & Hi).
    apply list_elem_of_fmap in Hin as (j & [= -> ->] & Hj).
    apply elem_of_seqZ in Hi, Hj. lia.
  - intros [Hx Hy]. apply list_elem_of_bind. exists x. split.
    + apply list_elem_of_fmap. exists y. split; [done|]. apply elem_of_seqZ. lia.
    + apply elem_of_seqZ. lia.
Qed.

Lemma pixelOrigin_bound (R : Renderer St W) (i : Z) :
  created R -> bound R i -> 0 < cellSize R ->
  pixelOrigin R (Ref (step R) i) = Some (byte_offset (cellSize R) (width R) i 0 0).
Proof.
  intros HR Hb Hs. unfold pixelOrigin. rewrite (bound_slot R i HR Hb).
  cbn [mbind option_bind pos linked_slot].
  pose proof (point_offset_inside (cellSize R) (width R) i 0 0 ltac:(lia)) as Hp.
  unfold point_offset in Hp. destruct (arr_get _ 0) as [o|]; [|done].
  cbn in Hp. injection Hp as <-. f_equal. lia.
Qed.

(** Reads made while cell [i] is evaluated resolve in the buffer as the
    tick found it. *)
Lemma called_in_tick_reads (lp : callback W (call St) (value St)) (R : Renderer St W) (i : Z) (R' : Renderer St W) :
  created R -> 0 <= i < cellCount R -> called_in_tick lp R i R' ->
  created R' /\ bound R' i /\ step R' = step R /\
  width R' = width R /\ height R' = height R /\ cellSize R' = cellSize R /\
  getCell R' = Ok (state_of R i) /\
  cloneCell R' = clone (state_of R i) /\
  getId R' = Ok i /\
  forall k, getNeighbor k R' = Ok (neighbor_state R i k).
Proof.
  intros HR Hi (Ri & Rb & Hscan & Hbind & Hcalls).
  destruct (scan_upto_created lp R (Z.to_nat i) Ri HR) as (HF & _);
    [lia|by rewrite Z2Nat.id by lia|].
  destruct HF as (HRi & Hw & Hh & Hs & Hst & _ & _ & _ & _ & Hg).
  assert (Hn : cellCount Ri = cellCount R) by (unfold cellCount; congruence).
  rewrite (bind_cell_created Ri i HRi) in Hbind by lia. injection Hbind as <-.
  set (Rb := set_current _ _ Ri) in *.
  assert (HRb : created Rb) by by apply set_current_created.
  assert (Hb : bound Rb i).
  { split; [done|]. split; [done|]. change (cellCount Rb) with (cellCount Ri). lia. }
  pose proof (calls_at_frame _ Rb R' Hcalls) as HF.
  pose proof (same_but_image_created Rb R' HF HRb) as HR'.
  pose proof (same_but_image_bound Rb R' i HF Hb) as Hb'.
  destruct HF as (d & w & HR'eq & _).
  assert (Hst' : step R' = step R) by (rewrite HR'eq; cbn; done).
  assert (Hw' : width R' = width R) by (rewrite HR'eq; cbn; done).
  assert (Hh' : height R' = height R) by (rewrite HR'eq; cbn; done).
  assert (Hs' : cellSize R' = cellSize R) by (rewrite HR'eq; cbn; done).
  assert (Hg' : generation R' (step R') = generation R (step R)).
  { rewrite Hst', <- Hg. rewrite HR'eq. done. }
  assert (Hstate : forall j, state_of R' j = state_of R j).
  { intros j. unfold state_of. by rewrite Hg'. }
  assert (Hnb : forall k, neighbor_state R' i k = neighbor_state R i k).
  { intros k. unfold neighbor_state. rewrite Hw', Hh', Hst'.
    destruct (arr_get _ k) as [[c|]|]; [apply Hstate|done|done]. }
  do 6 (split; [done|]).
  rewrite (getCell_bound R' i), (cloneCell_bound R' i), (getId_bound R' i) by done.
  rewrite Hstate. do 3 (split; [done|]).
  intros k. by rewrite (getNeighbor_bound R' i), Hnb by done.
Qed.

Lemma fold_plot_length {A} (off : A -> option Z) (l : list A) (c : color) (data : list Z) :
  length (foldl (fun d a => plot d (off a) c) data l) = length data.
Proof.
  revert data. induction l as [|a l IH]; intros data; [done|].
  cbn [foldl]. by rewrite IH, plot_length.
Qed.

(** ** Fields that no pass touches *)

Lemma assign_at_cells (f : slot St -> slot St) (b i : Z) (R R' : Renderer St W) :
  assign_at f b i R = Ok R' -> R' = set_cells (cells R') R.
Proof.
  unfold assign_at. destruct (cells_ref R b i) as [[c|]| |]; try done.
  cbn [mbind result_bind]. by intros [= <-].
Qed.

Lemma for_cells_invariant (P : (Renderer St W) -> Prop) (body : Z -> (Renderer St W) -> result (Renderer St W))
    (fuel : nat) (i : Z) (R R' : Renderer St W) :
  (forall j R1 R2, P R1 -> body j R1 = Ok R2 -> P R2) ->
  P R -> for_cells fuel body i R = Ok R' -> P R'.
Proof.
  intros Hbody. revert i R. induction fuel as [|fuel IH]; intros i R HP; [done|].
  cbn [for_cells]. destruct (decide _); [|by intros [= <-]].
  destruct (body i R) as [R1| |] eqn:Hb; [|done|done]. cbn [mbind result_bind].
  apply IH. by eapply Hbody.
Qed.

Lemma build_sched_frame (ct : callback W (call St) (value St)) (i : Z) (R0 R R' : Renderer St W) :
  sched_frame R0 R -> build ct i R = Ok R' -> sched_frame R0 R'.
Proof.
  intros HF. unfold build. destruct (invoke _ ct _) as [[x R2]| |] eqn:Hrun; [|done|done].
  cbn [mbind result_bind]. apply invoke_frame in Hrun as (d & w & -> & _).
  intros Ha. apply assign_at_cells in Ha. rewrite Ha. exact HF.
Qed.

Lemma visit_fields (lp : callback W (call St) (value St)) (i : Z) (R R' : Renderer St W) :
  visit lp i R = Ok R' ->
  setupDone R' = setupDone R /\ interval R' = interval R /\
  browser R' = browser R /\ fps R' = fps R /\ step R' = step R.
Proof.
  unfold visit, bind_cell. destruct (cells_ref R (step R) i) as [cur| |]; [|done|done].
  cbn [mbind result_bind].
  destruct (invoke _ lp _) as [[x R2]| |] eqn:Hrun; [|done|done]. cbn [mbind result_bind].
  apply invoke_frame in Hrun as (d & w & -> & _).
  intros Ha. apply assign_at_cells in Ha. by rewrite Ha.
Qed.

(** A tick changes neither the timers nor [interval], and leaves the
    cursor unbound. *)
Lemma onRender_fields (fuel : nat) (G : Global St W) (R R' : Renderer St W) :
  onRender fuel G R = Ok R' ->
  setupDone R' = setupDone R /\ interval R' = interval R /\
  timers (browser R') = timers (browser R) /\ fps R' = fps R /\
  (forall lp, loop G = Some lp ->
     currentCell R' = None /\ currentId R' = Some (-1) /\ step R' = 1 - step R).
Proof.
  unfold onRender. destruct (loop G) as [lp|]; [|intros [= <-]; by repeat split].
  destruct (for_cells fuel (visit lp) 0 R) as [Rn| |] eqn:Hscan; [|done|done].
  cbn [mbind result_bind]. intros [= <-].
  assert (HP : setupDone Rn = setupDone R /\ interval Rn = interval R /\
               browser Rn = browser R /\ fps Rn = fps R /\ step Rn = step R).
  { apply (for_cells_invariant
             (fun R1 => setupDone R1 = setupDone R /\ interval R1 = interval R /\
                        browser R1 = browser R /\ fps R1 = fps R /\ step R1 = step R)
             (visit lp) fuel 0 R Rn); [|done|done].
    intros j R1 R2 (H1 & H2 & H3 & H4 & H5) Hv.
    destruct (visit_fields lp j R1 R2 Hv) as (H1' & H2' & H3' & H4' & H5').
    repeat split; congruence. }
  destruct HP as (H1 & H2 & H3 & H4 & H5). cbn. rewrite H1, H2, H3, H4, H5.
  repeat split; done.
Qed.

Lemma link_cell_Ok (acc : result (Renderer St W)) (i : Z) (R' : Renderer St W) :
  link_cell acc i = Ok R' ->
  exists R, acc = Ok R /\ R' = set_cells (cells R') R.
Proof.
  destruct acc as [R| |]; [|done|done]. unfold link_cell. cbn [mbind result_bind].
  destruct (computeNeighborhood R _ _) as [[n0 n1]| |]; [|done|done].
  cbn [mbind result_bind]. destruct (decide (cellSize R < 0)); [done|].
  destruct (assign_at _ 0 i R) as [Ra| |] eqn:Ha; [|done|done]. cbn [mbind result_bind].
  destruct (assign_at _ 1 i Ra) as [Rb| |] eqn:Hb; [|done|done]. cbn [mbind result_bind].
  destruct (assign_at _ 0 i Rb) as [Rc| |] eqn:Hc; [|done|done]. cbn [mbind result_bind].
  intros Hd. exists R. split; [done|].
  apply assign_at_cells in Ha, Hb, Hc, Hd. rewrite Hd, Hc, Hb, Ha. done.
Qed.

Lemma link_cells_Ok (l : list Z) (acc : result (Renderer St W)) (R' : Renderer St W) :
  foldl link_cell acc l = Ok R' ->
  exists R, acc = Ok R /\ R' = set_cells (cells R') R.
Proof.
  revert acc. induction l as [|i l IH]; intros acc; cbn [foldl].
  - intros ->. exists R'. by rewrite set_cells_id.
  - intros H. apply IH in H as (R1 & H1 & HR').
    apply link_cell_Ok in H1 as (R & -> & HR1). exists R. split; [done|].
    rewrite HR', HR1. done.
Qed.

Lemma createAutomaton_fields (R R' : Renderer St W) :
  createAutomaton R = Ok R' ->
  setupDone R' = setupDone R /\ interval R' = interval R /\
  timers (browser R') = timers (browser R) /\ fps R' = fps R /\
  currentCell R' = currentCell R /\ currentId R' = currentId R /\ step R' = step R.
Proof.
  unfold createAutomaton, appendCanvas.
  destruct (has_parent (parentId R) (browser R)); [|done]. cbn [mbind result_bind].
  destruct (decide _); [done|]. destruct (decide _); [done|].
  intros H. apply link_cells_Ok in H as (R1 & [= <-] & ->).
  by repeat split.
Qed.

Lemma construct_all_fields (fuel : nat) (G : Global St W) (R R' : Renderer St W) :
  construct_all fuel G R = Ok R' ->
  setupDone R' = setupDone R /\ interval R' = interval R /\
  timers (browser R') = timers (browser R) /\ fps R' = fps R /\
  (currentCell R = None -> currentCell R' = None).
Proof.
  unfold construct_all. destruct (construct G) as [ct|]; [|intros [= <-]; by repeat split].
  destruct (for_cells fuel (build ct) 0 R) as [Rn| |] eqn:Hpass; [|done|done].
  cbn [mbind result_bind]. intros [= <-].
  assert (HP : sched_frame R Rn).
  { apply (for_cells_invariant (sched_frame R) (build ct) fuel 0 R Rn); [|by repeat split|done].
    intros j R1 R2. apply build_sched_frame. }
  destruct HP as (H1 & H2 & H3 & H4 & H5). cbn. by repeat split.
Qed.

(** [start] never sets [setupDone]; it registers one more timer and
    remembers it in [interval]. *)
Lemma start_fields (fuel : nat) (G : Global St W) (R R' : Renderer St W) :
  start fuel G R = Ok R' ->
  setupDone R' = setupDone R /\
  (interval R = None ->
     exists hd ms, interval R' = Some hd /\
                   timers (browser R') = timers (browser R) ++ [(hd, ms)]) /\
  (currentCell R = None -> currentCell R' = None).
Proof.
  intros Hstart.
  destruct (start_stages fuel G R R' Hstart) as (R1 & R2 & R3 & H1 & H2 & H3 & ->).
  apply run_setup_frame in H1 as (_ & Hd1 & Hc1 & _ & _ & _ & Ht1).
  apply createAutomaton_fields in H2 as (Hd2 & Hi2 & Ht2 & _ & Hc2 & _).
  apply construct_all_fields in H3 as (Hd3 & Hi3 & Ht3 & _ & Hc3).
  split; [cbn; congruence|]. split.
  - intros Hidle. destruct (Ht1 Hidle) as [Hi1 Ht1'].
    exists (nextHandle (browser R3)), (period R3). cbn. split; [done|]. congruence.
  - intros Hnone. cbn. apply Hc3. congruence.
Qed.

(** ** The scheduler *)

Lemma stop_idle (R : Renderer St W) :
  sched_inv R ->
  interval (stop R) = None /\ timers (browser (stop R)) = [].
Proof.
  unfold sched_inv, stop. cbn. intros H. split; [done|].
  destruct (interval R) as [hd|].
  - destruct (timers (browser R)) as [|[h m] [|t ts]]; [done| |done].
    injection H as ->. cbn. by rewrite decide_False by (intros Hne; by apply Hne).
  - by rewrite H.
Qed.

Lemma setFramerate_sched_inv (x : Z) (R : Renderer St W) :
  sched_inv R -> sched_inv (setFramerate x R) /\
                 (interval R = None -> interval (setFramerate x R) = None).
Proof.
  unfold sched_inv, setFramerate. cbn [interval set_fps].
  destruct (interval R) as [hd|] eqn:Hi.
  - intros H. split; [|done]. cbn.
    destruct (timers (browser R)) as [|[h m] [|t ts]]; [done| |done].
    injection H as ->. cbn. by rewrite decide_False by (intros Hne; by apply Hne).
  - intros H. cbn. by rewrite Hi.
Qed.

(** While the scheduler is idle and nobody calls [start], no timer fires. *)
Lemma idle_run_no_tick (fuel : nat) (G : Global St W) (R : Renderer St W) (evs : list event)
    (R' : Renderer St W) :
  sched_run fuel G R evs R' ->
  interval R = None -> timers (browser R) = [] ->
  CallStart ∉ evs ->
  (forall hd, Tick hd ∉ evs) /\ interval R' = None /\ timers (browser R') = [].
Proof.
  induction 1 as [R|R ev R1 evs R2 Hstep Hrun IH]; intros Hi Ht Hns.
  - split; [|done]. intros hd Hin. by apply elem_of_nil in Hin.
  - assert (Hns' : CallStart ∉ evs) by (intros Hin; apply Hns; by right).
    destruct Hstep as [R hd R' Hin Hr|R R' Hs|R|R x].
    + rewrite Ht in Hin. by apply elem_of_nil in Hin.
    + exfalso. apply Hns. by left.
    + destruct IH as (IH1 & IH2); [done|by cbn; rewrite Ht|done|].
      split; [|done]. intros hd [?|?]%elem_of_cons; [done|by eapply IH1].
    + assert (Hidle : interval (setFramerate x R) = None /\
                      timers (browser (setFramerate x R)) = []).
      { unfold setFramerate. cbn [interval set_fps]. by rewrite Hi. }
      destruct IH as (IH1 & IH2); [apply Hidle|apply Hidle|done|].
      split; [|done]. intros hd [?|?]%elem_of_cons; [done|by eapply IH1].
Qed.

Lemma clearInterval_None (B : Browser) : clearInterval None B = B.
Proof.
  unfold clearInterval. destruct B as [ts nh els bd mt sc]. cbn. f_equal.
  induction ts as [|t ts IH]; [done|]. rewrite filter_cons_True by done. by rewrite IH.
Qed.

Lemma stop_timers (R : Renderer St W) (t : Z * Z) :
  t ∈ timers (browser (stop R)) <-> t ∈ timers (browser R) /\ Some t.1 <> interval R.
Proof. unfold stop. cbn. rewrite list_elem_of_filter. tauto. Qed.

(** While [interval] is null and nobody calls [start], the timers of the
    page stay as they are: the only ones that can fire are those
    registered at the beginning. *)
Lemma idle_run_timers (fuel : nat) (G : Global St W) (R : Renderer St W) (evs : list event)
    (R' : Renderer St W) :
  sched_run fuel G R evs R' ->
  interval R = None -> CallStart ∉ evs ->
  interval R' = None /\ timers (browser R') = timers (browser R) /\
  forall hd, Tick hd ∈ evs -> hd ∈ (fst <$> timers (browser R)).
Proof.
  induction 1 as [R|R ev R1 evs R2 Hstep Hrun IH]; intros Hi Hns.
  - split; [done|]. split; [done|]. intros hd Hin. by apply elem_of_nil in Hin.
  - assert (Hns' : CallStart ∉ evs) by (intros Hin; apply Hns; by right).
    destruct Hstep as [R hd R' Hin Hr|R R' Hs|R|R x].
    + destruct (onRender_fields fuel G R R' Hr) as (_ & Hi' & Ht' & _).
      destruct IH as (IH1 & IH2 & IH3); [congruence|done|].
      split; [done|]. split; [congruence|].
      intros hd' [[= ->]|Hin']%elem_of_cons; [done|]. rewrite <- Ht'. by apply IH3.
    + exfalso. apply Hns. by left.
    + assert (Hs : stop R = R).
      { unfold stop. rewrite Hi, clearInterval_None. clear -Hi.
        destruct R; cbn in *. by subst. }
      rewrite Hs in *. destruct IH as (IH1 & IH2 & IH3); [done|done|].
      split; [done|]. split; [done|].
      intros hd [?|?]%elem_of_cons; [done|by apply IH3].
    + assert (Hidle : interval (setFramerate x R) = None /\
                      timers (browser (setFramerate x R)) = timers (browser R)).
      { unfold setFramerate. cbn [interval set_fps]. by rewrite Hi. }
      destruct Hidle as [Hi' Ht'].
      destruct IH as (IH1 & IH2 & IH3); [done|done|].
      split; [done|]. split; [congruence|].
      intros hd [?|?]%elem_of_cons; [done|]. rewrite <- Ht'. by apply IH3.
Qed.

(** ** [stop] during a tick

    [stop] touches [interval] and the timers only, which no step of a scan
    reads: a scan goes on after it as it would have without it. *)

Lemma setPoint_stop (x y : Z) (c : color) (R R' : Renderer St W) :
  setPoint x y c R = Ok R' -> setPoint x y c (stop R) = Ok (stop R').
Proof.
  unfold setPoint. change (currentCell (stop R)) with (currentCell R).
  destruct (currentCell R) as [cur|]; [|done].
  change (deref (stop R) cur) with (deref R cur).
  destruct (deref R cur ≫= pos) as [rows|]; [|done]. by intros [= <-].
Qed.

Lemma chain_stop {A} (f : A -> Renderer St W -> result (Renderer St W)) (l : list A)
    (R R' : Renderer St W) :
  (forall a R1 R2, f a R1 = Ok R2 -> f a (stop R1) = Ok (stop R2)) ->
  chain f l R = Ok R' -> chain f l (stop R) = Ok (stop R').
Proof.
  intros Hf. revert R. induction l as [|a l IH]; intros R.
  - by intros [= <-].
  - rewrite !chain_cons. destruct (f a R) as [R1| |] eqn:Ha; [|done|done].
    rewrite (Hf _ _ _ Ha). cbn [mbind result_bind]. apply IH.
Qed.

Lemma do_call_stop {X} (e : call St X) (R R' : Renderer St W) (x : X) :
  do_call e R = Ok (x, R') -> do_call e (stop R) = Ok (x, stop R').
Proof.
  destruct e; cbn [do_call].
  - change (getCell (stop R)) with (getCell R).
    destruct (getCell R); [|done|done]. by intros [= <- <-].
  - change (cloneCell (stop R)) with (cloneCell R).
    destruct (cloneCell R); [|done|done]. by intros [= <- <-].
  - change (getNeighbor index (stop R)) with (getNeighbor index R).
    destruct (getNeighbor index R); [|done|done]. by intros [= <- <-].
  - change (getId (stop R)) with (getId R).
    destruct (getId R); [|done|done]. by intros [= <- <-].
  - destruct (setPoint x0 y c R) as [R1| |] eqn:Hp; [|done|done].
    rewrite (setPoint_stop _ _ _ _ _ Hp). cbn [mbind result_bind]. by intros [= <- <-].
  - destruct (setBackground c R) as [R1| |] eqn:Hb; [|done|done].
    cbn [mbind result_bind]. intros [= <- <-].
    rewrite setBackground_chain in Hb |- *.
    change (cellSize (stop R)) with (cellSize R).
    erewrite chain_stop; [done| |exact Hb].
    intros xy Ra Rb. apply setPoint_stop.
Qed.

Lemma run_stop {A} (p : script (call St) A) (R R' : Renderer St W) (x : A) :
  run (@do_call St W _ _) p R = Ok (x, R') ->
  run (@do_call St W _ _) p (stop R) = Ok (x, stop R').
Proof.
  revert R. induction p as [a| |X e k IH]; intros R; cbn [run].
  - by intros [= <- <-].
  - done.
  - destruct (do_call e R) as [[y R1]| |] eqn:He; [|done|done].
    rewrite (do_call_stop _ _ _ _ He). cbn [mbind result_bind]. apply IH.
Qed.

Lemma assign_at_stop (f : slot St -> slot St) (b i : Z) (R R' : Renderer St W) :
  assign_at f b i R = Ok R' -> assign_at f b i (stop R) = Ok (stop R').
Proof.
  unfold assign_at. change (cells_ref (stop R) b i) with (cells_ref R b i).
  destruct (cells_ref R b i) as [[c|]| |]; try done.
  cbn [mbind result_bind]. by intros [= <-].
Qed.

Lemma visit_stop (lp : callback W (call St) (value St)) (i : Z) (R R' : Renderer St W) :
  visit lp i R = Ok R' -> visit lp i (stop R) = Ok (stop R').
Proof.
  unfold visit, bind_cell. change (cells_ref (stop R) (step (stop R)) i) with (cells_ref R (step R) i).
  destruct (cells_ref R (step R) i) as [cur| |]; [|done|done]. cbn [mbind result_bind].
  destruct (invoke _ lp _) as [[x R2]| |] eqn:Hrun; [|done|done]. cbn [mbind result_bind].
  apply invoke_Ok in Hrun as (w & R1 & Hrun & ->).
  apply run_stop in Hrun. intros Ha. apply assign_at_stop in Ha.
  change (set_current cur (Some i) (stop R)) with (stop (set_current cur (Some i) R)).
  unfold invoke. change (world (stop (set_current cur (Some i) R))) with (world R).
  change (world (set_current cur (Some i) R)) with (world R) in Hrun.
  rewrite Hrun. cbn [mbind result_bind]. exact Ha.
Qed.

Lemma for_cells_stop (body : Z -> Renderer St W -> result (Renderer St W)) (fuel : nat) (i : Z)
    (R R' : Renderer St W) :
  (forall j R1 R2, body j R1 = Ok R2 -> body j (stop R1) = Ok (stop R2)) ->
  for_cells fuel body i R = Ok R' -> for_cells fuel body i (stop R) = Ok (stop R').
Proof.
  intros Hbody. revert i R. induction fuel as [|fuel IH]; intros i R; [done|].
  cbn [for_cells]. change (width (stop R) * height (stop R)) with (width R * height R).
  destruct (decide _); [|by intros [= <-]].
  destruct (body i R) as [R1| |] eqn:Hb; [|done|done].
  rewrite (Hbody _ _ _ Hb). cbn [mbind result_bind]. apply IH.
Qed.

(** The rest of a tick after [stop] is the rest of the tick, stopped. *)
Lemma resume_stop (fuel : nat) (lp : callback W (call St) (value St)) (k : Z)
    (R R' : Renderer St W) :
  resume fuel lp k R = Ok R' -> resume fuel lp k (stop R) = Ok (stop R').
Proof.
  unfold resume. destruct (for_cells fuel (visit lp) k R) as [Rn| |] eqn:Hscan; [|done|done].
  cbn [mbind result_bind]. intros [= <-].
  erewrite for_cells_stop; [|apply visit_stop|exact Hscan].
  cbn [mbind result_bind]. reflexivity.
Qed.

Lemma onRender_resume (fuel : nat) (G : Global St W) (lp : callback W (call St) (value St))
    (R : Renderer St W) :
  loop G = Some lp -> onRender fuel G R = resume fuel lp 0 R.
Proof. intros Hlp. unfold onRender, resume. by rewrite Hlp. Qed.

(** ** Calls made while no cell is bound *)

Lemma getCell_unbound (R : Renderer St W) : currentCell R = None -> getCell R = Throw LoopOnly.
Proof. intros H. unfold getCell. by rewrite H. Qed.

Lemma cloneCell_unbound (R : Renderer St W) : currentCell R = None -> cloneCell R = Throw LoopOnly.
Proof. intros H. unfold cloneCell. by rewrite H. Qed.

Lemma getNeighbor_unbound (k : Z) (R : Renderer St W) :
  currentCell R = None -> getNeighbor k R = Throw LoopOnly.
Proof. intros H. unfold getNeighbor. by rewrite H. Qed.

Lemma setPoint_unbound (x y : Z) (c : color) (R : Renderer St W) :
  currentCell R = None -> setPoint x y c R = Throw LoopOnly.
Proof. intros H. unfold setPoint. by rewrite H. Qed.

Lemma setBackground_unbound (c : color) (R : Renderer St W) :
  currentCell R = None -> 0 < cellSize R -> setBackground c R = Throw LoopOnly.
Proof.
  intros H Hs. rewrite setBackground_chain. rewrite (seqZ_cons 0 (cellSize R)) by lia.
  cbn [mbind list_bind fmap list_fmap app]. rewrite chain_cons.
  by rewrite setPoint_unbound.
Qed.

Lemma called_in_construct_unbound (ct : callback W (call St) (value St)) (R : Renderer St W) (i : Z)
    (R' : Renderer St W) :
  currentCell R = None -> called_in_construct ct R i R' ->
  currentCell R' = None /\ currentId R' = Some i.
Proof.
  intros Hnone (Ri & Hpass & Hcalls).
  assert (HF : sched_frame R Ri).
  { apply (chain_invariant (sched_frame R) (build ct) (seqZ 0 i) R Ri); [|by repeat split|done].
    intros j R1 R2. apply build_sched_frame. }
  destruct HF as (_ & _ & _ & _ & Hc).
  apply calls_at_frame in Hcalls as (d & w & -> & _). cbn. split; [congruence|done].
Qed.

(** * The claims *)

(** C3.  On a page where the canvas has a parent, with a positive cell
    size, [createAutomaton] returns, and the neighbourhood of the cell at
    [(x, y)] of either buffer then has exactly 8 entries, in the order
    TOPLEFT, TOP, TOPRIGHT, RIGHT, BOTTOMRIGHT, BOTTOM, BOTTOMLEFT, LEFT; the
    entry for an offset is null exactly when the offset coordinate leaves
    [0, width) x [0, height) (the edges do not wrap) and otherwise is the
    cell object at that coordinate in the same buffer; an interior cell has
    no null entry. *)
Theorem C3_neighborhood_fixed_order_bounded (R : Renderer St W) (b x y : Z) :
  0 < width R -> 0 < height R -> 0 < cellSize R -> mountable R ->
  b = 0 \/ b = 1 ->
  0 <= x < width R -> 0 <= y < height R ->
  exists R' nb,
    createAutomaton R = Ok R' /\
    deref R' (Ref b (x + y * width R)) ≫= neighborhood = Some nb /\
    length nb = 8%nat /\
    (forall k dx dy,
        (k, (dx, dy)) ∈
          [ (TOPLEFT, (-1, -1)); (TOP, (0, -1)); (TOPRIGHT, (1, -1)); (RIGHT, (1, 0));
            (BOTTOMRIGHT, (1, 1)); (BOTTOM, (0, 1)); (BOTTOMLEFT, (-1, 1)); (LEFT, (-1, 0)) ] ->
        (arr_get nb k = Some None <->
           ~ (0 <= x + dx < width R /\ 0 <= y + dy < height R)) /\
        (0 <= x + dx < width R /\ 0 <= y + dy < height R ->
           arr_get nb k = Some (Some (Ref b (x + dx + (y + dy) * width R))))) /\
    (0 < x < width R - 1 -> 0 < y < height R - 1 ->
       forall k, 0 <= k < 8 -> exists c, arr_get nb k = Some (Some c)).
Proof.
  intros Hw Hh Hs Hm Hb Hx Hy.
  eexists _, (topology (width R) (height R) b x y).
  split; [by apply createAutomaton_linked|].
  assert (Hi : 0 <= x + y * width R < cellCount R) by (apply grid_index_inside; lia).
  destruct (grid_index_coords (width R) x y) as [Hrem Hdiv]; [lia|lia|].
  split.
  - erewrite deref_linked; [|reflexivity|done].
    cbn [width height cellSize set_cells set_canvas].
    destruct (decide (b = 0));
      (match goal with
       | |- context [@arr_get ?A ?l ?i] =>
           destruct (@arr_get_inside A l i) as [v ->]; [rewrite length_replicate; lia|]
       end);
      simpl; by rewrite Hrem, Hdiv.
  - split; [done|]. split.
    + intros k dx dy Hk.
      assert (Hent : arr_get (topology (width R) (height R) b x y) k
                     = Some (neighbor_entry (width R) (height R) b x y (dx, dy))).
      { repeat (apply elem_of_cons in Hk as [[= -> -> ->]|Hk]; [reflexivity|]).
        by apply elem_of_nil in Hk. }
      rewrite Hent. unfold neighbor_entry. cbn [fst snd].
      destruct (decide _) as [Hout|Hin].
      * split; [split; [intros _; lia|done]|intros; lia].
      * split; [split; [done|intros; lia]|done].
    + intros Hxi Hyi k Hk.
      assert (k = 0 \/ k = 1 \/ k = 2 \/ k = 3 \/ k = 4 \/ k = 5 \/ k = 6 \/ k = 7)
        as Hcase by lia.
      destruct Hcase as [->|[->|[->|[->|[->|[->|[->| ->]]]]]]];
        (eexists; unfold topology, offsets; cbn [fmap list_fmap];
         rewrite !neighbor_entry_inside by (cbn; lia); reflexivity).
Qed.

(** C2.  On a created renderer with a [loop] callback, a firing of the
    timer whose scan completes flips [step]: whatever the number [N] of
    ticks already done, a next tick that returns leaves a selector
    different from the one it found.  (A tick in which a callback throws
    does not return: no scan was completed.)  When the runs of [loop]
    cannot fail, every tick returns, so [step] alternates for ever. *)
Theorem C2_step_alternates (G : Global St W) (lp : callback W (call St) (value St)) (fuel : nat)
    (R : Renderer St W) (N : nat) :
  loop G = Some lp -> created R -> (Z.to_nat (cellCount R) < fuel)%nat ->
  (forall RN RN',
     ticks N fuel G R = Ok RN -> onRender fuel G RN = Ok RN' ->
     ticks (S N) fuel G R = Ok RN' /\
     step RN' = 1 - step RN /\
     step RN' <> step RN /\
     (step RN' = 0 \/ step RN' = 1)) /\
  ((forall w, unfailing (lp w)) ->
   exists RN RN',
     ticks N fuel G R = Ok RN /\
     ticks (S N) fuel G R = Ok RN' /\
     onRender fuel G RN = Ok RN' /\
     step RN' = 1 - step RN /\
     step RN' <> step RN /\
     (step RN' = 0 \/ step RN' = 1)).
Proof.
  intros Hlp HR Hfuel.
  assert (Hflip : forall RN RN',
             ticks N fuel G R = Ok RN -> onRender fuel G RN = Ok RN' ->
             ticks (S N) fuel G R = Ok RN' /\ step RN' = 1 - step RN /\
             step RN' <> step RN /\ (step RN' = 0 \/ step RN' = 1)).
  { intros RN RN' HN Hr.
    destruct (ticks_created G lp fuel R N RN Hlp HR Hfuel HN) as [HRN Hn].
    destruct (onRender_next G lp fuel RN RN' Hlp HRN) as (HRN' & Hst & _); [lia|done|].
    split; [cbn [ticks]; by rewrite HN|]. split; [done|]. split; [lia|].
    apply (created_step RN' HRN'). }
  split; [exact Hflip|]. intros Hsafe.
  destruct (ticks_returns G lp fuel R N Hlp HR Hfuel Hsafe) as (RN & HN).
  destruct (ticks_returns G lp fuel R (S N) Hlp HR Hfuel Hsafe) as (RN' & HN').
  assert (Hr : onRender fuel G RN = Ok RN').
  { cbn [ticks] in HN'. by rewrite HN in HN'. }
  exists RN, RN'. split; [done|]. split; [done|]. split; [done|].
  by destruct (Hflip RN RN' HN Hr) as (_ & ? & ? & ?).
Qed.

(** C4.  A scan is [visit 0; visit 1; ...; visit (width*height - 1)], in
    that order and nothing else: the [k]-th cell visited is the cell of
    index [k].  When it returns, for every index [i] the slot [i] of the
    next buffer holds the value that [loop] returned when cell [i] was
    visited.  It stops at the first visit that throws, and returns when
    the runs of [loop] cannot fail. *)
Theorem C4_scan_visits_in_order_and_stores (G : Global St W) (lp : callback W (call St) (value St))
    (fuel : nat) (R : Renderer St W) :
  loop G = Some lp -> created R -> (Z.to_nat (width R * height R) < fuel)%nat ->
  onRender fuel G R =
    (R' ← foldl (fun acc i => R' ← acc; visit lp i R') (Ok R) (seqZ 0 (width R * height R));
     Ok (finish R')) /\
  length (seqZ 0 (width R * height R)) = Z.to_nat (width R * height R) /\
  (forall k : nat, Z.of_nat k < width R * height R ->
     seqZ 0 (width R * height R) !! k = Some (Z.of_nat k)) /\
  (forall R',
     onRender fuel G R = Ok R' ->
     forall i, 0 <= i < width R * height R ->
       exists x, returned_in_tick lp R i x /\
                 cell <$> deref R' (Ref (1 - step R) i) = Some x) /\
  (forall i Ri e,
     0 <= i < width R * height R ->
     scan_upto lp i R = Ok Ri -> visit lp i Ri = Throw e ->
     onRender fuel G R = Throw e) /\
  ((forall w, unfailing (lp w)) -> exists R', onRender fuel G R = Ok R').
Proof.
  intros Hlp HR Hfuel. split; [by apply onRender_chain|].
  split; [apply length_seqZ|]. split.
  { intros k Hk. by rewrite lookup_seqZ_lt by done. }
  split; [|split].
  - intros R' Hrender i Hi.
    destruct (onRender_created G lp fuel R R' Hlp HR Hfuel Hrender) as (Rn & Hscan & -> & HF & Hret).
    destruct (Hret i Hi) as (x & Hx & Hget). exists x. split; [done|].
    rewrite <- generation_deref. exact Hget.
  - intros i Ri e Hi Hscan Hv. by apply (onRender_aborts G lp fuel R Ri i e).
  - intros Hsafe. by apply (onRender_returns G lp fuel R).
Qed.

(** C1.  Take any state [R'] in which the [loop] callback of cell [i] makes
    a call during the tick that starts in [R].  Whatever the cells visited
    before [i] have returned, [cell()] reads the state that cell [i] held
    in the current buffer when the tick began and [neighbor(k)] reads the
    state that the [k]-th neighbour held then (null where the
    neighbourhood has no cell); the references of the neighbourhood all
    point into the current buffer.  Those states are the values returned by
    [loop] in the previous tick when [R] comes out of a tick, and the
    values returned by [construct] when [R] comes out of [start]. *)
Theorem C1_reads_are_previous_generation (G : Global St W) (lp : callback W (call St) (value St))
    (fuel : nat) (R : Renderer St W) (i : Z) (R' : Renderer St W) :
  loop G = Some lp -> created R -> 0 <= i < cellCount R ->
  called_in_tick lp R i R' ->
  getCell R' = Ok (state_of R i) /\
  (forall k, getNeighbor k R' = Ok (neighbor_state R i k)) /\
  (exists nb,
     currentCell R' = Some (Ref (step R) i) /\
     deref R' (Ref (step R) i) ≫= neighborhood = Some nb /\
     forall k c, arr_get nb k = Some (Some c) ->
       ref_buf c = step R /\ 0 <= ref_idx c < cellCount R /\
       neighbor_state R i k = state_of R (ref_idx c)) /\
  (forall Rp, created Rp -> (Z.to_nat (cellCount Rp) < fuel)%nat ->
     onRender fuel G Rp = Ok R ->
     forall j, 0 <= j < cellCount R -> returned_in_tick lp Rp j (state_of R j)) /\
  (forall ct R0 R1,
     construct G = Some ct -> run_setup G R0 = Ok R1 ->
     0 < width R1 -> 0 < height R1 -> 0 <= cellSize R1 -> step R0 = 0 \/ step R0 = 1 ->
     (Z.to_nat (cellCount R1) < fuel)%nat ->
     start fuel G R0 = Ok R ->
     exists R2, createAutomaton R1 = Ok R2 /\
       forall j, 0 <= j < cellCount R -> returned_in_construct ct R2 j (state_of R j)).
Proof.
  intros Hlp HR Hi Hcall.
  destruct (called_in_tick_reads lp R i R' HR Hi Hcall)
    as (HR' & Hb' & Hst & Hw & Hh & Hs & Hcell & _ & _ & Hnb).
  split; [done|]. split; [done|]. split; [|split].
  - exists (topology (width R) (height R) (step R) (Z.rem i (width R)) (i / width R)).
    rewrite <- Hst at 1 2. split; [apply Hb'|].
    rewrite (bound_slot R' i HR' Hb'). rewrite Hw, Hh, Hst. split; [done|].
    intros k c Hk. unfold neighbor_state. rewrite Hk.
    apply arr_get_Some in Hk as [_ Hk]. apply topology_same_buffer in Hk as [Hbuf Hidx].
    done.
  - intros Rp HRp Hfuel Hrender j Hj.
    destruct (onRender_next G lp fuel Rp R Hlp HRp Hfuel Hrender) as (_ & _ & Hn & Hrest).
    destruct Hrest as (_ & _ & _ & _ & _ & _ & _ & _ & Hret).
    destruct (Hret j) as (x & Hx & <-); [lia|]. done.
  - intros ct R0 R1 Hct Hsetup Hw1 Hh1 Hs1 Hst0 Hfuel Hstart.
    destruct (start_created fuel G R0 R1 R Hsetup Hw1 Hh1 Hs1 Hst0 Hfuel Hstart)
      as (R2 & Hcreate & _ & _ & _ & _ & _ & Hret).
    exists R2. split; [done|]. intros j Hj.
    destruct (Hret ct Hct) as (_ & _ & Hret'). destruct (Hret' j Hj) as (x & Hx & <-). done.
Qed.

(** C5.  While cell [i] is bound, [setPoint x y c] with [x], [y] in
    [0, cellSize) writes exactly the four bytes at
    [pixelOrigin + (y * rasterWidth + x) * 4], where [rasterWidth] is
    [width * cellSize] and [pixelOrigin] is the first byte of the top-left
    pixel of the cell: the red, green and blue channels of the colour and
    255 for alpha.  A colour with an [h] field goes through [hsvToRgb]
    first; one without is used as it is, a channel in [0, 256) being stored
    unchanged. *)
Theorem C5_point_writes_four_bytes (x y : Z) (c : color) (R : Renderer St W) (i : Z) :
  created R -> bound R i -> 0 <= x < cellSize R -> 0 <= y < cellSize R ->
  exists o R',
    pixelOrigin R (Ref (step R) i) = Some o /\
    o = ((i / width R) * cellSize R * (width R * cellSize R)
         + Z.rem i (width R) * cellSize R) * 4 /\
    setPoint x y c R = Ok R' /\
    R' = set_image (image R') R /\
    length (image R') = length (image R) /\
    let p := o + (y * (width R * cellSize R) + x) * 4 in
    let c' := match col_h c with Some _ => hsvToRgb c | None => c end in
    0 <= p /\ p + 3 < Z.of_nat (length (image R)) /\
    arr_get (image R') p = Some (toUint8Clamp (col_r c')) /\
    arr_get (image R') (p + 1) = Some (toUint8Clamp (col_g c')) /\
    arr_get (image R') (p + 2) = Some (toUint8Clamp (col_b c')) /\
    arr_get (image R') (p + 3) = Some 255 /\
    (forall q, ~ (p <= q < p + 4) -> arr_get (image R') q = arr_get (image R) q) /\
    (forall z, 0 <= z < 256 -> toUint8Clamp (Some z) = z).
Proof.
  intros HR Hb Hx Hy.
  pose proof (created_width R HR) as Hw.
  destruct (byte_offset_inside (cellSize R) (width R) (height R) i x y)
    as (Hp0 & Hp3 & _); [done|apply Hb|done|done|].
  rewrite <- (Z2Nat.id (_ * 4)), <- (created_image R HR) in Hp3 by lia.
  exists (byte_offset (cellSize R) (width R) i 0 0). eexists.
  split; [apply pixelOrigin_bound; [done|done|lia]|].
  split; [unfold byte_offset; ring|].
  split; [by apply (setPoint_bound x y c R i)|]. cbn [image set_image].
  split; [done|]. split; [apply plot_length|].
  rewrite point_offset_inside by done.
  fold (toRgb c).
  replace (byte_offset (cellSize R) (width R) i 0 0 + (y * (width R * cellSize R) + x) * 4)
    with (byte_offset (cellSize R) (width R) i x y) by (unfold byte_offset; ring).
  set (p := byte_offset (cellSize R) (width R) i x y) in *.
  split; [done|]. split; [done|].
  split; [rewrite plot_get, decide_True by (done || lia); by rewrite Z.sub_diag|].
  split; [rewrite plot_get, decide_True by (done || lia);
          by replace (p + 1 - p) with 1 by lia|].
  split; [rewrite plot_get, decide_True by (done || lia);
          by replace (p + 2 - p) with 2 by lia|].
  split; [rewrite plot_get, decide_True by (done || lia);
          by replace (p + 3 - p) with 3 by lia|].
  split; [|apply toUint8Clamp_byte].
  intros q Hq. rewrite plot_get by done. by rewrite decide_False by done.
Qed.

(** C6.  While cell [i] is bound and [cellSize] is positive,
    [setBackground c] returns and changes the raster only: every byte of
    every pixel of the [cellSize] x [cellSize] block of the cell (columns
    [(i mod width) * cellSize ...], rows [(i / width) * cellSize ...]) holds
    the colour with alpha 255, and every byte of every other pixel is as
    before.  The colour is [c] itself when it has no [h] field. *)
Theorem C6_background_fills_cell_block (c : color) (R : Renderer St W) (i : Z) :
  created R -> bound R i -> 0 < cellSize R ->
  exists R',
    setBackground c R = Ok R' /\
    R' = set_image (image R') R /\
    length (image R') = length (image R) /\
    (col_h c = None -> toRgb (toRgb c) = c) /\
    forall px py ch,
      0 <= px < width R * cellSize R -> 0 <= py < height R * cellSize R -> 0 <= ch < 4 ->
      let q := (py * (width R * cellSize R) + px) * 4 + ch in
      if decide (Z.rem i (width R) * cellSize R <= px < (Z.rem i (width R) + 1) * cellSize R /\
                 (i / width R) * cellSize R <= py < (i / width R + 1) * cellSize R)
      then arr_get (image R') q = Some (channel (toRgb (toRgb c)) ch)
      else arr_get (image R') q = arr_get (image R) q.
Proof.
  intros HR Hb Hs.
  pose proof (created_width R HR) as Hw.
  rewrite setBackground_chain.
  rewrite (setPoint_chain_bound _ _ R i HR Hb).
  2:{ intros [x y] Hxy. apply block_pairs in Hxy. cbn. lia. }
  eexists. split; [reflexivity|]. cbn [image set_image].
  split; [done|]. split; [apply fold_plot_length|].
  split; [intros Hh; unfold toRgb; by rewrite !Hh|].
  intros px py ch Hpx Hpy Hch.
  set (q := (py * (width R * cellSize R) + px) * 4 + ch).
  set (X := Z.rem i (width R)). set (Y := i / width R).
  set (off := fun xy : Z * Z => byte_offset (cellSize R) (width R) i xy.1 xy.2).
  assert (Hvalid : forall xy,
             xy ∈ (i0 ← seqZ 0 (cellSize R); (fun j => (i0, j)) <$> seqZ 0 (cellSize R)) ->
             0 <= off xy /\ off xy + 3 < Z.of_nat (length (image R)) /\ off xy mod 4 = 0).
  { intros [x y] Hxy. apply block_pairs in Hxy as [Hx Hy]. unfold off. cbn [fst snd].
    destruct (byte_offset_inside (cellSize R) (width R) (height R) i x y)
      as (Hp0 & Hp3 & _); [done|apply Hb|done|done|].
    rewrite (created_image R HR), Z2Nat.id by lia.
    split; [done|]. split; [done|]. rewrite byte_offset_pixel. apply Z_mod_mult. }
  pose proof (fold_plot_get off _ (toRgb (toRgb c)) (image R) q Hvalid) as Hget.
  unfold off in Hget at 1. cbv beta in Hget.
  assert (Hqmod : q mod 4 = ch).
  { unfold q. symmetry. apply (Z.mod_unique_pos _ 4 (py * (width R * cellSize R) + px)); lia. }
  destruct (decide (X * cellSize R <= px < (X + 1) * cellSize R /\
                    Y * cellSize R <= py < (Y + 1) * cellSize R)) as [Hin|Hout].
  - rewrite Hget, decide_True; [by rewrite Hqmod|].
    apply Exists_exists. exists (px - X * cellSize R, py - Y * cellSize R). split.
    + apply block_pairs. lia.
    + unfold off. cbn [fst snd]. rewrite byte_offset_pixel. fold X Y. unfold q.
      replace (py - Y * cellSize R + Y * cellSize R) with py by lia.
      replace (X * cellSize R + (px - X * cellSize R)) with px by lia. lia.
  - rewrite Hget, decide_False; [done|].
    intros ([x y] & Hxy & Hq)%Exists_exists. apply block_pairs in Hxy as [Hx Hy].
    unfold off in Hq. cbn [fst snd] in Hq. rewrite byte_offset_pixel in Hq. fold X Y in Hq.
    destruct (byte_offset_inside (cellSize R) (width R) (height R) i x y)
      as (_ & _ & Hcol & Hrow); [done|apply Hb|done|done|]. fold X Y in Hcol, Hrow.
    destruct (row_column_unique (width R * cellSize R) (y + Y * cellSize R)
                (X * cellSize R + x) py px) as [Hr Hc]; [done|done|unfold q in Hq; lia|].
    apply Hout. lia.
Qed.

(** C7.  The setup-only functions test [setupDone], which [start] never
    sets: after [start] has run on a renderer still in its setup phase,
    [setCellSize], [setSize] and [setParent] do not fail, and the
    configuration takes the new value.  (They do fail, and change nothing,
    in any state whose [setupDone] is true.) *)
Theorem C7_setup_functions_still_open_after_start (fuel : nat) (G : Global St W)
    (R R' : Renderer St W) :
  setupDone R = false -> start fuel G R = Ok R' ->
  setupDone R' = false /\
  (forall size, exists R'', setCellSize size R' = Ok R'' /\ cellSize R'' = size) /\
  (forall w h, exists R'', setSize w h R' = Ok R'' /\ width R'' = w /\ height R'' = h) /\
  (forall id, exists R'', setParent id R' = Ok R'' /\ parentId R'' = id) /\
  (forall Rd : Renderer St W, setupDone Rd = true ->
     (forall size, setCellSize size Rd = Throw SetupOnly) /\
     (forall w h, setSize w h Rd = Throw SetupOnly) /\
     (forall id, setParent id Rd = Throw SetupOnly)).
Proof.
  intros Hopen Hstart. destruct (start_fields fuel G R R' Hstart) as (Hd & _).
  rewrite Hopen in Hd. split; [done|].
  unfold setCellSize, setSize, setParent. rewrite Hd.
  split; [intros; by eexists|]. split; [intros; by eexists|]. split; [intros; by eexists|].
  intros Rd ->. by repeat split.
Qed.

(** C8.  When a scan has completed the cursor is unbound: [cell()],
    [cloneCell()] and [neighbor()] throw, but [id()] does not, it returns
    the rest value -1 of [currentId], which its test against null lets
    through.  The same holds on a new renderer, before any scan. *)
Theorem C8_id_answers_outside_a_scan (fuel : nat) (G : Global St W) (lp : callback W (call St) (value St))
    (R R' : Renderer St W) (w : W) (B : Browser) :
  loop G = Some lp -> onRender fuel G R = Ok R' ->
  (getId R' = Ok (-1) /\
   getCell R' = Throw LoopOnly /\ cloneCell R' = Throw LoopOnly /\
   forall k, getNeighbor k R' = Throw LoopOnly) /\
  (getId (@Renderer_new St W w B) = Ok (-1) /\
   getCell (@Renderer_new St W w B) = Throw LoopOnly /\ cloneCell (@Renderer_new St W w B) = Throw LoopOnly /\
   forall k, getNeighbor k (@Renderer_new St W w B) = Throw LoopOnly).
Proof.
  intros Hlp Hrender.
  destruct (onRender_fields fuel G R R' Hrender) as (_ & _ & _ & _ & Hcur).
  destruct (Hcur lp Hlp) as (Hc & Hi & _).
  split; [|by repeat split].
  split; [unfold getId; by rewrite Hi|].
  split; [by apply getCell_unbound|]. split; [by apply cloneCell_unbound|].
  intros k. by apply getNeighbor_unbound.
Qed.

(** C9.  A draw call succeeds exactly while [currentCell] is
    bound.  It is bound in every state in which a [loop] callback makes a
    call during a scan, where [setPoint] and [setBackground] return.  It is
    null outside a scan and also throughout the construction pass of
    [start], which binds [currentId] only: there [setPoint] throws, and so
    does [setBackground] for a positive [cellSize]. *)
Theorem C9_draw_calls_need_current_cell (lp ct : callback W (call St) (value St)) (R : Renderer St W)
    (i : Z) (R' : Renderer St W) :
  created R -> 0 <= i < cellCount R ->
  (called_in_tick lp R i R' ->
     currentCell R' = Some (Ref (step R) i) /\
     (forall x y c, exists R'', setPoint x y c R' = Ok R'') /\
     (forall c, exists R'', setBackground c R' = Ok R'')) /\
  (currentCell R = None -> called_in_construct ct R i R' ->
     currentCell R' = None /\ currentId R' = Some i /\
     (forall x y c, setPoint x y c R' = Throw LoopOnly) /\
     (forall c, 0 < cellSize R' -> setBackground c R' = Throw LoopOnly)) /\
  (forall Ru : Renderer St W, currentCell Ru = None ->
     (forall x y c, setPoint x y c Ru = Throw LoopOnly) /\
     (forall c, 0 < cellSize Ru -> setBackground c Ru = Throw LoopOnly)).
Proof.
  intros HR Hi. split; [|split].
  - intros Hcall.
    destruct (called_in_tick_reads lp R i R' HR Hi Hcall) as (HR' & Hb' & Hst & _).
    split; [rewrite <- Hst; apply Hb'|]. split.
    + intros x y c. eexists. by apply (setPoint_bound x y c R' i).
    + intros c. by apply (setBackground_bound c R' i).
  - intros Hnone Hcall.
    destruct (called_in_construct_unbound ct R i R' Hnone Hcall) as [Hc Hid].
    split; [done|]. split; [done|]. split.
    + intros x y c. by apply setPoint_unbound.
    + intros c Hs. by apply setBackground_unbound.
  - intros Ru Hnone. split.
    + intros x y c. by apply setPoint_unbound.
    + intros c Hs. by apply setBackground_unbound.
Qed.

(** C10.  With [stop] as the spec describes it.  Called while the
    scheduler is running, [stop] cancels the timer that [interval]
    remembers, leaves [interval] null and touches nothing else.  When that
    timer is the only one of the page, no timer is left: from then on, in
    any sequence of timer firings and calls that does not contain [start],
    no tick occurs.  In general the timers that the renderer does not
    remember stay (a second [start] on a running renderer leaves one), and
    the ticks that still occur are theirs.  A tick in progress is not
    cut short: [onRender] is the loop from its first turn, and from any
    turn on the rest of the loop runs after [stop] as it would have run
    without it.  A later [start] that returns registers a timer again. *)
Theorem C10_stop_cancels_the_pending_timer (fuel : nat) (G : Global St W) (R : Renderer St W) :
  interval R <> None ->
  interval (stop R) = None /\
  (forall t, t ∈ timers (browser (stop R)) <->
             t ∈ timers (browser R) /\ Some t.1 <> interval R) /\
  cells (stop R) = cells R /\ step (stop R) = step R /\ image (stop R) = image R /\
  (sched_inv R ->
     timers (browser (stop R)) = [] /\
     forall evs R', sched_run fuel G (stop R) evs R' -> CallStart ∉ evs ->
       timers (browser R') = [] /\ forall hd, Tick hd ∉ evs) /\
  (forall evs R', sched_run fuel G (stop R) evs R' -> CallStart ∉ evs ->
     interval R' = None /\
     timers (browser R') = timers (browser (stop R)) /\
     forall hd, Tick hd ∈ evs ->
       hd ∈ (fst <$> timers (browser R)) /\ Some hd <> interval R) /\
  (forall lp, loop G = Some lp ->
     onRender fuel G R = resume fuel lp 0 R /\
     forall k Rk R',
       resume fuel lp k Rk = Ok R' -> resume fuel lp k (stop Rk) = Ok (stop R')) /\
  (forall R', start fuel G (stop R) = Ok R' ->
     exists hd, interval R' = Some hd /\ hd ∈ (fst <$> timers (browser R'))).
Proof.
  intros Hrun.
  assert (Hi : interval (stop R) = None) by done.
  assert (Hafter : forall evs R', sched_run fuel G (stop R) evs R' -> CallStart ∉ evs ->
             interval R' = None /\ timers (browser R') = timers (browser (stop R)) /\
             forall hd, Tick hd ∈ evs -> hd ∈ (fst <$> timers (browser (stop R)))).
  { intros evs R' Hevs Hns. by apply (idle_run_timers fuel G (stop R) evs R'). }
  split; [done|]. split; [apply stop_timers|]. do 3 (split; [done|]).
  split; [|split; [|split]].
  - intros Hinv. destruct (stop_idle R Hinv) as [_ Ht]. split; [done|].
    intros evs R' Hevs Hns. destruct (Hafter evs R' Hevs Hns) as (_ & Ht' & Hticks).
    split; [congruence|]. intros hd Hin. apply Hticks in Hin.
    rewrite Ht in Hin. by apply elem_of_nil in Hin.
  - intros evs R' Hevs Hns. destruct (Hafter evs R' Hevs Hns) as (Hi' & Ht' & Hticks).
    split; [done|]. split; [done|]. intros hd Hin.
    apply Hticks in Hin. apply list_elem_of_fmap in Hin as ([h ms] & -> & Hin).
    apply stop_timers in Hin as [Hin Hne]. split; [|done].
    apply list_elem_of_fmap. by exists (h, ms).
  - intros lp Hlp. split; [by apply onRender_resume|].
    intros k Rk R'. apply resume_stop.
  - intros R' Hstart. destruct (start_fields fuel G (stop R) R' Hstart) as (_ & Htimer & _).
    destruct (Htimer Hi) as (hd & ms & Hi' & Ht'). exists hd. split; [done|].
    rewrite Ht'. rewrite fmap_app. apply elem_of_app. right. cbn. by left.
Qed.

(** * More of the engine *)

(** ** The frame rate *)

(** X1.  [setFramerate] is open at any time (it does not test
    [setupDone]) and [getFramerate] reads back what it stored.  On an idle
    renderer it touches nothing but [fps].  On a running one it cancels
    the timer that [interval] remembers and registers one timer of delay
    [floor(1000 / fps)] in its place, remembered in [interval]; if that
    timer was the only one of the page, the new one is again the only
    one.  Grid, buffers, raster and selector are left as they are. *)
Theorem X1_setFramerate_replaces_the_timer (x : Z) (R : Renderer St W) :
  getFramerate (setFramerate x R) = x /\
  (interval R = None ->
     interval (setFramerate x R) = None /\ browser (setFramerate x R) = browser R) /\
  (forall hd, interval R = Some hd ->
     interval (setFramerate x R) = Some (nextHandle (browser R)) /\
     forall t, t ∈ timers (browser (setFramerate x R)) <->
               (t ∈ timers (browser R) /\ t.1 <> hd) \/ t = (nextHandle (browser R), 1000 / x)) /\
  (sched_inv R -> sched_inv (setFramerate x R)) /\
  cells (setFramerate x R) = cells R /\ image (setFramerate x R) = image R /\
  step (setFramerate x R) = step R /\ setupDone (setFramerate x R) = setupDone R /\
  width (setFramerate x R) = width R /\ height (setFramerate x R) = height R /\
  cellSize (setFramerate x R) = cellSize R.
Proof.
  split.
  { unfold getFramerate, setFramerate. cbn [interval set_fps]. by destruct (interval R). }
  split.
  { intros Hi. unfold setFramerate. cbn [interval set_fps]. by rewrite Hi. }
  split.
  { intros hd Hi. unfold setFramerate. cbn [interval set_fps]. rewrite Hi. cbn.
    split; [done|]. intros t. rewrite elem_of_app, list_elem_of_filter, list_elem_of_singleton.
    unfold period. cbn. split.
    - intros [[Hne Hin]| ->]; [left|by right]. split; [done|]. intros Heq. apply Hne. by rewrite Heq.
    - intros [[Hin Hne]| ->]; [left|by right]. split; [|done]. intros [= Heq]. by apply Hne. }
  split; [apply setFramerate_sched_inv|].
  unfold setFramerate. cbn [interval set_fps]. by destruct (interval R).
Qed.

(** ** [start] *)

Lemma arr_get_alter {A} (g : A -> A) (a : list A) (i j : Z) :
  arr_get (arr_alter g a i) j = if decide (j = i) then g <$> arr_get a i else arr_get a j.
Proof.
  unfold arr_alter, arr_get.
  destruct (decide (j = i)) as [->|Hne].
  - destruct (decide (0 <= i)); [|done]. apply list_lookup_alter_eq.
  - destruct (decide (0 <= i)); [|done]. destruct (decide (0 <= j)); [|done].
    apply list_lookup_alter_ne. lia.
Qed.

Lemma arr_alter_length {A} (g : A -> A) (a : list A) (i : Z) :
  length (arr_alter g a i) = length a.
Proof. unfold arr_alter. destruct (decide (0 <= i)); [|done]. apply length_alter. Qed.

Lemma assign_at_generation (f : slot St -> slot St) (b i b' : Z) (R R' : Renderer St W) :
  assign_at f b i R = Ok R' ->
  length (generation R' b') = length (generation R b') /\
  (b' <> b -> generation R' b' = generation R b').
Proof.
  unfold assign_at. destruct (cells_ref R b i) as [[c|]| |] eqn:Hc; try done.
  cbn [mbind result_bind]. intros [= <-].
  apply cells_ref_Some in Hc as [-> _].
  unfold generation, assign. cbn [cells set_cells ref_buf ref_idx].
  rewrite arr_get_alter. destruct (decide (b' = b)) as [->|Hne]; [|done].
  split; [|done]. destruct (arr_get (cells R) b) as [buf|]; [|done]. cbn.
  by rewrite !length_fmap, arr_alter_length.
Qed.

(** While no cell is bound a callback that returns has changed nothing:
    every draw call and every read but [id] throws. *)
Lemma do_call_unbound {X} (e : call St X) (R R' : Renderer St W) (x : X) :
  currentCell R = None -> do_call e R = Ok (x, R') -> R' = R.
Proof.
  intros Hnone. destruct e; cbn [do_call].
  - by rewrite getCell_unbound.
  - by rewrite cloneCell_unbound.
  - by rewrite getNeighbor_unbound.
  - destruct (getId R); [|done|done]. by intros [= _ <-].
  - by rewrite setPoint_unbound.
  - destruct (decide (0 < cellSize R)) as [Hs|Hs].
    + by rewrite setBackground_unbound.
    + rewrite setBackground_chain, seqZ_nil by lia. cbn. by intros [= _ <-].
Qed.

Lemma run_unbound {A} (p : script (call St) A) (R R' : Renderer St W) (x : A) :
  currentCell R = None -> run (@do_call St W _ _) p R = Ok (x, R') -> R' = R.
Proof.
  revert R. induction p as [a| |X e k IH]; intros R Hnone; cbn [run].
  - by intros [= _ <-].
  - done.
  - destruct (do_call e R) as [[y R1]| |] eqn:He; [|done|done]. cbn [mbind result_bind].
    apply do_call_unbound in He as ->; [|done]. by apply IH.
Qed.

Lemma build_unbound (ct : callback W (call St) (value St)) (i : Z) (R R' : Renderer St W) :
  currentCell R = None -> build ct i R = Ok R' ->
  currentCell R' = None /\ image R' = image R /\ canvas R' = canvas R /\
  step R' = step R /\ browser R' = browser R /\ fps R' = fps R /\
  width R' = width R /\ height R' = height R /\ cellSize R' = cellSize R /\
  (forall b, length (generation R' b) = length (generation R b)) /\
  generation R' (1 - step R) = generation R (1 - step R).
Proof.
  intros Hnone. unfold build.
  destruct (invoke _ ct _) as [[x R2]| |] eqn:Hrun; [|done|done]. cbn [mbind result_bind].
  apply invoke_Ok in Hrun as (w & R1 & Hrun & ->).
  apply run_unbound in Hrun as ->; [|done]. cbn [step set_current set_world].
  intros Ha. pose proof (assign_at_cells _ _ _ _ _ Ha) as HR'.
  split; [by rewrite HR'|]. do 8 (split; [by rewrite HR'|]).
  split.
  - intros b. by destruct (assign_at_generation _ _ _ b _ _ Ha) as [-> _].
  - destruct (assign_at_generation _ _ _ (1 - step R) _ _ Ha) as [_ Hx].
    rewrite Hx by lia. done.
Qed.

Lemma createAutomaton_browser (R R' : Renderer St W) :
  createAutomaton R = Ok R' ->
  browser R' = mounted_page R /\
  canvas R' = Some (canvas_dim 300 (width R * cellSize R),
                    canvas_dim 150 (height R * cellSize R)) /\
  image R' = replicate (Z.to_nat (canvas_dim 300 (width R * cellSize R) *
                                  canvas_dim 150 (height R * cellSize R) * 4)) 0 /\
  width R' = width R /\ height R' = height R /\ cellSize R' = cellSize R /\ fps R' = fps R.
Proof.
  intros H0. destruct (createAutomaton_Ok_inv R R' H0) as (Hm & _).
  revert H0. unfold createAutomaton. rewrite appendCanvas_mountable by done.
  cbn [mbind result_bind]. destruct (decide _); [done|]. destruct (decide _); [done|].
  intros H0. apply link_cells_Ok in H0 as (R1 & [= <-] & ->).
  by repeat split.
Qed.

(** ** A sketch without a [loop] callback *)

Lemma do_config_screen {X} (e : config X) (R R' : Renderer St W) (x : X) :
  do_config e R = Ok (x, R') -> screen (browser R') = screen (browser R).
Proof.
  destruct e; cbn [do_config].
  - unfold setSize. destruct (setupDone R); [done|]. by intros [= _ <-].
  - unfold setCellSize. destruct (setupDone R); [done|]. by intros [= _ <-].
  - unfold setParent. destruct (setupDone R); [done|]. by intros [= _ <-].
  - intros [= _ <-]. unfold setFramerate. cbn [interval set_fps]. by destruct (interval R).
  - by intros [= _ <-].
Qed.

Lemma run_setup_screen (G : Global St W) (R R' : Renderer St W) :
  run_setup G R = Ok R' -> screen (browser R') = screen (browser R).
Proof.
  unfold run_setup. destruct (setup G) as [p|]; [|by intros [= <-]].
  destruct (invoke _ p R) as [[x R1]| |] eqn:Hrun; [|done|done]. cbn [mbind result_bind].
  intros [= <-]. apply invoke_Ok in Hrun as (w & R2 & Hrun & ->).
  change (browser (set_world w R2)) with (browser R2).
  generalize (p (world R)) Hrun. clear. intros q. revert R.
  induction q as [a| |X e k IH]; intros R; cbn [run].
  - by intros [= _ <-].
  - done.
  - destruct (do_config e R) as [[y R3]| |] eqn:He; [|done|done]. cbn [mbind result_bind].
    intros Hk. rewrite (IH _ _ Hk). by eapply do_config_screen.
Qed.

Lemma construct_all_browser (fuel : nat) (G : Global St W) (R R' : Renderer St W) :
  construct_all fuel G R = Ok R' -> browser R' = browser R.
Proof.
  unfold construct_all. destruct (construct G) as [ct|]; [|by intros [= <-]].
  destruct (for_cells fuel (build ct) 0 R) as [Rn| |] eqn:Hpass; [|done|done].
  cbn [mbind result_bind]. intros [= <-]. cbn.
  apply (for_cells_invariant (fun R1 => browser R1 = browser R) (build ct) fuel 0 R Rn);
    [|done|done].
  intros j Ra Rb Hba Hbuild. unfold build in Hbuild.
  destruct (invoke _ ct _) as [[x Rc]| |] eqn:Hrun; [|done|done].
  cbn [mbind result_bind] in Hbuild.
  apply invoke_frame in Hrun as (d & w & -> & _). apply assign_at_cells in Hbuild.
  by rewrite Hbuild.
Qed.

Lemma construct_all_fps (fuel : nat) (G : Global St W) (R R' : Renderer St W) :
  construct_all fuel G R = Ok R' -> fps R' = fps R.
Proof. intros H. by destruct (construct_all_fields fuel G R R' H) as (_ & _ & _ & Hf & _). Qed.

(** Every handle in use stays below the next one, and a timer that the
    renderer does not remember survives whatever [setup] does. *)
Lemma setFramerate_handles (x : Z) (R : Renderer St W) :
  handles_fresh (browser R) -> handles_fresh (browser (setFramerate x R)).
Proof.
  unfold handles_fresh, setFramerate. cbn [interval set_fps].
  destruct (interval R) as [hd|]; [|done]. cbn. intros HB t.
  rewrite elem_of_app, list_elem_of_filter, list_elem_of_singleton.
  intros [[_ Hin]| ->]; [apply HB in Hin; lia|cbn; lia].
Qed.

Lemma setFramerate_forgotten (x : Z) (R : Renderer St W) (t : Z * Z) :
  handles_fresh (browser R) ->
  t ∈ timers (browser R) -> Some t.1 <> interval R ->
  t ∈ timers (browser (setFramerate x R)) /\ Some t.1 <> interval (setFramerate x R).
Proof.
  unfold handles_fresh, setFramerate. cbn [interval set_fps].
  destruct (interval R) as [hd|] eqn:Hi; cbn; [|rewrite Hi; by intros; split].
  intros HB Hin Hne. split.
  - apply elem_of_app. left. by apply list_elem_of_filter.
  - apply HB in Hin. intros [= Heq]. lia.
Qed.

Lemma setFramerate_running (x : Z) (R : Renderer St W) (hd : Z) :
  interval R = Some hd ->
  exists h1, interval (setFramerate x R) = Some h1 /\
             h1 ∈ (fst <$> timers (browser (setFramerate x R))).
Proof.
  intros Hi. unfold setFramerate. cbn [interval set_fps]. rewrite Hi. cbn.
  eexists. split; [done|]. rewrite fmap_app. apply elem_of_app. right. cbn. by left.
Qed.

Lemma timers_kept_refl (t : Z * Z) (R : Renderer St W) : timers_kept t R R.
Proof. split; [done|]. split; [done|]. intros hd Hi Hin. by exists hd. Qed.

Lemma timers_kept_trans (t : Z * Z) (R1 R2 R3 : Renderer St W) :
  timers_kept t R1 R2 -> timers_kept t R2 R3 -> timers_kept t R1 R3.
Proof.
  intros (Ha & Hb & Hc) (Ha' & Hb' & Hc'). split; [auto|]. split.
  - intros HB Hin Hne. destruct (Hb HB Hin Hne) as [Hin2 Hne2]. auto.
  - intros hd Hi Hin. destruct (Hc hd Hi Hin) as (h1 & Hi1 & Hin1). eauto.
Qed.

Lemma do_config_timers {X} (e : config X) (t : Z * Z) (R R' : Renderer St W) (x : X) :
  do_config e R = Ok (x, R') -> timers_kept t R R'.
Proof.
  destruct e; cbn [do_config].
  - unfold setSize. destruct (setupDone R); [done|]. intros [= _ <-]. exact (timers_kept_refl t R).
  - unfold setCellSize. destruct (setupDone R); [done|]. intros [= _ <-]. exact (timers_kept_refl t R).
  - unfold setParent. destruct (setupDone R); [done|]. intros [= _ <-]. exact (timers_kept_refl t R).
  - intros [= _ <-]. split; [apply setFramerate_handles|].
    split; [apply setFramerate_forgotten|].
    intros hd Hi _. by apply (setFramerate_running x0 R hd).
  - intros [= _ <-]. exact (timers_kept_refl t R).
Qed.

Lemma run_setup_timers (G : Global St W) (t : Z * Z) (R R' : Renderer St W) :
  run_setup G R = Ok R' -> timers_kept t R R'.
Proof.
  unfold run_setup. destruct (setup G) as [p|]; [|intros [= <-]; apply timers_kept_refl].
  destruct (invoke _ p R) as [[x R1]| |] eqn:Hrun; [|done|done]. cbn [mbind result_bind].
  intros [= <-]. apply invoke_Ok in Hrun as (w & R2 & Hrun & ->).
  change (timers_kept t R R2).
  generalize (p (world R)) Hrun. clear. intros q. revert R.
  induction q as [a| |X e k IH]; intros R; cbn [run].
  - intros [= _ <-]. apply timers_kept_refl.
  - done.
  - destruct (do_config e R) as [[y R3]| |] eqn:He; [|done|done]. cbn [mbind result_bind].
    intros Hk. eapply timers_kept_trans; [by eapply do_config_timers|by eapply IH].
Qed.

(** X8.  A sketch that defines no [loop] never shows anything.  [start]
    itself puts no image on the canvas, and afterwards every firing of
    the timer returns at once: whatever the number of ticks, the renderer
    stays exactly as [start] left it, [step] does not alternate, and what
    was last put on the canvas is what it was before [start]. *)
Theorem X8_without_loop_nothing_is_ever_shown (N fuel : nat) (G : Global St W)
    (R R' : Renderer St W) :
  loop G = None -> start fuel G R = Ok R' ->
  ticks N fuel G R' = Ok R' /\ screen (browser R') = screen (browser R).
Proof.
  intros Hl Hstart. split.
  - clear Hstart. induction N as [|N IH]; [done|].
    cbn [ticks]. rewrite IH. cbn [mbind result_bind]. unfold onRender. by rewrite Hl.
  - destruct (start_stages fuel G R R' Hstart) as (R1 & R2 & R3 & H1 & H2 & H3 & ->).
    apply run_setup_screen in H1. apply createAutomaton_browser in H2 as (Hb2 & _).
    apply construct_all_browser in H3.
    unfold schedule. cbn. by rewrite H3, Hb2, <- H1.
Qed.


(** X11.  What [start] leaves behind when it returns, on a renderer whose
    cursor is unbound: the grid, cell size and canvas are those of the
    configuration after [setup]; the raster has four bytes per pixel and
    is all zero, because [construct] cannot draw; both buffers have one
    state per cell; every state of the next buffer is null, and so is
    every state of the current buffer when the sketch has no
    [construct]. *)
Theorem X11_start_materialises_the_configuration (fuel : nat) (G : Global St W)
    (R0 R1 R : Renderer St W) :
  run_setup G R0 = Ok R1 ->
  0 < width R1 -> 0 < height R1 -> 0 <= cellSize R1 ->
  step R0 = 0 \/ step R0 = 1 -> currentCell R0 = None ->
  start fuel G R0 = Ok R ->
  width R = width R1 /\ height R = height R1 /\ cellSize R = cellSize R1 /\
  step R = step R0 /\ currentCell R = None /\
  canvas R = Some (width R1 * cellSize R1, height R1 * cellSize R1) /\
  image R = replicate (Z.to_nat (width R1 * cellSize R1 * (height R1 * cellSize R1) * 4)) 0 /\
  length (generation R 0) = Z.to_nat (width R1 * height R1) /\
  length (generation R 1) = Z.to_nat (width R1 * height R1) /\
  generation R (1 - step R) = replicate (Z.to_nat (width R1 * height R1)) None /\
  (construct G = None ->
     generation R (step R) = replicate (Z.to_nat (width R1 * height R1)) None).
Proof.
  intros Hsetup Hw Hh Hs Hst Hnone Hstart.
  destruct (start_stages fuel G R0 R Hstart) as (R1' & R2 & R3 & H1 & H2 & H3 & ->).
  rewrite Hsetup in H1. injection H1 as <-.
  destruct (run_setup_frame G R0 R1 Hsetup) as (Hst1 & _ & Hc1 & _).
  destruct (createAutomaton_Ok_inv R1 R2 H2) as (Hm & Hs' & _).
  destruct (createAutomaton_created R1 Hw Hh Hs' Hm) as
    (R2' & H2' & HR2 & Hw2 & Hh2 & Hs2 & Hst2 & Hc2 & _ & _ & _ & _ & _ & Hg0 & Hg1);
    [congruence|].
  rewrite H2 in H2'. injection H2' as <-.
  destruct (createAutomaton_browser R1 R2 H2) as (_ & Hcv & Him & _).
  rewrite !canvas_dim_positive in Hcv, Him by nia.
  assert (Hgen : forall b, b = 0 \/ b = 1 ->
                   generation R2 b = replicate (Z.to_nat (cellCount R1)) None).
  { intros b [-> | ->]; done. }
  assert (HP : currentCell R3 = None /\ image R3 = image R2 /\ canvas R3 = canvas R2 /\
               step R3 = step R2 /\ width R3 = width R2 /\ height R3 = height R2 /\
               cellSize R3 = cellSize R2 /\
               (forall b, length (generation R3 b) = length (generation R2 b)) /\
               generation R3 (1 - step R2) = generation R2 (1 - step R2) /\
               (construct G = None -> R3 = R2)).
  { unfold construct_all in H3. destruct (construct G) as [ct|].
    2:{ injection H3 as <-. repeat split; try done; congruence. }
    destruct (for_cells fuel (build ct) 0 R2) as [Rn| |] eqn:Hpass; [|done|done].
    cbn [mbind result_bind] in H3. injection H3 as <-.
    assert (HPn : currentCell Rn = None /\ image Rn = image R2 /\ canvas Rn = canvas R2 /\
                  step Rn = step R2 /\ width Rn = width R2 /\ height Rn = height R2 /\
                  cellSize Rn = cellSize R2 /\
                  (forall b, length (generation Rn b) = length (generation R2 b)) /\
                  generation Rn (1 - step R2) = generation R2 (1 - step R2)).
    { apply (for_cells_invariant
               (fun R' => currentCell R' = None /\ image R' = image R2 /\ canvas R' = canvas R2 /\
                          step R' = step R2 /\ width R' = width R2 /\ height R' = height R2 /\
                          cellSize R' = cellSize R2 /\
                          (forall b, length (generation R' b) = length (generation R2 b)) /\
                          generation R' (1 - step R2) = generation R2 (1 - step R2))
               (build ct) fuel 0 R2 Rn); [| |done].
      - intros j Ra Rb (Ha1 & Ha2 & Ha3 & Ha4 & Ha5 & Ha6 & Ha7 & Ha8 & Ha9) Hbuild.
        destruct (build_unbound ct j Ra Rb Ha1 Hbuild)
          as (Hb1 & Hb2 & Hb3 & Hb4 & _ & _ & Hb5 & Hb6 & Hb7 & Hb8 & Hb9).
        rewrite Ha4 in Hb9.
        repeat split; try congruence; intros b; by rewrite Hb8.
      - repeat split; try done; congruence. }
    destruct HPn as (Q1 & Q2 & Q3 & Q4 & Q5 & Q6 & Q7 & Q8 & Q9).
    cbn. repeat split; try done. }
  destruct HP as (P1 & P2 & P3 & P4 & P5 & P6 & P7 & P8 & P9 & P10).
  assert (Hgs : forall b, generation (schedule R3) b = generation R3 b) by done.
  unfold cellCount in *. rewrite !Hgs.
  change (width (schedule R3)) with (width R3). change (height (schedule R3)) with (height R3).
  change (cellSize (schedule R3)) with (cellSize R3). change (step (schedule R3)) with (step R3).
  change (currentCell (schedule R3)) with (currentCell R3).
  change (canvas (schedule R3)) with (canvas R3). change (image (schedule R3)) with (image R3).
  rewrite P1, P2, P3, P4, P5, P6, P7.
  split; [congruence|]. split; [congruence|]. split; [congruence|].
  split; [congruence|]. split; [done|]. split; [done|]. split; [done|].
  split; [by rewrite P8, Hg0, length_replicate|].
  split; [by rewrite P8, Hg1, length_replicate|].
  split.
  - rewrite P9. apply Hgen. rewrite Hst2, Hst1. destruct Hst as [-> | ->]; auto.
  - intros Hc. rewrite (P10 Hc). apply Hgen. rewrite Hst2, Hst1. done.
Qed.

(** ** Neighbours *)

Lemma offsets_NoDup : NoDup offsets.
Proof. apply (bool_decide_unpack _). vm_compute. reflexivity. Qed.

Lemma offsets_not_origin (k : Z) : arr_get offsets k <> Some (0, 0).
Proof.
  intros Hk. apply arr_get_Some in Hk as [_ Hk].
  apply list_elem_of_lookup_2 in Hk. revert Hk. apply (bool_decide_unpack _).
  vm_compute. reflexivity.
Qed.

Lemma offsets_opposite (k : Z) (d : Z * Z) :
  arr_get offsets k = Some d ->
  arr_get offsets ((k + 4) mod 8) = Some (- d.1, - d.2).
Proof.
  intros Hk. pose proof Hk as Hk'. apply arr_get_Some in Hk' as [H0 Hlt].
  apply lookup_lt_Some in Hlt. cbn in Hlt.
  assert (k = 0 \/ k = 1 \/ k = 2 \/ k = 3 \/ k = 4 \/ k = 5 \/ k = 6 \/ k = 7) as Hcase by lia.
  destruct Hcase as [->|[->|[->|[->|[->|[->|[->| ->]]]]]]];
    cbn in Hk; injection Hk as <-; reflexivity.
Qed.

Lemma topology_entry (w h b x y k : Z) (c : ref) :
  arr_get (topology w h b x y) k = Some (Some c) ->
  exists d, arr_get offsets k = Some d /\
            0 <= x + d.1 < w /\ 0 <= y + d.2 < h /\
            c = Ref b (x + d.1 + (y + d.2) * w).
Proof.
  intros Hk. apply arr_get_Some in Hk as [H0 Hk]. unfold topology in Hk.
  rewrite list_lookup_fmap in Hk. destruct (offsets !! Z.to_nat k) as [d|] eqn:Hd; [|done].
  exists d. split; [by apply arr_get_Some|]. cbn in Hk. unfold neighbor_entry in Hk.
  destruct (decide _) as [|Hin]; [done|]. injection Hk as <-. repeat split; lia.
Qed.

Lemma topology_inside (w h b x y k : Z) (d : Z * Z) :
  arr_get offsets k = Some d ->
  0 <= x + d.1 < w -> 0 <= y + d.2 < h ->
  arr_get (topology w h b x y) k = Some (Some (Ref b (x + d.1 + (y + d.2) * w))).
Proof.
  intros Hk Hx Hy. apply arr_get_Some in Hk as [H0 Hk]. apply arr_get_Some.
  split; [done|]. unfold topology. rewrite list_lookup_fmap, Hk. cbn.
  by rewrite neighbor_entry_inside.
Qed.

(** X2.  While a cell is bound [getNeighbor] never fails.  An index
    outside 0..7 reads as null, like a neighbour beyond the edge of the
    grid; on a grid of one cell every index reads as null. *)
Theorem X2_getNeighbor_outside_the_table_is_null (R : Renderer St W) (i k : Z) :
  created R -> bound R i ->
  (exists x, getNeighbor k R = Ok x) /\
  (k < 0 \/ 8 <= k -> getNeighbor k R = Ok None) /\
  (width R = 1 -> height R = 1 -> getNeighbor k R = Ok None).
Proof.
  intros HR Hb. rewrite (getNeighbor_bound R i k HR Hb).
  split; [by eexists|]. unfold neighbor_state. split.
  - intros Hk. rewrite arr_get_outside; [done|]. rewrite topology_length. lia.
  - intros Hw Hh.
    destruct (arr_get _ k) as [[c|]|] eqn:Hc; [|done|done].
    apply topology_entry in Hc as (d & Hd & Hx & Hy & _).
    destruct Hb as (_ & _ & Hi). unfold cellCount in Hi. rewrite Hw, Hh in *.
    assert (i = 0) as -> by lia.
    change (Z.rem 0 1) with 0 in Hx. change (0 / 1) with 0 in Hy.
    exfalso. apply (offsets_not_origin k). rewrite Hd. f_equal.
    destruct d as [dx dy]. cbn [fst snd] in *. f_equal; lia.
Qed.

(** X3.  In a created automaton the neighbourhoods are symmetric and
    without repetition: if the [k]-th entry of cell [i] is the cell object
    [c], then [c] is another cell of the same buffer, no other entry of
    cell [i] is [c], and the entry of [c] in the opposite direction,
    [(k + 4) mod 8], is cell [i]. *)
Theorem X3_neighbourhoods_are_symmetric (R : Renderer St W) (b i k : Z)
    (nb : list (option ref)) (c : ref) :
  created R -> b = 0 \/ b = 1 -> 0 <= i < cellCount R ->
  deref R (Ref b i) ≫= neighborhood = Some nb ->
  arr_get nb k = Some (Some c) ->
  c <> Ref b i /\
  ref_buf c = b /\ 0 <= ref_idx c < cellCount R /\
  (forall k', arr_get nb k' = Some (Some c) -> k' = k) /\
  exists nb',
    deref R c ≫= neighborhood = Some nb' /\
    arr_get nb' ((k + 4) mod 8) = Some (Some (Ref b i)).
Proof.
  intros HR Hb Hi Hnb Hk.
  pose proof (created_width R HR) as Hw.
  destruct (created_deref R b i HR Hb Hi) as (x & _ & Hd).
  rewrite Hd in Hnb. cbn in Hnb. injection Hnb as <-.
  destruct (index_coords_inside (width R) (height R) i Hw Hi) as (HX & HY & Hi').
  set (X := Z.rem i (width R)) in *. set (Y := i / width R) in *.
  pose proof Hk as Hk0.
  apply topology_entry in Hk as ([dx dy] & Hoff & Hx & Hy & ->). cbn [fst snd] in *.
  assert (Hj : 0 <= X + dx + (Y + dy) * width R < cellCount R)
    by (apply grid_index_inside; lia).
  split.
  { intros [= Heq].
    destruct (row_column_unique (width R) (Y + dy) (X + dx) Y X) as [Hr Hc]; [lia|lia|lia|].
    apply (offsets_not_origin k). rewrite Hoff. do 2 f_equal; lia. }
  split; [done|]. split; [done|]. split.
  { intros k' Hk'. apply topology_entry in Hk' as ([dx' dy'] & Hoff' & Hx' & Hy' & [= Heq]).
    cbn [fst snd] in *.
    destruct (row_column_unique (width R) (Y + dy) (X + dx) (Y + dy') (X + dx'))
      as [Hr Hc]; [lia|lia|lia|].
    assert (dx' = dx) as -> by lia. assert (dy' = dy) as -> by lia.
    apply arr_get_Some in Hoff as [H0 Hoff]. apply arr_get_Some in Hoff' as [H0' Hoff'].
    pose proof (NoDup_lookup _ _ _ _ offsets_NoDup Hoff Hoff'). lia. }
  destruct (created_deref R b _ HR Hb Hj) as (x' & _ & Hd').
  eexists. rewrite Hd'. split; [reflexivity|].
  destruct (grid_index_coords (width R) (X + dx) (Y + dy)) as [-> ->]; [lia|lia|].
  rewrite (topology_inside _ _ _ _ _ _ (- dx, - dy)); cbn [fst snd].
  - do 3 f_equal. lia.
  - by apply (offsets_opposite k (dx, dy)).
  - lia.
  - lia.
Qed.

(** ** Where the cells draw *)

Lemma cell_pos_get (size w X Y y o : Z) :
  arr_get (cell_pos size w X Y) y = Some o <->
  0 <= y < size /\ o = ((y + Y * size) * w + X) * size * 4.
Proof.
  unfold cell_pos, arr_get. destruct (decide (0 <= y)) as [Hy|Hy]; [|split; [done|lia]].
  rewrite list_lookup_fmap. destruct (decide (y < size)) as [Hlt|Hge].
  - rewrite lookup_seqZ_lt by lia. cbn. rewrite Z2Nat.id by done.
    split; [intros [= <-]; split; [lia|done]|intros [_ ->]; done].
  - rewrite lookup_seqZ_ge by lia. cbn. split; [done|lia].
Qed.

Lemma created_pos (R : Renderer St W) (b i : Z) :
  created R -> b = 0 \/ b = 1 -> 0 <= i < cellCount R ->
  deref R (Ref b i) ≫= pos =
    Some (cell_pos (cellSize R) (width R) (Z.rem i (width R)) (i / width R)).
Proof.
  intros HR Hb Hi. destruct (created_deref R b i HR Hb Hi) as (x & _ & ->). done.
Qed.

Lemma split_unique (rw a b a' b' : Z) :
  0 <= b < rw -> 0 <= b' < rw -> a * rw + b = a' * rw + b' -> a = a' /\ b = b'.
Proof. apply row_column_unique. Qed.

(** X4.  The pixel blocks of the cells tile the raster.  With [pos] the
    row offsets that [createAutomaton] stores in a cell object, and
    [pos[y] + x * 4] the byte that [setPoint x y] addresses: the two
    buffers share the offsets of a cell; two different triples of a cell
    and local coordinates in [0, cellSize) address different pixels; and
    every pixel of the raster is addressed by one such triple. *)
Theorem X4_pixel_blocks_tile_the_raster (R : Renderer St W) :
  created R -> 0 < cellSize R ->
  (forall i, 0 <= i < cellCount R ->
     deref R (Ref 0 i) ≫= pos = deref R (Ref 1 i) ≫= pos) /\
  (forall b i j rows rows' x y x' y' o o',
     b = 0 \/ b = 1 -> 0 <= i < cellCount R -> 0 <= j < cellCount R ->
     deref R (Ref b i) ≫= pos = Some rows -> deref R (Ref b j) ≫= pos = Some rows' ->
     0 <= x < cellSize R -> 0 <= x' < cellSize R ->
     arr_get rows y = Some o -> arr_get rows' y' = Some o' ->
     o + x * 4 = o' + x' * 4 ->
     i = j /\ x = x' /\ y = y') /\
  (forall px py,
     0 <= px < width R * cellSize R -> 0 <= py < height R * cellSize R ->
     exists i rows x y o,
       0 <= i < cellCount R /\ 0 <= x < cellSize R /\ 0 <= y < cellSize R /\
       deref R (Ref (step R) i) ≫= pos = Some rows /\
       arr_get rows y = Some o /\
       o + x * 4 = (py * (width R * cellSize R) + px) * 4).
Proof.
  intros HR Hs. pose proof (created_width R HR) as Hw. pose proof (created_height R HR) as Hh.
  split; [|split].
  - intros i Hi. by rewrite !created_pos by auto.
  - intros b i j rows rows' x y x' y' o o' Hb Hi Hj Hrows Hrows' Hx Hx' Ho Ho' Heq.
    rewrite created_pos in Hrows, Hrows' by done.
    injection Hrows as <-. injection Hrows' as <-.
    apply cell_pos_get in Ho as [Hy ->]. apply cell_pos_get in Ho' as [Hy' ->].
    destruct (index_coords_inside (width R) (height R) i Hw Hi) as (HX & HY & Hi').
    destruct (index_coords_inside (width R) (height R) j Hw Hj) as (HX' & HY' & Hj').
    set (X := Z.rem i (width R)) in *. set (Y := i / width R) in *.
    set (X' := Z.rem j (width R)) in *. set (Y' := j / width R) in *.
    set (s := cellSize R) in *. set (w := width R) in *.
    assert (Hpix : (y + Y * s) * (w * s) + (X * s + x) = (y' + Y' * s) * (w * s) + (X' * s + x'))
      by lia.
    destruct (split_unique (w * s) (y + Y * s) (X * s + x) (y' + Y' * s) (X' * s + x'))
      as [Hrow Hcol]; [nia|nia|done|].
    destruct (split_unique s Y y Y' y') as [HYY Hyy]; [lia|lia|lia|].
    destruct (split_unique s X x X' x') as [HXX Hxx]; [lia|lia|lia|].
    split; [|done]. rewrite Hi', Hj'. by rewrite HXX, HYY.
  - intros px py Hpx Hpy.
    set (s := cellSize R) in *. set (w := width R) in *. set (h := height R) in *.
    pose proof (Z.div_mod px s ltac:(lia)) as Hdx. pose proof (Z.mod_pos_bound px s Hs) as Hmx.
    pose proof (Z.div_mod py s ltac:(lia)) as Hdy. pose proof (Z.mod_pos_bound py s Hs) as Hmy.
    assert (HX : 0 <= px / s < w).
    { split; [apply Z.div_pos; lia|apply Z.div_lt_upper_bound; lia]. }
    assert (HY : 0 <= py / s < h).
    { split; [apply Z.div_pos; lia|apply Z.div_lt_upper_bound; lia]. }
    pose proof (grid_index_inside w h (px / s) (py / s) HX HY) as Hi.
    destruct (grid_index_coords w (px / s) (py / s)) as [Hrem Hdiv]; [lia|lia|].
    exists (px / s + py / s * w), (cell_pos s w (px / s) (py / s)), (px mod s), (py mod s).
    eexists. split; [done|]. split; [done|]. split; [done|]. split.
    { rewrite created_pos; [|done|apply (created_step R HR)|done]. fold w s.
      by rewrite Hrem, Hdiv. }
    split; [apply cell_pos_get; split; [done|reflexivity]|].
    fold s w. nia.
Qed.

(** X5.  [setPoint] does not check the local coordinates.  A row [y]
    outside [0, cellSize) addresses no byte: the call returns and the raster
    is unchanged.  A column at or beyond [cellSize] spills into the cell on
    the right (when there is one): [setPoint (x' + cellSize) y] on cell [i]
    writes what [setPoint x' y] writes when cell [i + 1] is bound. *)
Theorem X5_setPoint_does_not_check_coordinates (x y x' : Z) (c : color)
    (R : Renderer St W) (i : Z) :
  created R -> bound R i ->
  (~ (0 <= y < cellSize R) -> setPoint x y c R = Ok R) /\
  (0 <= y < cellSize R -> 0 <= x' < cellSize R -> Z.rem i (width R) + 1 < width R ->
   exists R',
     setPoint (x' + cellSize R) y c R = Ok R' /\
     setPoint x' y c (set_current (Some (Ref (step R) (i + 1))) (Some (i + 1)) R) =
       Ok (set_current (Some (Ref (step R) (i + 1))) (Some (i + 1)) R')).
Proof.
  intros HR Hb. split.
  - intros Hy. rewrite (setPoint_bound x y c R i HR Hb), point_offset_outside by done.
    cbn. by rewrite set_image_id.
  - intros Hy Hx' Hcol.
    pose proof (created_width R HR) as Hw.
    destruct Hb as (Hcur & Hid & Hi).
    destruct (index_coords_inside (width R) (height R) i Hw Hi) as (HX & HY & Hi').
    set (X := Z.rem i (width R)) in *. set (Y := i / width R) in *.
    assert (Hi1 : i + 1 = (X + 1) + Y * width R) by lia.
    assert (Hin : 0 <= i + 1 < cellCount R).
    { rewrite Hi1. apply grid_index_inside; lia. }
    destruct (grid_index_coords (width R) (X + 1) Y) as [Hrem Hdiv]; [lia|lia|].
    rewrite <- Hi1 in Hrem, Hdiv.
    set (R1 := set_current (Some (Ref (step R) (i + 1))) (Some (i + 1)) R).
    assert (HR1 : created R1) by by apply set_current_created.
    assert (Hb1 : bound R1 (i + 1)) by done.
    eexists. split; [by apply (setPoint_bound _ y c R i)|].
    rewrite (setPoint_bound x' y c R1 (i + 1) HR1 Hb1).
    rewrite !point_offset_inside by done.
    cbn [cellSize width image R1 set_current].
    replace (byte_offset (cellSize R) (width R) (i + 1) x' y)
      with (byte_offset (cellSize R) (width R) i (x' + cellSize R) y).
    + reflexivity.
    + unfold byte_offset. rewrite Hrem, Hdiv. fold X Y. ring.
Qed.

(** ** The raster across ticks *)

Lemma do_call_read {X} (e : call St X) (R R' : Renderer St W) (x : X) :
  is_read e = true -> do_call e R = Ok (x, R') -> R' = R.
Proof.
  destruct e; cbn [is_read do_call]; try done; intros _.
  - destruct (getCell R); [|done|done]. by intros [= _ <-].
  - destruct (cloneCell R); [|done|done]. by intros [= _ <-].
  - destruct (getNeighbor index R); [|done|done]. by intros [= _ <-].
  - destruct (getId R); [|done|done]. by intros [= _ <-].
Qed.

Lemma run_reads_only {A} (p : script (call St) A) (R R' : Renderer St W) (x : A) :
  reads_only p -> run (@do_call St W _ _) p R = Ok (x, R') -> R' = R.
Proof.
  revert R. induction p as [a| |X e k IH]; intros R; cbn [run reads_only].
  - by intros _ [= _ <-].
  - done.
  - intros [He Hk]. destruct (do_call e R) as [[y R1]| |] eqn:Hc; [|done|done].
    cbn [mbind result_bind]. apply do_call_read in Hc as ->; [|done]. by apply IH.
Qed.

Lemma visit_reads_only (lp : callback W (call St) (value St)) (i : Z) (R R' : Renderer St W) :
  (forall w, reads_only (lp w)) -> visit lp i R = Ok R' -> image R' = image R.
Proof.
  intros Hro. unfold visit, bind_cell.
  destruct (cells_ref R (step R) i) as [cur| |]; [|done|done]. cbn [mbind result_bind].
  destruct (invoke _ lp _) as [[x R2]| |] eqn:Hrun; [|done|done]. cbn [mbind result_bind].
  apply invoke_Ok in Hrun as (w & R1 & Hrun & ->).
  apply run_reads_only in Hrun as ->; [|done].
  intros Ha. apply assign_at_cells in Ha. by rewrite Ha.
Qed.

(** X6.  A tick that returns, on a created renderer, has ended by putting
    the raster on the canvas: what the page shows afterwards is the raster
    as the draw calls of that scan left it.  The engine itself never
    clears or resizes the raster: when [loop] makes no draw call the
    raster after the tick is the raster before it.  The tick does return
    when the runs of [loop] cannot fail. *)
Theorem X6_tick_presents_and_keeps_the_raster (G : Global St W)
    (lp : callback W (call St) (value St)) (fuel : nat) (R : Renderer St W) :
  loop G = Some lp -> created R -> (Z.to_nat (cellCount R) < fuel)%nat ->
  (forall R',
     onRender fuel G R = Ok R' ->
     screen (browser R') = image R' /\
     mounted (browser R') = mounted (browser R) /\
     length (image R') = length (image R) /\
     ((forall w, reads_only (lp w)) -> image R' = image R)) /\
  ((forall w, unfailing (lp w)) -> exists R', onRender fuel G R = Ok R').
Proof.
  intros Hlp HR Hfuel. split; [|by apply (onRender_returns G lp fuel R)].
  intros R' Hrender.
  destruct (onRender_created G lp fuel R R' Hlp HR Hfuel Hrender) as (Rn & Hscan & -> & HF & _).
  destruct HF as (HRn & Hw & Hh & Hs & _ & _ & _ & _ & Hb & _).
  split; [done|]. split; [cbn; by rewrite Hb|].
  split.
  - cbn. rewrite (created_image Rn HRn), (created_image R HR). by rewrite Hw, Hh, Hs.
  - intros Hro. cbn.
    apply (chain_invariant (fun R1 => image R1 = image R) (visit lp)
             (seqZ 0 (cellCount R)) R Rn); [|done|exact Hscan].
    intros j R1 R2 H1 Hv. rewrite <- H1. by eapply visit_reads_only.
Qed.

(** ** The new generation is a function of the old one *)

Lemma same_view_bound (R1 R2 : Renderer St W) (i : Z) :
  same_view R1 R2 -> bound R1 i -> bound R2 i.
Proof.
  intros (_ & _ & Hw & Hh & _ & Hst & Hc & Hi & _) (Hcur & Hid & Hr).
  unfold bound, cellCount in *. rewrite Hc, Hi, Hst, Hw, Hh. done.
Qed.

Lemma same_view_states (R1 R2 : Renderer St W) (i : Z) :
  same_view R1 R2 ->
  state_of R2 i = state_of R1 i /\ forall k, neighbor_state R2 i k = neighbor_state R1 i k.
Proof.
  intros (_ & _ & Hw & Hh & _ & Hst & _ & _ & Hg).
  assert (Hs : forall j, state_of R2 j = state_of R1 j).
  { intros j. unfold state_of. by rewrite Hst, Hg. }
  split; [apply Hs|]. intros k. unfold neighbor_state. rewrite Hw, Hh, Hst.
  destruct (arr_get _ k) as [[c|]|]; [apply Hs|done|done].
Qed.

Lemma same_view_frames (R1 R2 R1' R2' : Renderer St W) :
  same_view R1 R2 -> same_but_image R1 R1' -> same_but_image R2 R2' ->
  same_view R1' R2'.
Proof.
  intros (H1 & H2 & Hrest) HF1 HF2.
  split; [by eapply same_but_image_created|]. split; [by eapply same_but_image_created|].
  destruct HF1 as (d1 & w1 & -> & _). destruct HF2 as (d2 & w2 & -> & _). exact Hrest.
Qed.

(** Two renderers with the same view answer a call in the same way. *)
Lemma do_call_same_view {X} (e : call St X) (R1 R2 R1' : Renderer St W) (i : Z) (x : X) :
  same_view R1 R2 -> bound R1 i -> do_call e R1 = Ok (x, R1') ->
  exists R2', do_call e R2 = Ok (x, R2') /\ same_view R1' R2'.
Proof.
  intros Hv Hb1 Hcall.
  pose proof (same_view_bound R1 R2 i Hv Hb1) as Hb2.
  pose proof Hv as (HR1 & HR2 & _).
  destruct (same_view_states R1 R2 i Hv) as [Hs Hn].
  assert (Hsame : exists R2', do_call e R2 = Ok (x, R2')).
  { destruct e; cbn [do_call] in Hcall |- *.
    - rewrite (getCell_bound R1 i) in Hcall by done. rewrite (getCell_bound R2 i) by done.
      cbn in Hcall |- *. injection Hcall as <- _. rewrite Hs. by eexists.
    - rewrite (cloneCell_bound R1 i) in Hcall by done. rewrite (cloneCell_bound R2 i) by done.
      rewrite Hs. destruct (clone (state_of R1 i)) as [y| |]; [|done|done].
      cbn in Hcall |- *. injection Hcall as <- _. by eexists.
    - rewrite (getNeighbor_bound R1 i) in Hcall by done.
      rewrite (getNeighbor_bound R2 i) by done.
      cbn in Hcall |- *. injection Hcall as <- _. rewrite Hn. by eexists.
    - rewrite (getId_bound R1 i) in Hcall by done. rewrite (getId_bound R2 i) by done.
      cbn in Hcall |- *. injection Hcall as <- _. by eexists.
    - rewrite (setPoint_bound _ _ _ R2 i) by done. cbn. destruct x. by eexists.
    - destruct (setBackground_bound c R2 i HR2 Hb2) as [R2' ->]. cbn. destruct x. by eexists. }
  destruct Hsame as (R2' & Hcall2). exists R2'. split; [done|].
  eapply same_view_frames; [exact Hv|by eapply do_call_frame|by eapply do_call_frame].
Qed.

Lemma run_same_view {A} (p : script (call St) A) (R1 R2 R1' : Renderer St W) (i : Z) (x : A) :
  same_view R1 R2 -> bound R1 i -> run (@do_call St W _ _) p R1 = Ok (x, R1') ->
  exists R2', run (@do_call St W _ _) p R2 = Ok (x, R2').
Proof.
  revert R1 R2. induction p as [a| |X e k IH]; intros R1 R2 Hv Hb; cbn [run].
  - intros [= -> _]. by eexists.
  - done.
  - destruct (do_call e R1) as [[y R1a]| |] eqn:He; [|done|done]. cbn [mbind result_bind].
    intros Hk. destruct (do_call_same_view e R1 R2 R1a i y Hv Hb He) as (R2a & -> & Hva).
    cbn [mbind result_bind]. eapply IH; [exact Hva| |exact Hk].
    eapply same_but_image_bound; [by eapply do_call_frame|done].
Qed.


(** ** What a callback can read *)

(** X9.  [id()] answers the index of the cell being evaluated, in the
    scan and in the construction pass alike.  In the scan [cloneCell()]
    answers the JSON round trip of the state that [cell()] answers: null
    for null, and it throws when that state has no round trip, as
    [undefined] has none.  In the construction pass of a [start] that
    finds the cursor unbound, [cell()], [cloneCell()] and [neighbor()]
    throw: [construct] cannot read any state. *)
Theorem X9_what_construct_and_loop_can_read (lp ct : callback W (call St) (value St))
    (R : Renderer St W) (i : Z) (R' : Renderer St W) :
  created R -> 0 <= i < cellCount R ->
  (called_in_tick lp R i R' ->
     getId R' = Ok i /\
     getCell R' = Ok (state_of R i) /\
     (state_of R i = None -> cloneCell R' = Ok None) /\
     (forall s y, state_of R i = Some s -> jsonClone s = Some y -> cloneCell R' = Ok y) /\
     (forall s, state_of R i = Some s -> jsonClone s = None ->
        cloneCell R' = Throw JsonError)) /\
  (currentCell R = None -> called_in_construct ct R i R' ->
     getId R' = Ok i /\
     getCell R' = Throw LoopOnly /\ cloneCell R' = Throw LoopOnly /\
     forall k, getNeighbor k R' = Throw LoopOnly).
Proof.
  intros HR Hi. split.
  - intros Hcall.
    destruct (called_in_tick_reads lp R i R' HR Hi Hcall)
      as (_ & _ & _ & _ & _ & _ & Hcell & Hclone & Hid & _).
    split; [done|]. split; [done|]. rewrite Hclone. unfold clone.
    split; [by intros ->|]. split.
    + intros s y -> Hs. by rewrite Hs.
    + intros s -> Hs. by rewrite Hs.
  - intros Hnone Hcall.
    destruct (called_in_construct_unbound ct R i R' Hnone Hcall) as [Hc Hid].
    split; [unfold getId; by rewrite Hid|].
    split; [by apply getCell_unbound|]. split; [by apply cloneCell_unbound|].
    intros k. by apply getNeighbor_unbound.
Qed.

(** ** The first generation *)

Lemma do_call_unbound_same {X} (e : call St X) (R R' R2 : Renderer St W) (x : X) :
  currentCell R = None -> currentCell R' = None ->
  currentId R' = currentId R -> cellSize R' = cellSize R ->
  do_call e R = Ok (x, R2) -> do_call e R' = Ok (x, R').
Proof.
  intros Hn Hn' Hid Hs. destruct e; cbn [do_call].
  - by rewrite getCell_unbound.
  - by rewrite cloneCell_unbound.
  - by rewrite getNeighbor_unbound.
  - unfold getId. rewrite Hid. destruct (currentId R); [|done]. by intros [= <- _].
  - by rewrite setPoint_unbound.
  - destruct (decide (0 < cellSize R)) as [Hpos|Hpos].
    + by rewrite setBackground_unbound.
    + intros _. rewrite setBackground_chain, Hs, seqZ_nil by lia. cbn. by destruct x.
Qed.

Lemma run_unbound_same {A} (p : script (call St) A) (R R' R2 : Renderer St W) (x : A) :
  currentCell R = None -> currentCell R' = None ->
  currentId R' = currentId R -> cellSize R' = cellSize R ->
  run (@do_call St W _ _) p R = Ok (x, R2) -> run (@do_call St W _ _) p R' = Ok (x, R').
Proof.
  intros Hn Hn' Hid Hs. revert R2. induction p as [a| |X e k IH]; intros R2; cbn [run].
  - by intros [= -> _].
  - done.
  - destruct (do_call e R) as [[y R1]| |] eqn:He; [|done|done]. cbn [mbind result_bind].
    pose proof (do_call_unbound e R R1 y Hn He) as ->.
    rewrite (do_call_unbound_same e R R' R y Hn Hn' Hid Hs He). cbn [mbind result_bind].
    apply IH.
Qed.


(** ** Where no automaton is created *)

(** X13.  [createAutomaton] needs a parent for the canvas and a positive
    cell size.  It throws a TypeError when the page has no element of the
    id given to [setParent] (or no body, when none was given), an
    IndexSizeError when the canvas would be empty, as it is with a cell
    size of 0, and a RangeError when the cell size is negative.  When it
    returns, the canvas had a parent, the cell size is positive and the
    grid has cells; [start] then fails wherever [createAutomaton] does. *)
Theorem X13_createAutomaton_needs_parent_and_positive_size (R : Renderer St W) :
  (~ mountable R -> createAutomaton R = Throw TypeError) /\
  (mountable R -> width R * cellSize R = 0 \/ height R * cellSize R = 0 ->
     createAutomaton R = Throw IndexSizeError) /\
  (mountable R -> 0 < width R -> 0 < height R -> cellSize R < 0 ->
     createAutomaton R = Throw RangeError) /\
  (forall R', createAutomaton R = Ok R' ->
     mountable R /\ 0 < cellSize R /\ 0 < width R * height R) /\
  (forall fuel G R0 e,
     run_setup G R0 = Ok R -> createAutomaton R = Throw e -> start fuel G R0 = Throw e).
Proof.
  split; [apply createAutomaton_no_parent|].
  split; [apply createAutomaton_empty_canvas|].
  split; [apply createAutomaton_negative_size|].
  split; [apply createAutomaton_Ok_inv|].
  intros fuel G R0 e Hsetup Hfail. unfold start. rewrite Hsetup. cbn [mbind result_bind].
  by rewrite Hfail.
Qed.

End Properties.

Section Witnesses.

#[local] Existing Instance hsvToGrey.
#[local] Existing Instance clone_bool.

Lemma started_created : created started.
Proof.
  constructor.
  - vm_compute. reflexivity.
  - vm_compute. reflexivity.
  - vm_compute. discriminate.
  - left. reflexivity.
  - vm_compute. reflexivity.
  - exists (generation started 0), (generation started 1).
    split; [vm_compute; reflexivity|]. split; vm_compute; reflexivity.
Defined.

Lemma on_cell_0_created : created on_cell_0.
Proof.
  constructor.
  - vm_compute. reflexivity.
  - vm_compute. reflexivity.
  - vm_compute. discriminate.
  - left. reflexivity.
  - vm_compute. reflexivity.
  - exists (generation on_cell_0 0), (generation on_cell_0 1).
    split; [vm_compute; reflexivity|]. split; vm_compute; reflexivity.
Defined.

Lemma on_cell_0_bound : bound on_cell_0 0.
Proof. vm_compute. repeat split; discriminate. Defined.

Lemma on_cell_1_called : called_in_tick sketch_loop started 1 on_cell_1.
Proof.
  exists at_cell_1, on_cell_1. split; [vm_compute; reflexivity|].
  split; [vm_compute; reflexivity|]. left. reflexivity.
Defined.

Lemma sketch_loop_unfailing : forall w, unfailing (sketch_loop w).
Proof.
  intros w. split; [discriminate|]. intros c. split; [discriminate|]. intros nb.
  split; [discriminate|]. intros u. exact I.
Defined.

Lemma configured_mountable : mountable configured.
Proof. reflexivity. Defined.

(** ** The claims on the example *)

Lemma C1_witness :
  getCell on_cell_1 = Ok (Some false) /\
  getNeighbor LEFT on_cell_1 = Ok (Some true) /\
  getNeighbor RIGHT on_cell_1 = Ok None.
Proof.
  destruct (C1_reads_are_previous_generation sketch sketch_loop 5%nat
              started 1 on_cell_1) as (Hcell & Hnb & _).
  - reflexivity.
  - exact started_created.
  - split; [lia|vm_compute; reflexivity].
  - exact on_cell_1_called.
  - rewrite Hcell, !Hnb. vm_compute. repeat split.
Defined.

Lemma C2_witness :
  onRender 5 sketch started = Ok ticked /\
  step ticked <> step started /\ step ticked = 1 /\
  exists RN', ticks 2 5 sketch started = Ok RN' /\ step RN' = 0.
Proof.
  assert (Ht : onRender 5 sketch started = Ok ticked) by (vm_compute; reflexivity).
  destruct (C2_step_alternates sketch sketch_loop 5%nat started 0) as (Hflip & _).
  - reflexivity.
  - exact started_created.
  - vm_compute. lia.
  - destruct (Hflip started ticked) as (_ & _ & Hne & _); [reflexivity|exact Ht|].
    split; [exact Ht|]. split; [exact Hne|]. split; [reflexivity|].
    destruct (C2_step_alternates sketch sketch_loop 5%nat started 1) as (_ & Hall).
    + reflexivity.
    + exact started_created.
    + vm_compute. lia.
    + destruct (Hall sketch_loop_unfailing) as (RN & RN' & HN & HN' & _ & Hst & _).
      exists RN'. split; [exact HN'|].
      assert (H1 : ticks 1 5 sketch started = Ok ticked) by (vm_compute; reflexivity).
      rewrite H1 in HN. injection HN as <-. rewrite Hst. reflexivity.
Defined.

Lemma C3_witness :
  exists R' nb,
    createAutomaton configured = Ok R' /\
    deref R' (Ref 0 0) ≫= neighborhood = Some nb /\
    length nb = 8%nat /\
    arr_get nb TOPLEFT = Some None /\
    arr_get nb RIGHT = Some (Some (Ref 0 1)).
Proof.
  destruct (C3_neighborhood_fixed_order_bounded configured 0 0 0)
    as (R' & nb & Hc & Hnb & Hlen & Hk & _).
  - vm_compute. reflexivity.
  - vm_compute. reflexivity.
  - vm_compute. reflexivity.
  - exact configured_mountable.
  - left. reflexivity.
  - split; [lia|vm_compute; reflexivity].
  - split; [lia|vm_compute; reflexivity].
  - exists R', nb. split; [exact Hc|]. split; [exact Hnb|]. split; [exact Hlen|]. split.
    + apply (Hk TOPLEFT (-1) (-1)).
      * apply list_elem_of_lookup. exists 0%nat. reflexivity.
      * intros [[H _] _]. vm_compute in H. apply H. reflexivity.
    + apply (Hk RIGHT 1 0).
      * apply list_elem_of_lookup. exists 3%nat. reflexivity.
      * vm_compute. repeat split; discriminate.
Defined.

Lemma C4_witness :
  onRender 5 sketch started = Ok ticked /\
  (exists x, returned_in_tick sketch_loop started 0 x /\
             cell <$> deref ticked (Ref 1 0) = Some x) /\
  exists R', onRender 5 sketch ticked = Ok R'.
Proof.
  assert (Ht : onRender 5 sketch started = Ok ticked) by (vm_compute; reflexivity).
  destruct (C4_scan_visits_in_order_and_stores sketch sketch_loop 5%nat started)
    as (_ & _ & _ & Hret & _ & _).
  - reflexivity.
  - exact started_created.
  - vm_compute. lia.
  - split; [exact Ht|]. split.
    + destruct (Hret ticked Ht 0) as (x & Hx & Hd); [split; [lia|vm_compute; reflexivity]|].
      exists x. split; [exact Hx|exact Hd].
    + destruct (C4_scan_visits_in_order_and_stores sketch sketch_loop 5%nat ticked)
        as (_ & _ & _ & _ & _ & Hall).
      * reflexivity.
      * constructor.
        -- vm_compute. reflexivity.
        -- vm_compute. reflexivity.
        -- vm_compute. discriminate.
        -- right. reflexivity.
        -- vm_compute. reflexivity.
        -- exists (generation ticked 0), (generation ticked 1).
           split; [vm_compute; reflexivity|]. split; vm_compute; reflexivity.
      * vm_compute. lia.
      * exact (Hall sketch_loop_unfailing).
Defined.

Lemma C5_witness :
  exists R',
    setPoint 1 1 red on_cell_0 = Ok R' /\
    arr_get (image R') 20 = Some 255 /\
    arr_get (image R') 21 = Some 0 /\
    arr_get (image R') 23 = Some 255 /\
    arr_get (image R') 24 = arr_get (image on_cell_0) 24.
Proof.
  destruct (C5_point_writes_four_bytes 1 1 red on_cell_0 0)
    as (o & R' & _ & -> & Hset & _ & _ & Hrest).
  - exact on_cell_0_created.
  - exact on_cell_0_bound.
  - split; [lia|vm_compute; reflexivity].
  - split; [lia|vm_compute; reflexivity].
  - cbv zeta in Hrest. destruct Hrest as (_ & _ & Hr & Hg & _ & Ha & Hother & _).
    exists R'. split; [exact Hset|]. split; [exact Hr|]. split; [exact Hg|].
    split; [exact Ha|]. apply (Hother 24). vm_compute. intros [_ H]. discriminate H.
Defined.

Lemma C6_witness :
  exists R',
    setBackground red on_cell_0 = Ok R' /\
    arr_get (image R') 0 = Some 255 /\
    arr_get (image R') 21 = Some 0 /\
    arr_get (image R') 8 = arr_get (image on_cell_0) 8 /\
    arr_get (image R') 32 = arr_get (image on_cell_0) 32.
Proof.
  destruct (C6_background_fills_cell_block red on_cell_0 0)
    as (R' & Hbg & _ & _ & _ & Hpix).
  - exact on_cell_0_created.
  - exact on_cell_0_bound.
  - vm_compute. reflexivity.
  - assert (H0 : 0 <= 0 < width on_cell_0 * cellSize on_cell_0)
      by (split; [lia|vm_compute; reflexivity]).
    assert (H1 : 0 <= 1 < width on_cell_0 * cellSize on_cell_0)
      by (split; [lia|vm_compute; reflexivity]).
    assert (H2 : 0 <= 2 < width on_cell_0 * cellSize on_cell_0)
      by (split; [lia|vm_compute; reflexivity]).
    assert (V0 : 0 <= 0 < height on_cell_0 * cellSize on_cell_0)
      by (split; [lia|vm_compute; reflexivity]).
    assert (V1 : 0 <= 1 < height on_cell_0 * cellSize on_cell_0)
      by (split; [lia|vm_compute; reflexivity]).
    assert (V2 : 0 <= 2 < height on_cell_0 * cellSize on_cell_0)
      by (split; [lia|vm_compute; reflexivity]).
    exists R'. split; [exact Hbg|].
    split; [exact (Hpix 0 0 0 H0 V0 ltac:(lia))|].
    split; [exact (Hpix 1 1 1 H1 V1 ltac:(lia))|].
    split; [exact (Hpix 2 0 0 H2 V0 ltac:(lia))|].
    exact (Hpix 0 2 0 H0 V2 ltac:(lia)).
Defined.

Lemma C7_witness :
  start 5 sketch fresh = Ok started /\
  exists R'', setCellSize 5 started = Ok R'' /\ cellSize R'' = 5.
Proof.
  assert (Hstart : start 5 sketch fresh = Ok started) by (vm_compute; reflexivity).
  destruct (C7_setup_functions_still_open_after_start 5%nat sketch fresh started)
    as (_ & Hsize & _).
  - reflexivity.
  - exact Hstart.
  - split; [exact Hstart|]. exact (Hsize 5).
Defined.

Lemma C8_witness :
  getId ticked = Ok (-1) /\ getCell ticked = Throw LoopOnly /\
  getId fresh = Ok (-1).
Proof.
  destruct (C8_id_answers_outside_a_scan 5%nat sketch sketch_loop
              started ticked 0 Browser_new) as ((Hid & Hcell & _) & (Hnew & _)).
  - reflexivity.
  - vm_compute. reflexivity.
  - split; [exact Hid|]. split; [exact Hcell|exact Hnew].
Defined.

Lemma C9_witness :
  currentCell on_cell_1 = Some (Ref 0 1) /\
  (exists R'', setPoint 0 0 red on_cell_1 = Ok R'') /\
  (exists R'', setBackground red on_cell_1 = Ok R'').
Proof.
  destruct (C9_draw_calls_need_current_cell sketch_loop sketch_construct
              started 1 on_cell_1) as (Htick & _).
  - exact started_created.
  - split; [lia|vm_compute; reflexivity].
  - destruct (Htick on_cell_1_called) as (Hcur & Hpoint & Hbg).
    split; [exact Hcur|]. split; [exact (Hpoint 0 0 red)|exact (Hbg red)].
Defined.

(** During the construction pass no cell object is bound: a [construct]
    callback that draws makes [start] fail. *)
Lemma C9_counterexample :
  called_in_construct drawing_construct materialized 0 constructing_0 /\
  currentId constructing_0 = Some 0 /\
  setPoint 0 0 red constructing_0 = Throw LoopOnly /\
  setBackground red constructing_0 = Throw LoopOnly /\
  start 5 drawing_sketch fresh = Throw LoopOnly.
Proof.
  split.
  - exists materialized. split; [reflexivity|]. left. reflexivity.
  - repeat split; vm_compute; reflexivity.
Qed.

Lemma C10_witness :
  interval started = Some 1 /\
  interval (stop started) = None /\
  timers (browser (stop started)) = [] /\
  (forall evs R', sched_run 5 sketch (stop started) evs R' ->
     CallStart ∉ evs -> forall hd, Tick hd ∉ evs) /\
  resume 5 sketch_loop 1 (stop at_cell_1) = Ok (stop ticked).
Proof.
  destruct (C10_stop_cancels_the_pending_timer 5%nat sketch started)
    as (Hi & _ & _ & _ & _ & Hone & _ & Hflight & _).
  - vm_compute. discriminate.
  - destruct Hone as [Ht Hrun]; [vm_compute; reflexivity|].
    split; [reflexivity|]. split; [exact Hi|]. split; [exact Ht|]. split.
    + intros evs R' Hevs Hns. exact (proj2 (Hrun evs R' Hevs Hns)).
    + destruct (Hflight sketch_loop eq_refl) as [_ Hrest].
      apply (Hrest 1 at_cell_1 ticked). vm_compute. reflexivity.
Defined.

(** After a second [start] on the running renderer the page has two
    timers and the renderer remembers the second: [stop] leaves the first
    one, and ticks go on. *)
Lemma C10_counterexample :
  start 5 sketch started = Ok restarted /\
  interval restarted = Some 2 /\
  timers (browser restarted) = [(1, 33); (2, 33)] /\
  interval (stop restarted) = None /\
  timers (browser (stop restarted)) = [(1, 33)] /\
  sched_run 5 sketch (stop restarted) [Tick 1] ticked_on /\
  (CallStart ∉ [Tick 1]) /\ step ticked_on <> step (stop restarted).
Proof.
  split; [vm_compute; reflexivity|]. do 4 (split; [reflexivity|]).
  split; [|split].
  - eapply run_cons; [|apply run_nil]. apply step_tick.
    + vm_compute. left.
    + vm_compute. reflexivity.
  - intros Hin. apply elem_of_cons in Hin as [Hin|Hin]; [discriminate Hin|].
    by apply elem_of_nil in Hin.
  - vm_compute. discriminate.
Qed.

(** Scenario C of the spec: on the 2 x 2 grid with cells of 2 x 2 pixels,
    a red background at cell (0, 0) gives a raster whose top-left 2 x 2
    block is opaque red and whose other pixels are still transparent
    black. *)
Example scenario_C :
  image <$> (match setBackground red on_cell_0 with Ok R' => Some R' | _ => None end) =
    Some [ 255; 0; 0; 255;  255; 0; 0; 255;  0; 0; 0; 0;  0; 0; 0; 0;
           255; 0; 0; 255;  255; 0; 0; 255;  0; 0; 0; 0;  0; 0; 0; 0;
           0; 0; 0; 0;  0; 0; 0; 0;  0; 0; 0; 0;  0; 0; 0; 0;
           0; 0; 0; 0;  0; 0; 0; 0;  0; 0; 0; 0;  0; 0; 0; 0 ].
Proof. vm_compute. reflexivity. Qed.


(** ** Further properties on the example *)

Lemma materialized_created : created materialized.
Proof.
  constructor.
  - vm_compute. reflexivity.
  - vm_compute. reflexivity.
  - vm_compute. discriminate.
  - left. reflexivity.
  - vm_compute. reflexivity.
  - exists (generation materialized 0), (generation materialized 1).
    split; [vm_compute; reflexivity|]. split; vm_compute; reflexivity.
Defined.

Lemma reading_loop_reads_only : forall w, reads_only (reading_loop w).
Proof.
  intros w. split; [reflexivity|]. intros c. split; [reflexivity|]. intros n. exact I.
Defined.

Lemma reading_loop_unfailing : forall w, unfailing (reading_loop w).
Proof.
  intros w. split; [discriminate|]. intros c. split; [discriminate|]. intros nb. exact I.
Defined.

Lemma fresh_handles : handles_fresh (browser started).
Proof.
  intros t Hin. apply elem_of_cons in Hin as [->|Hin]; [reflexivity|].
  by apply elem_of_nil in Hin.
Defined.

Lemma X1_witness :
  getFramerate retimed = 10 /\
  interval started = Some 1 /\ interval retimed = Some 2 /\
  ((2, 100) ∈ timers (browser retimed)) /\ image retimed = image started.
Proof.
  destruct (X1_setFramerate_replaces_the_timer 10 started)
    as (Hget & _ & Hrun & _ & _ & Himg & _).
  destruct (Hrun 1) as [Hi Ht]; [reflexivity|].
  split; [exact Hget|]. split; [reflexivity|]. split; [exact Hi|].
  split; [|exact Himg]. apply (Ht (2, 100)). right. reflexivity.
Defined.

Lemma X2_witness :
  getNeighbor 8 on_cell_0 = Ok None /\ getNeighbor (-1) on_cell_0 = Ok None /\
  exists x, getNeighbor RIGHT on_cell_0 = Ok x.
Proof.
  split; [|split].
  - destruct (X2_getNeighbor_outside_the_table_is_null on_cell_0 0 8
                on_cell_0_created on_cell_0_bound) as (_ & H & _).
    apply H. right. lia.
  - destruct (X2_getNeighbor_outside_the_table_is_null on_cell_0 0 (-1)
                on_cell_0_created on_cell_0_bound) as (_ & H & _).
    apply H. left. lia.
  - destruct (X2_getNeighbor_outside_the_table_is_null on_cell_0 0 RIGHT
                on_cell_0_created on_cell_0_bound) as (H & _).
    exact H.
Defined.

Lemma X3_witness :
  arr_get neighbours_of_0 RIGHT = Some (Some (Ref 0 1)) /\
  exists nb',
    deref started (Ref 0 1) ≫= neighborhood = Some nb' /\
    arr_get nb' LEFT = Some (Some (Ref 0 0)).
Proof.
  assert (Hk : arr_get neighbours_of_0 RIGHT = Some (Some (Ref 0 1))) by reflexivity.
  split; [exact Hk|].
  destruct (X3_neighbourhoods_are_symmetric started 0 0 RIGHT neighbours_of_0 (Ref 0 1))
    as (_ & _ & _ & _ & Hopp).
  - exact started_created.
  - left. reflexivity.
  - split; [lia|vm_compute; reflexivity].
  - vm_compute. reflexivity.
  - exact Hk.
  - exact Hopp.
Defined.

Lemma X4_witness :
  0 < cellSize started /\
  deref started (Ref 0 3) ≫= pos = deref started (Ref 1 3) ≫= pos /\
  exists i rows x y o,
    0 <= i < cellCount started /\ 0 <= x < cellSize started /\ 0 <= y < cellSize started /\
    deref started (Ref (step started) i) ≫= pos = Some rows /\
    arr_get rows y = Some o /\
    o + x * 4 = (2 * (width started * cellSize started) + 3) * 4.
Proof.
  assert (Hs : 0 < cellSize started) by reflexivity.
  destruct (X4_pixel_blocks_tile_the_raster started started_created Hs) as (Hshare & _ & Hcover).
  split; [exact Hs|]. split.
  - apply Hshare. split; [lia|vm_compute; reflexivity].
  - apply (Hcover 3 2); split; try lia; vm_compute; reflexivity.
Defined.

Lemma X5_witness :
  setPoint 0 2 red on_cell_0 = Ok on_cell_0 /\
  exists R',
    setPoint 2 1 red on_cell_0 = Ok R' /\
    setPoint 0 1 red moved_to_1 = Ok (set_current (Some (Ref 0 1)) (Some 1) R').
Proof.
  destruct (X5_setPoint_does_not_check_coordinates 0 2 0 red on_cell_0 0
              on_cell_0_created on_cell_0_bound) as (Hout & _).
  destruct (X5_setPoint_does_not_check_coordinates 0 1 0 red on_cell_0 0
              on_cell_0_created on_cell_0_bound) as (_ & Hspill).
  split.
  - apply Hout. vm_compute. intros [_ H]. discriminate H.
  - apply Hspill.
    + split; [lia|reflexivity].
    + split; [lia|reflexivity].
    + reflexivity.
Defined.

Lemma X6_witness :
  exists R',
    onRender 5 reading_sketch started = Ok R' /\
    screen (browser R') = image R' /\ image R' = image started.
Proof.
  destruct (X6_tick_presents_and_keeps_the_raster reading_sketch reading_loop 5%nat started)
    as (Hshow & Hret).
  - reflexivity.
  - exact started_created.
  - vm_compute. lia.
  - destruct (Hret reading_loop_unfailing) as (R' & Hr).
    destruct (Hshow R' Hr) as (Hscreen & _ & _ & Hkeep).
    exists R'. split; [exact Hr|]. split; [exact Hscreen|].
    exact (Hkeep reading_loop_reads_only).
Defined.


Lemma X8_witness :
  start 5 still_sketch fresh = Ok still_started /\
  ticks 3 5 still_sketch still_started = Ok still_started /\
  screen (browser still_started) = [].
Proof.
  assert (Hstart : start 5 still_sketch fresh = Ok still_started) by (vm_compute; reflexivity).
  destruct (X8_without_loop_nothing_is_ever_shown 3%nat 5%nat still_sketch fresh still_started)
    as [Hticks Hscreen].
  - reflexivity.
  - exact Hstart.
  - split; [exact Hstart|]. split; [exact Hticks|exact Hscreen].
Defined.

Lemma X9_witness :
  getId on_cell_1 = Ok 1 /\ cloneCell on_cell_1 = Ok (Some false) /\
  getId constructing_0 = Ok 0 /\ cloneCell constructing_0 = Throw LoopOnly.
Proof.
  destruct (X9_what_construct_and_loop_can_read sketch_loop drawing_construct
              started 1 on_cell_1) as (Htick & _).
  - exact started_created.
  - split; [lia|vm_compute; reflexivity].
  - destruct (X9_what_construct_and_loop_can_read sketch_loop drawing_construct
                materialized 0 constructing_0) as (_ & Hbuild).
    + exact materialized_created.
    + split; [lia|vm_compute; reflexivity].
    + destruct (Htick on_cell_1_called) as (Hid & _ & _ & Hclone & _).
      destruct Hbuild as (Hid0 & _ & Hclone0 & _).
      * reflexivity.
      * exists materialized. split; [reflexivity|]. left. reflexivity.
      * split; [exact Hid|]. split; [exact (Hclone false (Some false) eq_refl eq_refl)|].
        split; [exact Hid0|exact Hclone0].
Defined.


Lemma X11_witness :
  canvas started = Some (4, 4) /\
  image started = replicate 64 0 /\
  generation started 1 = [None; None; None; None].
Proof.
  destruct (X11_start_materialises_the_configuration 5%nat sketch fresh configured started)
    as (_ & _ & _ & _ & _ & Hcv & Himg & _ & _ & Hnext & _).
  - vm_compute. reflexivity.
  - reflexivity.
  - reflexivity.
  - vm_compute. discriminate.
  - left. reflexivity.
  - reflexivity.
  - vm_compute. reflexivity.
  - split; [exact Hcv|]. split; [exact Himg|exact Hnext].
Defined.


Lemma X13_witness :
  createAutomaton orphan = Throw TypeError /\
  createAutomaton flat = Throw IndexSizeError /\
  createAutomaton inverted = Throw RangeError /\
  0 < cellSize configured.
Proof.
  destruct (X13_createAutomaton_needs_parent_and_positive_size orphan) as (Hno & _).
  destruct (X13_createAutomaton_needs_parent_and_positive_size flat) as (_ & Hflat & _).
  destruct (X13_createAutomaton_needs_parent_and_positive_size inverted)
    as (_ & _ & Hneg & _).
  destruct (X13_createAutomaton_needs_parent_and_positive_size configured)
    as (_ & _ & _ & Hinv & _).
  split; [apply Hno; vm_compute; discriminate|].
  split; [apply Hflat; [reflexivity|left; reflexivity]|].
  split; [apply Hneg; reflexivity|].
  destruct (Hinv materialized) as (_ & Hs & _); [vm_compute; reflexivity|exact Hs].
Defined.
End Witnesses.
